(** * django-reactive: the expression parser and its evaluation protocol

    A shallow embedding of [core/expressions.py] and
    [core/reactive_function.py].

    Python [str] values are modelled as [string]; the model covers ASCII text,
    where [str.isnumeric] accepts exactly the non-empty digit strings and
    [str.isidentifier] the usual letter/underscore/digit words.  Python
    exceptions are an explicit error type, and the recursion of the parser and
    of the evaluators is driven by a fuel argument. *)

From Stdlib Require Import String Ascii List ZArith Bool Arith Lia DecimalString.
From Stdlib Require Decimal DecimalPos.
Import ListNotations.

Local Open Scope list_scope.
Local Open Scope string_scope.

(** ** Python string primitives *)

Module Py.

(** [s[i:j]] for [0 <= i], [0 <= j]; slices clip at the end of the string. *)
Definition slice (s : string) (i j : nat) : string := substring i (j - i) s.

(** [s[i:]] *)
Definition slice_from (s : string) (i : nat) : string :=
  substring i (String.length s - i) s.

(** [s[1:-1]] *)
Definition interior (s : string) : string :=
  substring 1 (String.length s - 2) s.

(** [s[0]] and [s[-1]]; [None] stands for the IndexError of an empty string. *)
Definition first (s : string) : option ascii := String.get 0 s.
Definition last (s : string) : option ascii :=
  match String.length s with
  | 0 => None
  | S n => String.get n s
  end.

Definition char_is (o : option ascii) (c : ascii) : bool :=
  match o with
  | Some a => Ascii.eqb a c
  | None => false
  end.

(** A one-character [str], the type of the items of [enumerate(expression)]. *)
Definition chr (c : ascii) : string := String c EmptyString.

(** [s.find(c)] for a single character; [None] stands for [-1]. *)
Fixpoint find (c : ascii) (s : string) : option nat :=
  match s with
  | EmptyString => None
  | String a rest =>
      if Ascii.eqb a c then Some 0
      else match find c rest with
           | Some n => Some (S n)
           | None => None
           end
  end.

(** [sep.join(parts)] *)
Definition join (sep : string) (parts : list string) : string :=
  String.concat sep parts.

(** [key in s] for two strings: the substring test. *)
Fixpoint contains (key s : string) : bool :=
  String.prefix key s
  || match s with
     | EmptyString => false
     | String _ rest => contains key rest
     end.

Definition is_digit (c : ascii) : bool :=
  let n := nat_of_ascii c in ((48 <=? n) && (n <=? 57))%nat.

Definition is_ident_start (c : ascii) : bool :=
  let n := nat_of_ascii c in
  (((65 <=? n) && (n <=? 90)) || ((97 <=? n) && (n <=? 122)) || (n =? 95))%nat.

Definition is_ident_char (c : ascii) : bool :=
  is_ident_start c || is_digit c.

Fixpoint all_chars (p : ascii -> bool) (s : string) : bool :=
  match s with
  | EmptyString => true
  | String c rest => p c && all_chars p rest
  end.

(** [s.isnumeric()] on ASCII text. *)
Definition isnumeric (s : string) : bool :=
  match s with
  | EmptyString => false
  | _ => all_chars is_digit s
  end.

(** [s.isidentifier()] on ASCII text. *)
Definition isidentifier (s : string) : bool :=
  match s with
  | EmptyString => false
  | String c rest => is_ident_start c && all_chars is_ident_char rest
  end.

(** The decimal value of a string of digits: what [int(s)] returns when it
    returns ([py_int] below has the limit on the number of digits). *)
Fixpoint int_digits (acc : Z) (s : string) : Z :=
  match s with
  | EmptyString => acc
  | String c rest =>
      int_digits (10 * acc + Z.of_nat (nat_of_ascii c - 48))%Z rest
  end.

Definition int (s : string) : Z := int_digits 0%Z s.

(** The decimal text of an integer: what [str(n)] returns when it returns
    ([py_str] below has the limit on the number of digits). *)
Definition str_of_int (n : Z) : string := NilZero.string_of_int (Z.to_int n).

(** The double-quote character. *)
Definition dquote : ascii := "034"%char.

End Py.

(** ** Errors and results *)

(** The payload of [template.TemplateSyntaxError], one constructor per raise
    site; the comment gives the message of the source. *)
Inductive syntax_error : Type :=
| CantParse (expression : string)
    (* f"Can't parse expression: ({expression})" *)
| NoKeyValueSeperator
    (* "Can't find key-value seperator ':'" *)
| NoSuchKey (self_str : string)
    (* f"Error while parsing expression {self}: "
       + "There is no key named {key} in {current}" *)
| NoReactiveVariable (var_name : string)
    (* 'No reactive variable named %s was found' % self.var_name *)
| LengthArity (nargs : nat).
    (* 'Error while evaluating length function: there must be exactly one argument! ...' *)

Inductive exn : Type :=
| TemplateSyntaxError (e : syntax_error)
| TypeError
| ValueError
| KeyError
| IndexError
| AttributeError
| UnboundLocalError
| PyException (msg : string).

(** What a call does: return a value, raise, or exhaust the recursion budget
    of the model. *)
Inductive result (A : Type) : Type :=
| Ok (a : A)
| Raise (e : exn)
| OutOfFuel.

Arguments Ok {A} a.
Arguments Raise {A} e.
Arguments OutOfFuel {A}.

Definition bind {A B : Type} (m : result A) (k : A -> result B) : result B :=
  match m with
  | Ok a => k a
  | Raise e => Raise e
  | OutOfFuel => OutOfFuel
  end.

Notation "x <- m ;; k" := (bind m (fun x => k))
  (at level 61, m at next level, right associativity).

(** [sys.int_info.default_max_str_digits]: the limit CPython sets by default
    on the number of digits of a decimal text converted to or from an int. *)
Definition int_max_str_digits : nat := 4300.

(** [int(s)] for a text of decimal digits: ValueError beyond the limit. *)
Definition py_int (s : string) : result Z :=
  if (String.length s <=? int_max_str_digits)%nat then Ok (Py.int s)
  else Raise ValueError.

(** The number of digits of [str(n)]; the sign is not counted. *)
Definition decimal_digits (n : Z) : nat :=
  String.length (Py.str_of_int (Z.abs n)).

(** [str(n)]: ValueError when [n] has more digits than the limit. *)
Definition py_str (n : Z) : result string :=
  if (decimal_digits n <=? int_max_str_digits)%nat then Ok (Py.str_of_int n)
  else Raise ValueError.

(** A comprehension [[f(x) for x in xs]]: left to right, the first failure
    ends it. *)
Fixpoint map_result {A B : Type} (f : A -> result B) (xs : list A)
  : result (list B) :=
  match xs with
  | [] => Ok []
  | x :: rest =>
      y <- f x ;;
      ys <- map_result f rest ;;
      Ok (y :: ys)
  end.

(** ** The tokenizer *)

Definition common_delimiters : list (string * string) :=
  [("(", ")"); ("[", "]"); ("{", "}")].

Fixpoint match_and_return_second (char : string) (pairs : list (string * string))
  : option string :=
  match pairs with
  | [] => None
  | (first, second) :: rest =>
      if String.eqb char first then Some second
      else match_and_return_second char rest
  end.

(** What one iteration of the loop of [smart_split] does. *)
Inductive split_action : Type :=
| Yield
| Pop
| Push (end_delimiter : string)
| Skip.

(** The "otherwise" tail of the loop body: the walrus test is a truthiness
    test, so neither [None] nor an empty closing delimiter is pushed. *)
Definition open_action (char : string) (delimiters : list (string * string))
  : split_action :=
  match match_and_return_second char delimiters with
  | Some EmptyString => Skip
  | Some end_delimiter => Push end_delimiter
  | None => Skip
  end.

(** The loop body; the stack is a Python list, its top is its last item. *)
Definition smart_split_action (seperator : string)
    (delimiters : list (string * string))
    (end_delimiters_stack : list string) (char : string) : split_action :=
  match end_delimiters_stack with
  | [] =>
      if String.eqb char seperator then Yield
      else open_action char delimiters
  | _ :: _ =>
      if String.eqb char (List.last end_delimiters_stack EmptyString) then Pop
      else open_action char delimiters
  end.

Definition apply_action (a : split_action) (stack : list string) : list string :=
  match a with
  | Yield => stack
  | Pop => removelast stack
  | Push end_delimiter => (stack ++ [end_delimiter])%list
  | Skip => stack
  end.

(** [rest] is what [enumerate] still has to deliver, [loc] its position. *)
Fixpoint smart_split_loop (expression seperator : string)
    (delimiters : list (string * string))
    (rest : string) (loc i : nat) (end_delimiters_stack : list string)
  : list string :=
  match rest with
  | EmptyString => [Py.slice_from expression i]
  | String c rest' =>
      let a := smart_split_action seperator delimiters end_delimiters_stack (Py.chr c) in
      let stack' := apply_action a end_delimiters_stack in
      match a with
      | Yield =>
          Py.slice expression i loc
          :: smart_split_loop expression seperator delimiters rest' (S loc) (S loc) stack'
      | _ =>
          smart_split_loop expression seperator delimiters rest' (S loc) i stack'
      end
  end.

(** The generator, as the list of what it yields. *)
Definition smart_split (expression seperator : string)
    (delimiters : list (string * string)) : list string :=
  smart_split_loop expression seperator delimiters expression 0 0 [].

(** The stack after the scan of a prefix of the input. *)
Definition stack_after (prefix seperator : string)
    (delimiters : list (string * string)) : list string :=
  fold_left
    (fun stack c =>
       apply_action (smart_split_action seperator delimiters stack (Py.chr c)) stack)
    (list_ascii_of_string prefix) [].

(** ** Values, expressions and the reactive context *)

#[local] Unset Elimination Schemes.

(** [ReactValType]: what [eval_initial] produces.  A [dict] keeps its items in
    insertion order. *)
Inductive ReactValType : Type :=
| VStr (s : string)
| VInt (n : Z)
| VBool (b : bool)
| VNone
| VList (items : list ReactValType)
| VDict (items : list (string * ReactValType)).

(** The node classes.  [VariableExpression] and [SettablePropertyExpression]
    are the subclasses of [SettableExpression]. *)
Inductive Expression : Type :=
| StringExpression (val : string)
| IntExpression (val : Z)
| BoolExpression (val : bool)
| NoneExpression
| ArrayExpression (elements_expression : list Expression)
| DictExpression (dict_expression : list (string * Expression))
| VariableExpression (var_name : string)
| PropertyExpression (root_expression : Expression) (key_path : list string)
| SettablePropertyExpression (root_expression : Expression) (key_path : list string).

#[local] Set Elimination Schemes.

(** [isinstance(e, SettableExpression)] *)
Definition is_SettableExpression (e : Expression) : bool :=
  match e with
  | VariableExpression _ | SettablePropertyExpression _ _ => true
  | _ => false
  end.

(** Modelled from the spec: the [ReactVar] of [core/base.py], which "exposes
    js_get(), js_set(code), js_notify(), and wraps its own Expression for
    value evaluation"; the three generators are given by the code they
    return.  A [ReactVar] object is truthy. *)
Record ReactVar : Type := mkReactVar {
  var_expression : Expression;
  var_js_get : string;
  var_js_set : string -> string;
  var_js_notify : string
}.

(** A hook is the reactive variable itself. *)
Definition ReactHook : Type := ReactVar.

(** Modelled from the spec: the [ReactContext] of [core/base.py], which "maps
    a variable name to an optional ReactVar". *)
Record ReactContext : Type := mkReactContext {
  search_var : string -> option ReactVar
}.

(** Python [dict] as an insertion-ordered association list with unique keys. *)
Module PyDict.
Section WithValue.
Context {V : Type}.

Fixpoint get (d : list (string * V)) (key : string) : option V :=
  match d with
  | [] => None
  | (k, v) :: rest => if String.eqb k key then Some v else get rest key
  end.

Definition mem (d : list (string * V)) (key : string) : bool :=
  match get d key with
  | Some _ => true
  | None => false
  end.

(** [d[key] = v]: an existing key keeps its place. *)
Fixpoint set (d : list (string * V)) (key : string) (v : V)
  : list (string * V) :=
  match d with
  | [] => [(key, v)]
  | (k, w) :: rest =>
      if String.eqb k key then (k, v) :: rest
      else (k, w) :: set rest key v
  end.

(** [dict(pairs)] *)
Definition of_pairs (pairs : list (string * V)) : list (string * V) :=
  fold_left (fun d kv => set d (fst kv) (snd kv)) pairs [].
End WithValue.
End PyDict.

(** Modelled from the spec: [value_to_expression] of [core/base.py], the
    conversion that wraps a host value back into an equivalent literal node. *)
Fixpoint value_to_expression (v : ReactValType) : Expression :=
  match v with
  | VStr s => StringExpression s
  | VInt n => IntExpression n
  | VBool b => BoolExpression b
  | VNone => NoneExpression
  | VList items => ArrayExpression (map value_to_expression items)
  | VDict items =>
      DictExpression (map (fun kv => (fst kv, value_to_expression (snd kv))) items)
  end.

(** ** Operators on values *)

Definition val_is_str (key : string) (v : ReactValType) : bool :=
  match v with
  | VStr s => String.eqb s key
  | _ => false
  end.

(** [key in current] for a [str] key. *)
Definition py_in (key : string) (current : ReactValType) : result bool :=
  match current with
  | VDict items => Ok (PyDict.mem items key)
  | VList items => Ok (existsb (val_is_str key) items)
  | VStr s => Ok (Py.contains key s)
  | VInt _ | VBool _ | VNone => Raise TypeError
  end.

(** [current[key]] for a [str] key. *)
Definition py_getitem (current : ReactValType) (key : string)
  : result ReactValType :=
  match current with
  | VDict items =>
      match PyDict.get items key with
      | Some v => Ok v
      | None => Raise KeyError
      end
  | _ => Raise TypeError
  end.

(** [len(v)] *)
Definition py_len (v : ReactValType) : result ReactValType :=
  match v with
  | VStr s => Ok (VInt (Z.of_nat (String.length s)))
  | VList items => Ok (VInt (Z.of_nat (List.length items)))
  | VDict items => Ok (VInt (Z.of_nat (List.length items)))
  | VInt _ | VBool _ | VNone => Raise TypeError
  end.

(** ** The evaluation protocol *)

(** [str(e)]: only [VariableExpression] and [PropertyExpression] define
    [__str__]; the default of the other classes prints the address of the
    object, which is kept out of the model. *)
Fixpoint Expression_str (e : Expression) : string :=
  match e with
  | VariableExpression var_name => var_name
  | PropertyExpression root key_path
  | SettablePropertyExpression root key_path =>
      "(" ++ Expression_str root ++ ")." ++ Py.join "." key_path
  | _ => "<object>"
  end.

Module VariableExpression.

(** [var]: [None] means that the name is not a registered reactive variable. *)
Definition var (var_name : string) (react_context : option ReactContext)
  : result (option ReactVar) :=
  match react_context with
  | None =>
      Raise (PyException "Can't evaluate a VariableExpression if react_context=None")
  | Some ctx => Ok (search_var ctx var_name)
  end.

Definition try_parse (expression : string) : option Expression :=
  if Py.isidentifier expression then Some (VariableExpression expression)
  else None.

End VariableExpression.

Module PropertyExpression.

(** The loop of [eval_initial]; the result is [current] when the loop ends. *)
Fixpoint walk (self_str : string) (current : ReactValType)
    (key_path : list string) : result ReactValType :=
  match key_path with
  | [] => Ok current
  | key :: rest =>
      found <- py_in key current ;;
      if (found : bool) then
        next <- py_getitem current key ;;
        walk self_str next rest
      else Raise (TemplateSyntaxError (NoSuchKey self_str))
  end.

End PropertyExpression.

(** [e.eval_initial(react_context)] *)
Fixpoint eval_initial (fuel : nat) (react_context : option ReactContext)
    (e : Expression) : result ReactValType :=
  match fuel with
  | 0 => OutOfFuel
  | S fuel' =>
      match e with
      | StringExpression val => Ok (VStr val)
      | IntExpression val => Ok (VInt val)
      | BoolExpression val => Ok (VBool val)
      | NoneExpression => Ok VNone
      | ArrayExpression elements_expression =>
          items <- map_result (eval_initial fuel' react_context) elements_expression ;;
          Ok (VList items)
      | DictExpression dict_expression =>
          items <- map_result
                     (fun kv : string * Expression =>
                        v <- eval_initial fuel' react_context (snd kv) ;;
                        Ok (fst kv, v))
                     dict_expression ;;
          Ok (VDict (PyDict.of_pairs items))
      | VariableExpression var_name =>
          var <- VariableExpression.var var_name react_context ;;
          match var with
          | Some v => eval_initial fuel' react_context (var_expression v)
          | None => Ok (VStr EmptyString)
          end
      | PropertyExpression root_expression key_path
      | SettablePropertyExpression root_expression key_path =>
          root_val <- eval_initial fuel' react_context root_expression ;;
          _ <- PropertyExpression.walk (Expression_str e) root_val key_path ;;
          (* the body ends after the loop: the method returns None *)
          Ok VNone
      end
  end.

(** [e.eval_js_and_hooks(react_context)] *)
Fixpoint eval_js_and_hooks (fuel : nat) (react_context : option ReactContext)
    (e : Expression) : result (string * list ReactHook) :=
  match fuel with
  | 0 => OutOfFuel
  | S fuel' =>
      match e with
      | StringExpression val => Ok ("'" ++ val ++ "'", [])
      | IntExpression val =>
          js <- py_str val ;;
          Ok (js, [])
      | BoolExpression val => Ok (if val then "true" else "false", [])
      | NoneExpression => Ok ("null", [])
      | ArrayExpression elements_expression =>
          rs <- map_result (eval_js_and_hooks fuel' react_context) elements_expression ;;
          Ok ("[" ++ Py.join "," (map fst rs) ++ "]", concat (map snd rs))
      | DictExpression dict_expression =>
          rs <- map_result
                  (fun kv : string * Expression =>
                     r <- eval_js_and_hooks fuel' react_context (snd kv) ;;
                     Ok (fst kv ++ ":" ++ fst r, snd r))
                  dict_expression ;;
          Ok ("{" ++ Py.join "," (map fst rs) ++ "}", concat (map snd rs))
      | VariableExpression var_name =>
          var <- VariableExpression.var var_name react_context ;;
          match var with
          | Some v => Ok (var_js_get v, [v])
          | None =>
              eval_js_and_hooks fuel' react_context
                (value_to_expression (VStr EmptyString))
          end
      | PropertyExpression root_expression key_path
      | SettablePropertyExpression root_expression key_path =>
          r <- eval_js_and_hooks fuel' react_context root_expression ;;
          Ok ("(" ++ fst r ++ ")." ++ Py.join "." key_path, snd r)
      end
  end.

(** A call [e.eval_js_and_hooks(react_context, *extra)]: every class declares
    the method as [eval_js_and_hooks(self, react_context)], so a call with
    further positional arguments raises TypeError before any body runs. *)
Definition call_eval_js_and_hooks (fuel : nat) (e : Expression)
    (react_context : option ReactContext) (extra : list string)
  : result (string * list ReactHook) :=
  match extra with
  | [] => eval_js_and_hooks fuel react_context e
  | _ :: _ => Raise TypeError
  end.

(** ** The settable sub-protocol *)

(** [e.js_notify(react_context)]; the classes outside [SettableExpression]
    have no such method. *)
Fixpoint js_notify (react_context : option ReactContext) (e : Expression)
  : result string :=
  match e with
  | VariableExpression var_name =>
      var <- VariableExpression.var var_name react_context ;;
      match var with
      | None => Raise (TemplateSyntaxError (NoReactiveVariable var_name))
      | Some v => Ok (var_js_notify v)
      end
  | SettablePropertyExpression root_expression _ =>
      js_notify react_context root_expression
  | _ => Raise AttributeError
  end.

(** [e.js_set(react_context, js_expression)] *)
Definition js_set (fuel : nat) (react_context : option ReactContext)
    (e : Expression) (js_expression : string) : result string :=
  match e with
  | VariableExpression var_name =>
      var <- VariableExpression.var var_name react_context ;;
      match var with
      | None => Raise (TemplateSyntaxError (NoReactiveVariable var_name))
      | Some v => Ok (var_js_set v js_expression)
      end
  | SettablePropertyExpression _ _ =>
      r <- eval_js_and_hooks fuel react_context e ;;
      let js_path_expression := fst r in
      notify <- js_notify react_context e ;;
      Ok (js_path_expression ++ " = " ++ js_expression ++ "; " ++ notify)
  | _ => Raise AttributeError
  end.

(** ** The reactive functions *)

Module LengthFunction.

Definition validate_args (args : list Expression) : result unit :=
  if Nat.eqb (List.length args) 1 then Ok tt
  else Raise (TemplateSyntaxError (LengthArity (List.length args))).

(** [args[0]] *)
Definition arg0 (args : list Expression) : result Expression :=
  match args with
  | array :: _ => Ok array
  | [] => Raise IndexError
  end.

Definition eval_initial (fuel : nat) (reactive_context : option ReactContext)
    (args : list Expression) : result ReactValType :=
  _ <- validate_args args ;;
  array <- arg0 args ;;
  v <- eval_initial fuel reactive_context array ;;
  py_len v.

Definition eval_js (fuel : nat) (reactive_context : option ReactContext)
    (delimiter : string) (args : list Expression) : result string :=
  _ <- validate_args args ;;
  array <- arg0 args ;;
  r <- call_eval_js_and_hooks fuel array reactive_context [delimiter] ;;
  Ok ("(" ++ fst r ++ ").length").

End LengthFunction.

(** The classes of [ReactiveFunction] and the registry
    [ReactiveFunction.functions] as the module is loaded. *)
Inductive ReactiveFunction : Type :=
| LengthFunction
| CustomReactiveFunction
    (eval_initial_func : option ReactContext -> list Expression -> result ReactValType)
    (eval_js_func : option ReactContext -> string -> list Expression -> result string).

Definition functions : list (string * ReactiveFunction) :=
  [("len", LengthFunction)].

Definition ReactiveFunction_eval_initial (f : ReactiveFunction) (fuel : nat)
    (reactive_context : option ReactContext) (args : list Expression)
  : result ReactValType :=
  match f with
  | LengthFunction => LengthFunction.eval_initial fuel reactive_context args
  | CustomReactiveFunction eval_initial_func _ =>
      eval_initial_func reactive_context args
  end.

Definition ReactiveFunction_eval_js (f : ReactiveFunction) (fuel : nat)
    (reactive_context : option ReactContext) (delimiter : string)
    (args : list Expression) : result string :=
  match f with
  | LengthFunction => LengthFunction.eval_js fuel reactive_context delimiter args
  | CustomReactiveFunction _ eval_js_func =>
      eval_js_func reactive_context delimiter args
  end.

(** ** The parser *)

Definition is_boundary_whitespace (c : ascii) : bool :=
  Ascii.eqb c " " || Ascii.eqb c "009" || Ascii.eqb c "010".

(** [s[k] not in [' ', '\t', '\n']]; the loops below stay within the string. *)
Definition not_whitespace_at (s : string) (k : nat) : bool :=
  match String.get k s with
  | Some c => negb (is_boundary_whitespace c)
  | None => false
  end.

(** [for k in indices: if stop(k): break], as the value the loop variable
    holds afterwards; [None] is a variable that was never bound. *)
Fixpoint for_break (indices : list nat) (stop : nat -> bool) (bound : option nat)
  : option nat :=
  match indices with
  | [] => bound
  | k :: rest => if stop k then Some k else for_break rest stop (Some k)
  end.

Definition remove_whitespaces_on_boundaries (s : string) : result string :=
  match for_break (seq 0 (String.length s)) (not_whitespace_at s) None with
  | None => Raise UnboundLocalError  (* range(i, len(s)) reads i *)
  | Some i =>
      match for_break (rev (seq i (String.length s - i))) (not_whitespace_at s) None with
      | None => Raise UnboundLocalError  (* s[i:j+1] reads j *)
      | Some j => Ok (Py.slice s i (j + 1))
      end
  end.

Module StringExpression.

Definition try_parse (expression : string) : option Expression :=
  match Py.first expression, Py.last expression with
  | Some c0, Some c1 =>
      if (2 <=? String.length expression)%nat
         && Ascii.eqb c0 c1
         && (Ascii.eqb c0 "'" || Ascii.eqb c0 "'")
      then Some (StringExpression (Py.interior expression))
      else None
  | _, _ => None
  end.

End StringExpression.

Module IntExpression.

Definition try_parse (expression : string) : result (option Expression) :=
  if Py.isnumeric expression then
    val <- py_int expression ;;
    Ok (Some (IntExpression val))
  else Ok None.

End IntExpression.

Module BoolExpression.

Definition try_parse (expression : string) : option Expression :=
  if String.eqb expression "True" || String.eqb expression "true"
  then Some (BoolExpression true)
  else if String.eqb expression "False" || String.eqb expression "false"
  then Some (BoolExpression false)
  else None.

End BoolExpression.

Module NoneExpression.

Definition try_parse (expression : string) : option Expression :=
  if String.eqb expression "None" || String.eqb expression "null"
  then Some NoneExpression
  else None.

End NoneExpression.

(** [len(expression) >= 2 and expression[0] == opening and expression[-1] == closing] *)
Definition enclosed_in (opening closing : ascii) (expression : string) : bool :=
  (2 <=? String.length expression)%nat
  && Py.char_is (Py.first expression) opening
  && Py.char_is (Py.last expression) closing.

(** The three parsers below call [parse_expression]; they take it as [parse]. *)
Section Variants.

Variable parse : string -> result Expression.

Definition ArrayExpression_try_parse (expression : string)
  : result (option Expression) :=
  if negb (enclosed_in "[" "]" expression) then Ok None
  else
    let expression := Py.interior expression in
    let parts := smart_split expression "," common_delimiters in
    elements <- map_result parse parts ;;
    Ok (Some (ArrayExpression elements)).

Definition split_part (part : string) : result (string * Expression) :=
  match Py.find ":" part with
  | None => Raise (TemplateSyntaxError NoKeyValueSeperator)
  | Some seperator =>
      let key := Py.slice part 0 seperator in
      let val_str := Py.slice_from part (seperator + 1) in
      let key :=
        match StringExpression.try_parse key with
        | Some (StringExpression val) => val
        | _ => key
        end in
      val <- parse val_str ;;
      Ok (key, val)
  end.

(** The body of the [try]: [DictExpression(dict(split_part(part) for part in parts))] *)
Definition dict_items (expression : string)
  : result (list (string * Expression)) :=
  let parts := smart_split expression "," common_delimiters in
  pairs <- map_result split_part parts ;;
  Ok (PyDict.of_pairs pairs).

(** The bare [except:] turns every exception into "no match". *)
Definition DictExpression_try_parse (expression : string)
  : result (option Expression) :=
  if negb (enclosed_in "{" "}" expression) then Ok None
  else
    let expression := Py.interior expression in
    match dict_items expression with
    | Ok d => Ok (Some (DictExpression d))
    | Raise _ => Ok None
    | OutOfFuel => OutOfFuel
    end.

Definition PropertyExpression_try_parse (expression : string)
  : result (option Expression) :=
  let parts := smart_split expression "." common_delimiters in
  match parts with
  | [] | [_] => Ok None
  | part0 :: key_path =>
      (* parse_expression returns a node or raises: the test
         [root_expression is None] never holds *)
      root_expression <- parse part0 ;;
      if negb (forallb Py.isidentifier key_path) then Ok None
      else if is_SettableExpression root_expression
      then Ok (Some (SettablePropertyExpression root_expression key_path))
      else Ok (Some (PropertyExpression root_expression key_path))
  end.

(** The chain of [elif exp := ...] of [parse_expression]. *)
Definition or_else (attempt : option Expression) (otherwise : result Expression)
  : result Expression :=
  match attempt with
  | Some exp => Ok exp
  | None => otherwise
  end.

Definition or_else_try (attempt : result (option Expression))
    (otherwise : result Expression) : result Expression :=
  exp <- attempt ;; or_else exp otherwise.

(** What follows the Dict attempt. *)
Definition parse_after_dict (expression : string) : result Expression :=
  or_else (VariableExpression.try_parse expression)
 (or_else_try (PropertyExpression_try_parse expression)
 (Raise (TemplateSyntaxError (CantParse expression)))).

Definition parse_variants (expression : string) : result Expression :=
  or_else (StringExpression.try_parse expression)
 (or_else (BoolExpression.try_parse expression)
 (or_else_try (IntExpression.try_parse expression)
 (or_else (NoneExpression.try_parse expression)
 (or_else_try (ArrayExpression_try_parse expression)
 (or_else_try (DictExpression_try_parse expression)
 (parse_after_dict expression)))))).

Definition parse_expression_body (expression : string) : result Expression :=
  expression <- remove_whitespaces_on_boundaries expression ;;
  match Py.first expression with
  | None => Raise IndexError
  | Some c0 =>
      if Ascii.eqb c0 "(" && Py.char_is (Py.last expression) ")"
      then parse (Py.interior expression)
      else parse_variants expression
  end.

End Variants.

Fixpoint parse_expression_fuel (fuel : nat) (expression : string)
  : result Expression :=
  match fuel with
  | 0 => OutOfFuel
  | S fuel' => parse_expression_body (parse_expression_fuel fuel') expression
  end.

(** Every recursive call is on a strictly shorter string, so the length of the
    input bounds the depth of the recursion. *)
Definition parse_expression (expression : string) : result Expression :=
  parse_expression_fuel (S (String.length expression)) expression.

(** ** The spec's reading of two operations, for comparison *)

(** The spec's words for the grouping rule of [parse_expression]: the text is
    "wrapped in a single top-level (...) pair spanning the whole string".
    [depth] counts the parentheses open after the first character. *)
Fixpoint closes_only_at_end (depth : nat) (s : string) : bool :=
  match s with
  | EmptyString => false
  | String c rest =>
      if Ascii.eqb c "(" then closes_only_at_end (S depth) rest
      else if Ascii.eqb c ")" then
        match depth, rest with
        | 0, EmptyString => true
        | 0, _ => false
        | S d, _ => closes_only_at_end d rest
        end
      else closes_only_at_end depth rest
  end.

Definition wrapped_in_single_pair (s : string) : bool :=
  match s with
  | String c rest => Ascii.eqb c "(" && closes_only_at_end 0 rest
  | EmptyString => false
  end.

(** ** Predicates used by the statements *)

(** The call comes back: it returns or raises within the budget. *)
Definition terminates {A : Type} (r : result A) : Prop := r <> OutOfFuel.

(** The spec's words for a non-empty stack: the loop body only compares the
    character with the top of the stack, and ignores every other character. *)
Definition only_compares_with_top (seperator : string)
    (delimiters : list (string * string)) : Prop :=
  forall (stack : list string) (char : string),
    stack <> [] ->
    smart_split_action seperator delimiters stack char
    = if String.eqb char (List.last stack EmptyString) then Pop else Skip.

(** The characters of a dotted path of identifiers. *)
Definition path_char (c : ascii) : bool := Py.is_ident_char c || Ascii.eqb c ".".

(** The text [x.k1.k2...] of a root segment and a key path. *)
Definition dotted_path (x : string) (keys : list string) : string :=
  Py.join "." (x :: keys).

(** The stack [smart_split] holds after the scan of [s] from the stack
    [stack], when the scan yields no piece; [None] when it yields one. *)
Fixpoint scan_stack (seperator : string) (delimiters : list (string * string))
    (stack : list string) (s : string) : option (list string) :=
  match s with
  | EmptyString => Some stack
  | String c rest =>
      match smart_split_action seperator delimiters stack (Py.chr c) with
      | Yield => None
      | a => scan_stack seperator delimiters (apply_action a stack) rest
      end
  end.

(** A text that [smart_split] scans without a split and leaves with all its
    delimiters closed. *)
Definition unsplit (seperator : string) (delimiters : list (string * string))
    (s : string) : bool :=
  match scan_stack seperator delimiters [] s with
  | Some [] => true
  | _ => false
  end.

(** The character opens a delimiter of the list. *)
Definition is_opening (delimiters : list (string * string)) (c : ascii) : bool :=
  match match_and_return_second (Py.chr c) delimiters with
  | Some _ => true
  | None => false
  end.

(** No text occurs twice in the list. *)
Fixpoint distinct (keys : list string) : bool :=
  match keys with
  | [] => true
  | key :: rest => negb (existsb (String.eqb key) rest) && distinct rest
  end.

Definition nonempty {A : Type} (l : list A) : bool :=
  match l with
  | [] => false
  | _ :: _ => true
  end.

(** What the constructors assert and what the parser establishes: the name of
    a Variable is an identifier (so it holds no space), a key path is
    non-empty and made of identifiers, a SettableProperty has a settable root
    and a Property has not, an Int is not negative, an Array and a Dict are
    not empty, and the keys of a Dict are distinct. *)
Fixpoint well_formed (e : Expression) : bool :=
  match e with
  | StringExpression _ | BoolExpression _ | NoneExpression => true
  | IntExpression val => (0 <=? val)%Z
  | ArrayExpression elements_expression =>
      nonempty elements_expression && forallb well_formed elements_expression
  | DictExpression dict_expression =>
      nonempty dict_expression
      && distinct (map fst dict_expression)
      && forallb (fun kv => well_formed (snd kv)) dict_expression
  | VariableExpression var_name => Py.isidentifier var_name
  | PropertyExpression root_expression key_path =>
      nonempty key_path && forallb Py.isidentifier key_path
      && negb (is_SettableExpression root_expression)
      && well_formed root_expression
  | SettablePropertyExpression root_expression key_path =>
      nonempty key_path && forallb Py.isidentifier key_path
      && is_SettableExpression root_expression
      && well_formed root_expression
  end.

(** The names of the Variable nodes of a tree, depth first, left to right,
    with repetitions. *)
Fixpoint variables (e : Expression) : list string :=
  match e with
  | VariableExpression var_name => [var_name]
  | ArrayExpression elements_expression => flat_map variables elements_expression
  | DictExpression dict_expression =>
      flat_map (fun kv => variables (snd kv)) dict_expression
  | PropertyExpression root_expression _
  | SettablePropertyExpression root_expression _ => variables root_expression
  | _ => []
  end.

(** The number of nested calls an evaluation of the tree makes below its
    root; an unresolved Variable evaluates one more node. *)
Fixpoint depth (e : Expression) : nat :=
  match e with
  | VariableExpression _ => 1
  | ArrayExpression elements_expression =>
      S (fold_right (fun x m => Nat.max (depth x) m) 0 elements_expression)
  | DictExpression dict_expression =>
      S (fold_right (fun kv m => Nat.max (depth (snd kv)) m) 0 dict_expression)
  | PropertyExpression root_expression _
  | SettablePropertyExpression root_expression _ => S (depth root_expression)
  | _ => 0
  end.

(** The hooks a list of names stands for in a context: the reactive
    variables the names resolve to, in order. *)
Definition resolved (ctx : ReactContext) (names : list string) : list ReactHook :=
  flat_map (fun name => match search_var ctx name with
                        | Some var => [var]
                        | None => []
                        end) names.

(** The Variable a chain of SettableProperty nodes is rooted in. *)
Fixpoint settable_base (e : Expression) : option string :=
  match e with
  | VariableExpression var_name => Some var_name
  | SettablePropertyExpression root_expression _ => settable_base root_expression
  | _ => None
  end.

(** The message of the exception [VariableExpression.var] raises when it is
    given no context. *)
Definition no_context_message : string :=
  "Can't evaluate a VariableExpression if react_context=None".

(** ** Reduction against the template context *)

(** Modelled from the spec: the host template context, "supporting 'does this
    name exist' and 'fetch value by name' queries"; a name that exists has a
    value. *)
Definition template_Context : Type := string -> option ReactValType.

(** [e.reduce(template_context)] *)
Fixpoint reduce (template_context : template_Context) (e : Expression)
  : Expression :=
  match e with
  | StringExpression _ | IntExpression _ | BoolExpression _ | NoneExpression => e
  | ArrayExpression elements_expression =>
      ArrayExpression (map (reduce template_context) elements_expression)
  | DictExpression dict_expression =>
      DictExpression
        (PyDict.of_pairs
           (map (fun kv => (fst kv, reduce template_context (snd kv)))
              dict_expression))
  | VariableExpression var_name =>
      match template_context var_name with
      | Some val => value_to_expression val
      | None => e
      end
  | PropertyExpression root_expression key_path =>
      PropertyExpression (reduce template_context root_expression) key_path
  | SettablePropertyExpression root_expression key_path =>
      SettablePropertyExpression (reduce template_context root_expression) key_path
  end.

(** The keys of every Dict of the tree are distinct, as those of a Python
    dict are. *)
Fixpoint proper (e : Expression) : bool :=
  match e with
  | ArrayExpression elements_expression => forallb proper elements_expression
  | DictExpression dict_expression =>
      distinct (map fst dict_expression)
      && forallb (fun kv => proper (snd kv)) dict_expression
  | PropertyExpression root_expression _
  | SettablePropertyExpression root_expression _ => proper root_expression
  | _ => true
  end.

(** The same for a value. *)
Fixpoint proper_value (v : ReactValType) : bool :=
  match v with
  | VList items => forallb proper_value items
  | VDict items =>
      distinct (map fst items) && forallb (fun kv => proper_value (snd kv)) items
  | _ => true
  end.

(** Every Int of the tree has a decimal text within the limit of [str]. *)
Fixpoint printable (e : Expression) : bool :=
  match e with
  | IntExpression val => (decimal_digits val <=? int_max_str_digits)%nat
  | ArrayExpression elements_expression => forallb printable elements_expression
  | DictExpression dict_expression =>
      forallb (fun kv => printable (snd kv)) dict_expression
  | PropertyExpression root_expression _
  | SettablePropertyExpression root_expression _ => printable root_expression
  | _ => true
  end.

(** A text whose dots all lie inside round brackets, and which has no other
    opening delimiter: [open] counts the round brackets still open. *)
Fixpoint round_nested (open : nat) (s : string) : bool :=
  match s with
  | EmptyString => Nat.eqb open 0
  | String c rest =>
      if Ascii.eqb c "(" then round_nested (S open) rest
      else if Ascii.eqb c ")" then round_nested (Nat.pred open) rest
      else if Ascii.eqb c "[" || Ascii.eqb c "{" then false
      else if Ascii.eqb c "." then negb (Nat.eqb open 0) && round_nested open rest
      else round_nested open rest
  end.

(** * Properties *)

(** ** Strings and slices *)

Lemma substring_length_le_count (s : string) :
  forall n m, String.length (substring n m s) <= m.
Proof.
  induction s as [| c s IH]; intros [| n] [| m]; simpl; try lia.
  - specialize (IH 0 m). lia.
  - apply IH.
  - apply IH.
Qed.

Lemma substring_length_le_rest (s : string) :
  forall n m, String.length (substring n m s) <= String.length s - n.
Proof.
  induction s as [| c s IH]; intros [| n] [| m]; simpl; try lia.
  - specialize (IH 0 m). lia.
  - apply IH.
  - apply IH.
Qed.

Lemma substring_whole (s : string) : substring 0 (String.length s) s = s.
Proof.
  induction s as [| c s IH]; simpl; [reflexivity | now rewrite IH].
Qed.

Lemma slice_length_lt (s : string) (i loc : nat) :
  loc < String.length s -> String.length (Py.slice s i loc) < String.length s.
Proof.
  intros H. unfold Py.slice.
  pose proof (substring_length_le_count s i (loc - i)). lia.
Qed.

Lemma slice_length_le (s : string) (i j : nat) :
  String.length (Py.slice s i j) <= String.length s.
Proof.
  unfold Py.slice. pose proof (substring_length_le_rest s i (j - i)). lia.
Qed.

Lemma slice_from_length_le (s : string) (i : nat) :
  String.length (Py.slice_from s i) <= String.length s - i.
Proof.
  unfold Py.slice_from. apply substring_length_le_rest.
Qed.

Lemma interior_length (s : string) :
  String.length (Py.interior s) <= String.length s - 2.
Proof.
  unfold Py.interior. apply substring_length_le_count.
Qed.

Lemma enclosed_in_length (a b : ascii) (s : string) :
  enclosed_in a b s = true -> 2 <= String.length s.
Proof.
  unfold enclosed_in. intros H.
  apply andb_prop in H as [H _]. apply andb_prop in H as [H _].
  now apply Nat.leb_le in H.
Qed.

(** ** The pieces of [smart_split] are shorter than its input *)

Lemma smart_split_loop_pieces (expression seperator : string)
    (delimiters : list (string * string)) :
  forall rest loc i stack,
    Forall (fun p => String.length p <= String.length expression)
      (smart_split_loop expression seperator delimiters rest loc i stack).
Proof.
  induction rest as [| c rest IH]; intros loc i stack; simpl.
  - constructor; [| constructor].
    pose proof (slice_from_length_le expression i). lia.
  - destruct (smart_split_action seperator delimiters stack (Py.chr c)); simpl;
      try apply IH.
    constructor; [apply slice_length_le | apply IH].
Qed.

Lemma smart_split_pieces (expression seperator : string)
    (delimiters : list (string * string)) :
  Forall (fun p => String.length p <= String.length expression)
    (smart_split expression seperator delimiters).
Proof. apply smart_split_loop_pieces. Qed.

Lemma smart_split_loop_first (expression seperator : string)
    (delimiters : list (string * string)) :
  forall rest loc i stack p q l,
    loc + String.length rest = String.length expression ->
    smart_split_loop expression seperator delimiters rest loc i stack = p :: q :: l ->
    String.length p < String.length expression.
Proof.
  induction rest as [| c rest IH]; intros loc i stack p q l Hloc; simpl.
  - discriminate.
  - simpl in Hloc.
    destruct (smart_split_action seperator delimiters stack (Py.chr c)); simpl;
      try (apply IH; lia).
    intros H. injection H as <- _. apply slice_length_lt. lia.
Qed.

Lemma smart_split_first (expression seperator : string)
    (delimiters : list (string * string)) (p q : string) (l : list string) :
  smart_split expression seperator delimiters = p :: q :: l ->
  String.length p < String.length expression.
Proof.
  apply smart_split_loop_first. reflexivity.
Qed.

(** ** The recursion of the parser is bounded by the length of its input *)

Lemma map_result_ext {A B : Type} (f g : A -> result B) (xs : list A) :
  (forall x, In x xs -> f x = g x) -> map_result f xs = map_result g xs.
Proof.
  induction xs as [| x xs IH]; intros H; simpl; [reflexivity |].
  rewrite (H x (or_introl eq_refl)), IH; [reflexivity |].
  intros y Hy. apply H. now right.
Qed.

Lemma remove_whitespaces_length (s e : string) :
  remove_whitespaces_on_boundaries s = Ok e ->
  String.length e <= String.length s.
Proof.
  unfold remove_whitespaces_on_boundaries.
  destruct (for_break _ _ _) as [i |]; [| discriminate].
  destruct (for_break _ _ _) as [j |]; [| discriminate].
  intros H. injection H as <-. apply slice_length_le.
Qed.

Lemma first_some_length (s : string) (c : ascii) :
  Py.first s = Some c -> 1 <= String.length s.
Proof. destruct s; simpl; [discriminate | lia]. Qed.

Section ParserCongruence.

Variables parse1 parse2 : string -> result Expression.
Variable expression : string.
Hypothesis agree :
  forall s, String.length s < String.length expression -> parse1 s = parse2 s.

Lemma ArrayExpression_try_parse_ext :
  ArrayExpression_try_parse parse1 expression
  = ArrayExpression_try_parse parse2 expression.
Proof.
  unfold ArrayExpression_try_parse.
  destruct (enclosed_in "[" "]" expression) eqn:Henc; simpl; [| reflexivity].
  apply enclosed_in_length in Henc.
  rewrite (map_result_ext parse1 parse2); [reflexivity |].
  intros part Hin. apply agree.
  pose proof (smart_split_pieces (Py.interior expression) "," common_delimiters) as Hall.
  rewrite Forall_forall in Hall. specialize (Hall part Hin).
  pose proof (interior_length expression). lia.
Qed.

Lemma split_part_ext (part : string) :
  String.length part < String.length expression ->
  split_part parse1 part = split_part parse2 part.
Proof.
  intros Hlen. unfold split_part.
  destruct (Py.find ":" part) as [seperator |]; [| reflexivity].
  rewrite agree; [reflexivity |].
  pose proof (slice_from_length_le part (seperator + 1)). lia.
Qed.

Lemma DictExpression_try_parse_ext :
  DictExpression_try_parse parse1 expression
  = DictExpression_try_parse parse2 expression.
Proof.
  unfold DictExpression_try_parse, dict_items.
  destruct (enclosed_in "{" "}" expression) eqn:Henc; simpl; [| reflexivity].
  apply enclosed_in_length in Henc.
  rewrite (map_result_ext (split_part parse1) (split_part parse2)); [reflexivity |].
  intros part Hin. apply split_part_ext.
  pose proof (smart_split_pieces (Py.interior expression) "," common_delimiters) as Hall.
  rewrite Forall_forall in Hall. specialize (Hall part Hin).
  pose proof (interior_length expression). lia.
Qed.

Lemma PropertyExpression_try_parse_ext :
  PropertyExpression_try_parse parse1 expression
  = PropertyExpression_try_parse parse2 expression.
Proof.
  unfold PropertyExpression_try_parse.
  destruct (smart_split expression "." common_delimiters) as [| p [| q l]] eqn:Hs;
    try reflexivity.
  rewrite agree; [reflexivity |].
  exact (smart_split_first _ _ _ _ _ _ Hs).
Qed.

Lemma parse_variants_ext :
  parse_variants parse1 expression = parse_variants parse2 expression.
Proof.
  unfold parse_variants, parse_after_dict.
  now rewrite ArrayExpression_try_parse_ext, DictExpression_try_parse_ext,
    PropertyExpression_try_parse_ext.
Qed.

End ParserCongruence.

Lemma parse_expression_body_ext (parse1 parse2 : string -> result Expression)
    (expression : string) :
  (forall s, String.length s < String.length expression -> parse1 s = parse2 s) ->
  parse_expression_body parse1 expression = parse_expression_body parse2 expression.
Proof.
  intros agree. unfold parse_expression_body.
  destruct (remove_whitespaces_on_boundaries expression) as [e | |] eqn:Htrim;
    simpl; try reflexivity.
  apply remove_whitespaces_length in Htrim.
  destruct (Py.first e) as [c0 |] eqn:Hfirst; [| reflexivity].
  apply first_some_length in Hfirst.
  destruct (Ascii.eqb c0 "(" && Py.char_is (Py.last e) ")").
  - apply agree. pose proof (interior_length e). lia.
  - apply parse_variants_ext. intros s Hs. apply agree. lia.
Qed.

Lemma parse_expression_fuel_stable :
  forall fuel fuel' expression,
    String.length expression < fuel ->
    String.length expression < fuel' ->
    parse_expression_fuel fuel expression = parse_expression_fuel fuel' expression.
Proof.
  induction fuel as [| fuel IH]; intros [| fuel'] expression H1 H2; try lia.
  simpl. apply parse_expression_body_ext.
  intros s Hs. apply IH; lia.
Qed.

(** The defining equation of [parse_expression], free of fuel. *)
Lemma parse_expression_unfold (expression : string) :
  parse_expression expression = parse_expression_body parse_expression expression.
Proof.
  unfold parse_expression at 1. simpl.
  apply parse_expression_body_ext.
  intros s Hs. unfold parse_expression.
  apply parse_expression_fuel_stable; lia.
Qed.

(** ** [parse_expression] always comes back *)

Lemma bind_terminates {A B : Type} (m : result A) (k : A -> result B) :
  terminates m -> (forall a, m = Ok a -> terminates (k a)) ->
  terminates (bind m k).
Proof.
  unfold terminates. destruct m as [a | e |]; simpl; intros Hm Hk.
  - now apply Hk.
  - discriminate.
  - contradiction.
Qed.

Lemma map_result_terminates {A B : Type} (f : A -> result B) (xs : list A) :
  (forall x, In x xs -> terminates (f x)) -> terminates (map_result f xs).
Proof.
  induction xs as [| x xs IH]; intros H; simpl; [discriminate |].
  apply bind_terminates; [apply H; now left |].
  intros y _. apply bind_terminates; [| discriminate].
  apply IH. intros z Hz. apply H. now right.
Qed.

Lemma or_else_terminates (attempt : option Expression) (otherwise : result Expression) :
  terminates otherwise -> terminates (or_else attempt otherwise).
Proof. destruct attempt; simpl; [discriminate | trivial]. Qed.

Lemma or_else_try_terminates (attempt : result (option Expression))
    (otherwise : result Expression) :
  terminates attempt -> terminates otherwise ->
  terminates (or_else_try attempt otherwise).
Proof.
  intros Ha Ho. apply bind_terminates; [exact Ha |].
  intros exp _. now apply or_else_terminates.
Qed.

Lemma IntExpression_try_parse_terminates (expression : string) :
  terminates (IntExpression.try_parse expression).
Proof.
  unfold IntExpression.try_parse, py_int.
  destruct (Py.isnumeric expression); [| discriminate].
  destruct (_ <=? _)%nat; discriminate.
Qed.

Section ParserTermination.

Variable parse : string -> result Expression.
Variable expression : string.
Hypothesis shorter :
  forall s, String.length s < String.length expression -> terminates (parse s).

Lemma ArrayExpression_try_parse_terminates :
  terminates (ArrayExpression_try_parse parse expression).
Proof.
  unfold ArrayExpression_try_parse.
  destruct (enclosed_in "[" "]" expression) eqn:Henc; simpl; [| discriminate].
  apply enclosed_in_length in Henc.
  apply bind_terminates; [| discriminate].
  apply map_result_terminates. intros part Hin. apply shorter.
  pose proof (smart_split_pieces (Py.interior expression) "," common_delimiters) as Hall.
  rewrite Forall_forall in Hall. specialize (Hall part Hin).
  pose proof (interior_length expression). lia.
Qed.

Lemma DictExpression_try_parse_terminates :
  terminates (DictExpression_try_parse parse expression).
Proof.
  unfold DictExpression_try_parse.
  destruct (enclosed_in "{" "}" expression) eqn:Henc; simpl; [| discriminate].
  apply enclosed_in_length in Henc.
  assert (Hitems : terminates (dict_items parse (Py.interior expression))).
  { unfold dict_items. apply bind_terminates; [| discriminate].
    apply map_result_terminates. intros part Hin. unfold split_part.
    destruct (Py.find ":" part) as [seperator |]; [| discriminate].
    apply bind_terminates; [| discriminate].
    apply shorter.
    pose proof (smart_split_pieces (Py.interior expression) "," common_delimiters) as Hall.
    rewrite Forall_forall in Hall. specialize (Hall part Hin).
    pose proof (interior_length expression).
    pose proof (slice_from_length_le part (seperator + 1)). lia. }
  destruct (dict_items parse (Py.interior expression)); try discriminate.
  now elim Hitems.
Qed.

Lemma PropertyExpression_try_parse_terminates :
  terminates (PropertyExpression_try_parse parse expression).
Proof.
  unfold PropertyExpression_try_parse.
  destruct (smart_split expression "." common_delimiters) as [| p [| q l]] eqn:Hs;
    try discriminate.
  apply bind_terminates.
  - apply shorter. exact (smart_split_first _ _ _ _ _ _ Hs).
  - intros root _.
    destruct (negb _); [discriminate |].
    destruct (is_SettableExpression root); discriminate.
Qed.

Lemma parse_variants_terminates : terminates (parse_variants parse expression).
Proof.
  unfold parse_variants, parse_after_dict.
  repeat first
    [ apply IntExpression_try_parse_terminates
    | apply or_else_terminates
    | apply or_else_try_terminates
    | apply ArrayExpression_try_parse_terminates
    | apply DictExpression_try_parse_terminates
    | apply PropertyExpression_try_parse_terminates ].
  discriminate.
Qed.

End ParserTermination.

Lemma parse_expression_body_terminates (parse : string -> result Expression)
    (expression : string) :
  (forall s, String.length s < String.length expression -> terminates (parse s)) ->
  terminates (parse_expression_body parse expression).
Proof.
  intros shorter. unfold parse_expression_body.
  destruct (remove_whitespaces_on_boundaries expression) as [e | |] eqn:Htrim;
    simpl; try discriminate.
  - apply remove_whitespaces_length in Htrim.
    destruct (Py.first e) as [c0 |] eqn:Hfirst; [| discriminate].
    apply first_some_length in Hfirst.
    destruct (Ascii.eqb c0 "(" && Py.char_is (Py.last e) ")").
    + apply shorter. pose proof (interior_length e). lia.
    + apply parse_variants_terminates. intros s Hs. apply shorter. lia.
  - unfold remove_whitespaces_on_boundaries in Htrim.
    destruct (for_break _ _ _); [| discriminate].
    destruct (for_break _ _ _); discriminate.
Qed.

Lemma parse_expression_fuel_terminates :
  forall fuel expression,
    String.length expression < fuel ->
    terminates (parse_expression_fuel fuel expression).
Proof.
  induction fuel as [| fuel IH]; intros expression H; [lia |].
  simpl. apply parse_expression_body_terminates.
  intros s Hs. apply IH. lia.
Qed.

(** [parse_expression] is a total function: a node or an exception. *)
Lemma parse_expression_terminates (expression : string) :
  terminates (parse_expression expression).
Proof.
  apply parse_expression_fuel_terminates. lia.
Qed.

(** ** The empty string *)

Lemma for_break_bound (stop : nat -> bool) (indices : list nat) (b : nat) :
  for_break indices stop (Some b) <> None.
Proof.
  revert b. induction indices as [| k rest IH]; intros b; simpl.
  - discriminate.
  - destruct (stop k); [discriminate | apply IH].
Qed.

Lemma for_break_nonempty (stop : nat -> bool) (indices : list nat) :
  indices <> [] -> for_break indices stop None <> None.
Proof.
  destruct indices as [| k rest]; [congruence |]. intros _. simpl.
  destruct (stop k); [discriminate | apply for_break_bound].
Qed.

Lemma for_break_range (stop : nat -> bool) (indices : list nat)
    (b : option nat) (k lo hi : nat) :
  Forall (fun x => lo <= x < hi) indices ->
  (forall x, b = Some x -> lo <= x < hi) ->
  for_break indices stop b = Some k -> lo <= k < hi.
Proof.
  revert b. induction indices as [| x rest IH]; intros b Hall Hb; simpl.
  - intros ->. now apply Hb.
  - inversion Hall as [| ? ? Hx Hrest]; subst.
    destruct (stop x).
    + intros H; injection H as <-. exact Hx.
    + apply IH; [exact Hrest |]. intros y Hy. injection Hy as <-. exact Hx.
Qed.

Lemma remove_whitespaces_empty_iff (s : string) :
  remove_whitespaces_on_boundaries s = Raise UnboundLocalError <-> s = EmptyString.
Proof.
  split; [| intros ->; reflexivity].
  destruct s as [| c s]; [reflexivity |].
  unfold remove_whitespaces_on_boundaries.
  destruct (for_break (seq 0 _) _ None) as [i |] eqn:Hi.
  - assert (Hr : 0 <= i < String.length (String c s)).
    { eapply for_break_range; [| | exact Hi].
      - apply Forall_forall. intros x Hx. apply in_seq in Hx. lia.
      - discriminate. }
    destruct (for_break (rev _) _ None) as [j |] eqn:Hj; [discriminate |].
    exfalso. revert Hj. apply for_break_nonempty.
    intros Hnil. apply (f_equal (@List.length nat)) in Hnil.
    rewrite length_rev, length_seq in Hnil. cbn [List.length] in Hnil. lia.
  - exfalso. revert Hi. apply for_break_nonempty. discriminate.
Qed.

(** C10: [parse_expression] fails on the empty string, and so on the text
    "[]" whose empty interior [ArrayExpression.try_parse] hands back to it:
    [remove_whitespaces_on_boundaries] reads its loop variable [i] before any
    iteration has bound it.  The failure is an UnboundLocalError, not the
    TemplateSyntaxError of an unparseable text. *)
Theorem parse_expression_empty_string :
  remove_whitespaces_on_boundaries EmptyString = Raise UnboundLocalError
  /\ parse_expression EmptyString = Raise UnboundLocalError
  /\ smart_split (Py.interior "[]") "," common_delimiters = [EmptyString]
  /\ ArrayExpression_try_parse parse_expression "[]" = Raise UnboundLocalError
  /\ parse_expression "[]" = Raise UnboundLocalError
  /\ (forall e, parse_expression EmptyString <> Raise (TemplateSyntaxError e))
  /\ (forall e, parse_expression "[]" <> Raise (TemplateSyntaxError e)).
Proof.
  repeat split; try reflexivity; intros e; vm_compute; discriminate.
Qed.

(** ** Trimming a text that has no whitespace at its ends *)

Lemma last_cons_length (c : ascii) (s : string) :
  Py.last (String c s) = String.get (String.length s) (String c s).
Proof. reflexivity. Qed.

Lemma remove_whitespaces_fixed (s : string) (c0 c1 : ascii) :
  Py.first s = Some c0 -> Py.last s = Some c1 ->
  is_boundary_whitespace c0 = false -> is_boundary_whitespace c1 = false ->
  remove_whitespaces_on_boundaries s = Ok s.
Proof.
  intros H0 H1 W0 W1.
  destruct s as [| c s]; [discriminate |].
  unfold remove_whitespaces_on_boundaries.
  assert (Hstart : not_whitespace_at (String c s) 0 = true).
  { unfold not_whitespace_at. unfold Py.first in H0. rewrite H0, W0. reflexivity. }
  assert (Hend : not_whitespace_at (String c s) (String.length s) = true).
  { unfold not_whitespace_at. rewrite last_cons_length in H1. rewrite H1, W1. reflexivity. }
  cbn [String.length seq for_break]. rewrite Hstart.
  rewrite Nat.sub_0_r, seq_S, rev_app_distr. cbn [rev app for_break Nat.add].
  rewrite Hend. unfold Py.slice.
  replace (String.length s + 1 - 0) with (String.length (String c s))
    by (cbn [String.length]; lia).
  now rewrite substring_whole.
Qed.

(** ** String literals *)

Lemma StringExpression_try_parse_spec (expression : string) (e : Expression) :
  StringExpression.try_parse expression = Some e <->
  2 <= String.length expression
  /\ Py.first expression = Some "'"%char
  /\ Py.last expression = Some "'"%char
  /\ e = StringExpression (Py.interior expression).
Proof.
  unfold StringExpression.try_parse.
  destruct (Py.first expression) as [c0 |], (Py.last expression) as [c1 |];
    try (split; [discriminate | intros (_ & H & H' & _); discriminate]).
  rewrite orb_diag.
  destruct (2 <=? String.length expression)%nat eqn:Hlen; cbn [andb].
  - apply Nat.leb_le in Hlen.
    destruct (Ascii.eqb c0 c1) eqn:H01; cbn [andb].
    + apply Ascii.eqb_eq in H01. subst c1.
      destruct (Ascii.eqb c0 "'") eqn:Hq.
      * apply Ascii.eqb_eq in Hq. subst c0.
        split; [intros H; injection H as <-; auto | intros (_ & _ & _ & ->); reflexivity].
      * apply Ascii.eqb_neq in Hq.
        split; [discriminate | intros (_ & H & _); congruence].
    + apply Ascii.eqb_neq in H01.
      split; [discriminate | intros (_ & H & H' & _); congruence].
  - apply Nat.leb_gt in Hlen. split; [discriminate | intros (H & _); lia].
Qed.

Lemma double_quote_is_no_quote (body : string) :
  StringExpression.try_parse (String Py.dquote (body ++ String Py.dquote EmptyString)) = None.
Proof.
  unfold StringExpression.try_parse. cbn [Py.first String.get].
  destruct (Py.last _); [| reflexivity].
  replace (Ascii.eqb Py.dquote "'") with false by reflexivity.
  cbn [orb]. now rewrite andb_false_r.
Qed.

(** C6: [StringExpression.try_parse] tests its first character against the
    single quote twice, so a text in double quotes is no String: on the
    literal "abc" in double quotes the parser finds no variant at all, where
    the same text in single quotes is the String [abc]. *)
Theorem StringExpression_try_parse_double_quoted :
  (forall body,
     StringExpression.try_parse
       (String Py.dquote (body ++ String Py.dquote EmptyString)) = None)
  /\ parse_expression (String Py.dquote ("abc" ++ String Py.dquote EmptyString))
     = Raise (TemplateSyntaxError
                (CantParse (String Py.dquote ("abc" ++ String Py.dquote EmptyString))))
  /\ StringExpression.try_parse "'abc'" = Some (StringExpression "abc").
Proof.
  split; [exact double_quote_is_no_quote | split; reflexivity].
Qed.

(** ** Evaluation of property paths *)

Lemma PropertyExpression_eval_initial_None (fuel : nat)
    (react_context : option ReactContext) (root_expression : Expression)
    (key_path : list string) (root_val walked : ReactValType) :
  eval_initial fuel react_context root_expression = Ok root_val ->
  PropertyExpression.walk
    (Expression_str (PropertyExpression root_expression key_path))
    root_val key_path = Ok walked ->
  eval_initial (S fuel) react_context (PropertyExpression root_expression key_path)
  = Ok VNone.
Proof.
  intros Hroot Hwalk. cbn [eval_initial].
  rewrite Hroot. cbn [bind]. rewrite Hwalk. reflexivity.
Qed.

(** C1: on the Property expression [({a: 1}).a] the root evaluates to a dict
    that holds the key, the walk through the key path ends at [1], and
    [PropertyExpression.eval_initial] returns None: the method has no return
    statement after its loop. *)
Theorem PropertyExpression_eval_initial_loses_value :
  forall fuel,
    let root := DictExpression [("a", IntExpression 1)] in
    let e := PropertyExpression root ["a"] in
    eval_initial (2 + fuel) None root = Ok (VDict [("a", VInt 1)])
    /\ PropertyExpression.walk (Expression_str e) (VDict [("a", VInt 1)]) ["a"]
       = Ok (VInt 1)
    /\ eval_initial (3 + fuel) None e = Ok VNone.
Proof.
  intros fuel root e.
  assert (Hroot : eval_initial (2 + fuel) None root = Ok (VDict [("a", VInt 1)]))
    by reflexivity.
  assert (Hwalk : PropertyExpression.walk (Expression_str e)
                    (VDict [("a", VInt 1)]) ["a"] = Ok (VInt 1))
    by reflexivity.
  split; [exact Hroot | split; [exact Hwalk |]].
  exact (PropertyExpression_eval_initial_None _ _ _ _ _ _ Hroot Hwalk).
Qed.

(** ** The length function *)

Lemma LengthFunction_eval_initial_len (fuel : nat)
    (reactive_context : option ReactContext) (array : Expression)
    (v : ReactValType) :
  eval_initial fuel reactive_context array = Ok v ->
  LengthFunction.eval_initial fuel reactive_context [array] = py_len v.
Proof.
  intros H. unfold LengthFunction.eval_initial. cbn. now rewrite H.
Qed.

Lemma LengthFunction_eval_js_TypeError (fuel : nat)
    (reactive_context : option ReactContext) (delimiter : string)
    (array : Expression) :
  LengthFunction.eval_js fuel reactive_context delimiter [array] = Raise TypeError.
Proof. reflexivity. Qed.

(** C7: the function registered as [len] is the length function.  With one
    argument its [eval_initial] is the length of the argument's value ([3] for
    the array [[1,2,3]]), but its [eval_js] never returns: it calls the
    argument's [eval_js_and_hooks] with the context and the delimiter, one
    positional argument more than any [Expression] class accepts, which is a
    TypeError, where [(<arg-js>).length] was to be built from the argument's
    code [[1,2,3]]. *)
Theorem LengthFunction_eval_js_extra_argument :
  PyDict.get functions "len" = Some LengthFunction
  /\ (forall fuel reactive_context delimiter array,
        ReactiveFunction_eval_js LengthFunction fuel reactive_context delimiter [array]
        = Raise TypeError)
  /\ (forall fuel,
        let array := ArrayExpression [IntExpression 1; IntExpression 2; IntExpression 3] in
        ReactiveFunction_eval_initial LengthFunction (2 + fuel) None [array]
        = Ok (VInt 3)
        /\ eval_js_and_hooks (2 + fuel) None array = Ok ("[1,2,3]", [])).
Proof.
  split; [reflexivity | split].
  - intros. apply LengthFunction_eval_js_TypeError.
  - intros fuel array. split; reflexivity.
Qed.

(** ** Variables *)

(** C8: with a reactive context at hand, a Variable whose name is not a
    reactive variable evaluates to the empty string and generates the code of
    the empty string literal with no hook, without raising; a Variable whose
    name resolves generates the variable's [js_get] code with that variable as
    its only hook. *)
Theorem VariableExpression_resolution (ctx : ReactContext) (var_name : string)
    (fuel : nat) :
  (search_var ctx var_name = None ->
   eval_initial (1 + fuel) (Some ctx) (VariableExpression var_name)
   = Ok (VStr EmptyString)
   /\ eval_js_and_hooks (2 + fuel) (Some ctx) (VariableExpression var_name)
      = Ok ("''", [])
   /\ eval_js_and_hooks (2 + fuel) (Some ctx) (VariableExpression var_name)
      = eval_js_and_hooks (1 + fuel) (Some ctx) (StringExpression EmptyString))
  /\ (forall var,
        search_var ctx var_name = Some var ->
        eval_js_and_hooks (1 + fuel) (Some ctx) (VariableExpression var_name)
        = Ok (var_js_get var, [var])).
Proof.
  split.
  - intros Hnone. cbn. rewrite Hnone. auto.
  - intros var Hsome. cbn. rewrite Hsome. reflexivity.
Qed.

Lemma VariableExpression_resolution_witness :
  let x := mkReactVar (IntExpression 7) "x.get()" (fun code => "x.set(" ++ code ++ ")")
             "x.notify()" in
  let ctx := mkReactContext (fun name => if String.eqb name "x" then Some x else None) in
  (eval_initial 1 (Some ctx) (VariableExpression "y") = Ok (VStr EmptyString)
   /\ eval_js_and_hooks 2 (Some ctx) (VariableExpression "y") = Ok ("''", [])
   /\ eval_js_and_hooks 2 (Some ctx) (VariableExpression "y")
      = eval_js_and_hooks 1 (Some ctx) (StringExpression EmptyString))
  /\ eval_js_and_hooks 1 (Some ctx) (VariableExpression "x") = Ok ("x.get()", [x]).
Proof.
  intros x ctx. split.
  - apply (proj1 (VariableExpression_resolution ctx "y" 0)). reflexivity.
  - apply (proj2 (VariableExpression_resolution ctx "x" 0) x). reflexivity.
Defined.

(** ** The tokenizer with a non-empty stack *)

Lemma smart_split_action_nonempty (seperator : string)
    (delimiters : list (string * string)) (below : list string)
    (top char : string) :
  smart_split_action seperator delimiters (below ++ [top])%list char
  = if String.eqb char top then Pop else open_action char delimiters.
Proof.
  unfold smart_split_action.
  destruct (below ++ [top])%list as [| x l] eqn:Hstack.
  - now destruct below.
  - rewrite <- Hstack, last_last. reflexivity.
Qed.

Lemma open_action_cases (char : string) (delimiters : list (string * string)) :
  open_action char delimiters = Skip
  \/ exists e, match_and_return_second char delimiters = Some e
               /\ e <> EmptyString /\ open_action char delimiters = Push e.
Proof.
  unfold open_action.
  destruct (match_and_return_second char delimiters) as [[| c e] |]; auto.
  right. exists (String c e). split; [reflexivity | split; [discriminate | reflexivity]].
Qed.

(** C2, as the code has it: while the stack of expected closing characters is
    non-empty, a character equal to its top pops it; any other character never
    splits, the separator included, but a character that opens a known
    delimiter has its closing character pushed on the stack. *)
Theorem smart_split_nonempty_stack (seperator : string)
    (delimiters : list (string * string)) (below : list string)
    (top char : string) :
  let stack := (below ++ [top])%list in
  let a := smart_split_action seperator delimiters stack char in
  (char = top -> a = Pop /\ apply_action a stack = below)
  /\ (char <> top -> a = open_action char delimiters /\ a <> Yield /\ a <> Pop)
  /\ (char <> top ->
      forall e, match_and_return_second char delimiters = Some e ->
                e <> EmptyString ->
                a = Push e /\ apply_action a stack = (below ++ [top; e])%list)
  /\ (forall expression c rest loc i,
        char = Py.chr c ->
        smart_split_loop expression seperator delimiters (String c rest) loc i stack
        = smart_split_loop expression seperator delimiters rest (S loc) i
            (apply_action a stack)).
Proof.
  intros stack a. subst stack a.
  rewrite smart_split_action_nonempty.
  split; [| split; [| split]].
  - intros ->. rewrite String.eqb_refl. cbn [apply_action].
    now rewrite removelast_last.
  - intros Hne. apply String.eqb_neq in Hne. rewrite Hne.
    split; [reflexivity |].
    destruct (open_action_cases char delimiters) as [-> | (e & _ & _ & ->)];
      split; discriminate.
  - intros Hne e Hsecond He. apply String.eqb_neq in Hne. rewrite Hne.
    unfold open_action. rewrite Hsecond.
    destruct e as [| c e]; [congruence |].
    split; [reflexivity |]. cbn [apply_action].
    now rewrite <- app_assoc.
  - intros expression c rest loc i ->. cbn [smart_split_loop].
    rewrite smart_split_action_nonempty.
    destruct (String.eqb (Py.chr c) top); [reflexivity |].
    destruct (open_action_cases (Py.chr c) delimiters) as [-> | (e & _ & _ & ->)];
      reflexivity.
Qed.

Lemma smart_split_nonempty_stack_witness :
  smart_split_action "," common_delimiters [")"] "[" = Push "]"
  /\ apply_action (smart_split_action "," common_delimiters [")"] "[") [")"]
     = [")"; "]"].
Proof.
  apply (proj1 (proj2 (proj2 (smart_split_nonempty_stack "," common_delimiters [] ")" "["))));
    [discriminate | reflexivity | discriminate].
Defined.

(** The statement of C2 fails: with [)] awaited, the opener [[] is pushed. *)
Lemma smart_split_pushes_inner_opener :
  ~ only_compares_with_top "," common_delimiters
  /\ smart_split_action "," common_delimiters [")"] "[" = Push "]"
  /\ stack_after "([" "," common_delimiters = [")"; "]"]
  /\ smart_split "([)],x" "," common_delimiters = ["([)],x"].
Proof.
  split; [| split; [| split]]; try reflexivity.
  intros H. specialize (H [")"] "[").
  cbn in H. discriminate H. discriminate.
Qed.

(** ** Grouping parentheses *)

(** C3, as the code has it: when the trimmed text starts with [(] and ends
    with [)], [parse_expression] drops these two characters and parses what
    is between them, whether or not the two match each other. *)
Theorem parse_expression_strips_outer_characters (expression trimmed : string) :
  remove_whitespaces_on_boundaries expression = Ok trimmed ->
  Py.first trimmed = Some "("%char ->
  Py.last trimmed = Some ")"%char ->
  parse_expression expression = parse_expression (Py.interior trimmed).
Proof.
  intros Htrim Hfirst Hlast.
  rewrite parse_expression_unfold. unfold parse_expression_body.
  rewrite Htrim. cbn [bind]. rewrite Hfirst, Hlast. reflexivity.
Qed.

Lemma parse_expression_strips_outer_characters_witness :
  remove_whitespaces_on_boundaries " (a)(b) " = Ok "(a)(b)"
  /\ parse_expression " (a)(b) " = parse_expression "a)(b".
Proof.
  split; [reflexivity |].
  apply (parse_expression_strips_outer_characters " (a)(b) " "(a)(b)");
    reflexivity.
Defined.

(** The statement of C3 fails on its own example: the first [(] of [(a)(b)]
    is closed by the first [)], yet the text is unwrapped and the error names
    [a)(b]; and [(')(')] is unwrapped into a String literal. *)
Lemma parse_expression_unwraps_unmatched :
  wrapped_in_single_pair "(a)(b)" = false
  /\ parse_variants parse_expression "(a)(b)"
     = Raise (TemplateSyntaxError (CantParse "(a)(b)"))
  /\ parse_expression "(a)(b)" = Raise (TemplateSyntaxError (CantParse "a)(b"))
  /\ parse_expression "(a)(b)" <> parse_variants parse_expression "(a)(b)"
  /\ wrapped_in_single_pair "(')(')" = false
  /\ parse_expression "(')(')" = Ok (StringExpression ")(").
Proof.
  split; [reflexivity |]. split; [reflexivity |]. split; [reflexivity |].
  split; [vm_compute; discriminate |]. split; reflexivity.
Qed.

(** ** Property paths whose root does not parse *)

Lemma PropertyExpression_try_parse_root_raises
    (parse : string -> result Expression) (expression part0 key : string)
    (keys : list string) (err : exn) :
  smart_split expression "." common_delimiters = part0 :: key :: keys ->
  parse part0 = Raise err ->
  PropertyExpression_try_parse parse expression = Raise err.
Proof.
  intros Hsplit Hroot. unfold PropertyExpression_try_parse.
  rewrite Hsplit, Hroot. reflexivity.
Qed.

(** C4: on [1x.y] the text splits into the two segments [1x] and [y]; the
    first is no expression, and the TemplateSyntaxError of that attempt, which
    names [1x], leaves [PropertyExpression.try_parse] and [parse_expression]:
    the attempt does not end in "no match", and no error names the full text. *)
Theorem PropertyExpression_try_parse_root_error_escapes :
  smart_split "1x.y" "." common_delimiters = ["1x"; "y"]
  /\ parse_expression "1x" = Raise (TemplateSyntaxError (CantParse "1x"))
  /\ PropertyExpression_try_parse parse_expression "1x.y"
     = Raise (TemplateSyntaxError (CantParse "1x"))
  /\ PropertyExpression_try_parse parse_expression "1x.y" <> Ok None
  /\ parse_expression "1x.y" = Raise (TemplateSyntaxError (CantParse "1x"))
  /\ parse_expression "1x.y" <> Raise (TemplateSyntaxError (CantParse "1x.y")).
Proof.
  assert (Hsplit : smart_split "1x.y" "." common_delimiters = ["1x"; "y"])
    by reflexivity.
  assert (Hroot : parse_expression "1x" = Raise (TemplateSyntaxError (CantParse "1x")))
    by reflexivity.
  pose proof (PropertyExpression_try_parse_root_raises _ _ _ _ _ _ Hsplit Hroot) as Hp.
  split; [exact Hsplit |]. split; [exact Hroot |]. split; [exact Hp |].
  split; [rewrite Hp; discriminate |].
  split; [reflexivity | vm_compute; discriminate].
Qed.

(** ** How the first character rules variants out *)

Lemma char_is_some (o : option ascii) (c : ascii) :
  Py.char_is o c = true -> o = Some c.
Proof.
  destruct o as [a |]; simpl; [| discriminate].
  intros H. apply Ascii.eqb_eq in H. now subst.
Qed.

Lemma enclosed_in_ends (opening closing : ascii) (expression : string) :
  enclosed_in opening closing expression = true ->
  Py.first expression = Some opening /\ Py.last expression = Some closing.
Proof.
  unfold enclosed_in. intros H.
  apply andb_prop in H as [H Hlast]. apply andb_prop in H as [_ Hfirst].
  split; now apply char_is_some.
Qed.

Lemma enclosed_in_other_first (opening closing c : ascii) (expression : string) :
  Py.first expression = Some c -> c <> opening ->
  enclosed_in opening closing expression = false.
Proof.
  intros Hfirst Hne. unfold enclosed_in. rewrite Hfirst. cbn [Py.char_is].
  apply Ascii.eqb_neq in Hne. rewrite Hne.
  now rewrite andb_false_r.
Qed.

Lemma StringExpression_try_parse_other_first (c : ascii) (expression : string) :
  Py.first expression = Some c -> c <> "'"%char ->
  StringExpression.try_parse expression = None.
Proof.
  intros Hfirst Hne.
  destruct (StringExpression.try_parse expression) as [e |] eqn:H; [| reflexivity].
  apply StringExpression_try_parse_spec in H as (_ & H & _). congruence.
Qed.

Lemma IntExpression_try_parse_other_first (c : ascii) (expression : string) :
  Py.first expression = Some c -> Py.is_digit c = false ->
  IntExpression.try_parse expression = Ok None.
Proof.
  destruct expression as [| a rest]; [discriminate |].
  intros Hfirst Hd. injection Hfirst as ->.
  unfold IntExpression.try_parse, Py.isnumeric. cbn [Py.all_chars].
  now rewrite Hd.
Qed.

Lemma VariableExpression_try_parse_other_first (c : ascii) (expression : string) :
  Py.first expression = Some c -> Py.is_ident_start c = false ->
  VariableExpression.try_parse expression = None.
Proof.
  destruct expression as [| a rest]; [discriminate |].
  intros Hfirst Hd. injection Hfirst as ->.
  unfold VariableExpression.try_parse, Py.isidentifier.
  now rewrite Hd.
Qed.

(** ** Dict texts that do not parse *)

Lemma brace_text_reaches_dict (parse : string -> result Expression)
    (expression : string) :
  Py.first expression = Some "{"%char ->
  parse_variants parse expression
  = or_else_try (DictExpression_try_parse parse expression)
      (parse_after_dict parse expression).
Proof.
  intros Hfirst. unfold parse_variants.
  rewrite (StringExpression_try_parse_other_first "{"),
    (IntExpression_try_parse_other_first "{"); try easy.
  unfold ArrayExpression_try_parse.
  rewrite (enclosed_in_other_first "[" "]" "{"); try easy.
  destruct expression as [| a rest]; [discriminate |].
  injection Hfirst as ->. reflexivity.
Qed.

Example DictExpression_unparseable_value :
  dict_items parse_expression (Py.interior "{a:!}")
  = Raise (TemplateSyntaxError (CantParse "!"))
  /\ DictExpression_try_parse parse_expression "{a:!}" = Ok None
  /\ parse_expression "{a:!}" = Raise (TemplateSyntaxError (CantParse "{a:!}"))
  /\ dict_items parse_expression (Py.interior "{x:}") = Raise UnboundLocalError
  /\ parse_expression "{x:}" = Raise (TemplateSyntaxError (CantParse "{x:}")).
Proof. repeat (split; [reflexivity |]). reflexivity. Qed.

(** ** Dotted paths of identifiers *)

Lemma append_assoc (s t u : string) : (s ++ t) ++ u = s ++ t ++ u.
Proof. induction s as [| c s IH]; simpl; [reflexivity | now rewrite IH]. Qed.

Lemma length_append (s t : string) :
  String.length (s ++ t) = String.length s + String.length t.
Proof. induction s as [| c s IH]; simpl; [reflexivity | now rewrite IH]. Qed.

Lemma substring_skip (pre s : string) (n : nat) :
  substring (String.length pre) n (pre ++ s) = substring 0 n s.
Proof. induction pre as [| c pre IH]; simpl; [reflexivity | exact IH]. Qed.

Lemma substring_prefix (s t : string) :
  substring 0 (String.length s) (s ++ t) = s.
Proof.
  induction s as [| c s IH]; simpl.
  - now destruct t.
  - now rewrite IH.
Qed.

Lemma all_chars_append (p : ascii -> bool) (s t : string) :
  Py.all_chars p (s ++ t) = Py.all_chars p s && Py.all_chars p t.
Proof.
  induction s as [| c s IH]; simpl; [reflexivity |].
  now rewrite IH, andb_assoc.
Qed.

Lemma all_chars_impl (p q : ascii -> bool) (s : string) :
  (forall c, p c = true -> q c = true) ->
  Py.all_chars p s = true -> Py.all_chars q s = true.
Proof.
  intros Hpq. induction s as [| c s IH]; simpl; [reflexivity |].
  intros H. apply andb_prop in H as [Hc Hs].
  now rewrite (Hpq c Hc), IH.
Qed.

Lemma all_chars_last (p : ascii -> bool) (s : string) :
  Py.all_chars p s = true -> s <> EmptyString ->
  exists c, Py.last s = Some c /\ p c = true.
Proof.
  destruct s as [| a s]; [congruence |]. intros H _.
  unfold Py.last. cbn [String.length].
  revert a H. induction s as [| b s IH]; intros a H.
  - exists a. cbn in *. now rewrite andb_true_r in H.
  - cbn [Py.all_chars] in H. apply andb_prop in H as [_ H].
    destruct (IH b H) as (c & Hc & Hp). exists c. split; [| exact Hp].
    cbn [String.length String.get]. exact Hc.
Qed.

Lemma isidentifier_chars (s : string) :
  Py.isidentifier s = true ->
  s <> EmptyString /\ Py.all_chars Py.is_ident_char s = true
  /\ exists c, Py.first s = Some c /\ Py.is_ident_start c = true.
Proof.
  destruct s as [| c s]; [discriminate |]. cbn [Py.isidentifier].
  intros H. apply andb_prop in H as [Hc Hs].
  split; [discriminate | split].
  - cbn [Py.all_chars]. unfold Py.is_ident_char at 1. now rewrite Hc, Hs.
  - exists c. now split.
Qed.

(** What the characters of a path are not. *)
Lemma path_char_plain (c : ascii) :
  path_char c = true ->
  is_boundary_whitespace c = false
  /\ c <> "("%char /\ c <> "'"%char /\ c <> "["%char /\ c <> "{"%char.
Proof.
  destruct c as [[] [] [] [] [] [] [] []]; cbv; intros H;
    repeat split; try discriminate; try reflexivity.
Qed.

Lemma ident_char_no_action (c : ascii) :
  Py.is_ident_char c = true ->
  smart_split_action "." common_delimiters [] (Py.chr c) = Skip.
Proof.
  destruct c as [[] [] [] [] [] [] [] []]; cbv; intros H;
    try discriminate; reflexivity.
Qed.

Lemma ident_start_no_digit (c : ascii) :
  Py.is_ident_start c = true -> Py.is_digit c = false.
Proof.
  destruct c as [[] [] [] [] [] [] [] []]; cbv; intros H;
    try discriminate; reflexivity.
Qed.

Lemma smart_split_loop_identifier (expression w : string) :
  Py.all_chars Py.is_ident_char w = true ->
  forall rest loc i,
    smart_split_loop expression "." common_delimiters (w ++ rest) loc i []
    = smart_split_loop expression "." common_delimiters rest
        (loc + String.length w) i [].
Proof.
  induction w as [| c w IH]; intros Hw rest loc i.
  - cbn. now rewrite Nat.add_0_r.
  - cbn [Py.all_chars] in Hw. apply andb_prop in Hw as [Hc Hw].
    cbn [append smart_split_loop]. rewrite (ident_char_no_action c Hc).
    cbn [apply_action]. rewrite (IH Hw). cbn [String.length].
    f_equal. lia.
Qed.

Lemma smart_split_loop_dotted (keys : list string) :
  forall (pre x : string),
    Py.all_chars Py.is_ident_char x = true ->
    forallb (Py.all_chars Py.is_ident_char) keys = true ->
    smart_split_loop (pre ++ Py.join "." (x :: keys)) "." common_delimiters
      (Py.join "." (x :: keys)) (String.length pre) (String.length pre) []
    = x :: keys.
Proof.
  induction keys as [| k ks IH]; intros pre x Hx Hkeys.
  - cbn [Py.join String.concat].
    replace x with (x ++ EmptyString) at 2
      by (clear; induction x as [| c x IH]; cbn; [reflexivity | now rewrite IH]).
    rewrite (smart_split_loop_identifier _ _ Hx). cbn [smart_split_loop].
    unfold Py.slice_from. rewrite length_append, substring_skip.
    replace (String.length pre + String.length x - String.length pre)
      with (String.length x) by lia.
    now rewrite substring_whole.
  - cbn [forallb] in Hkeys. apply andb_prop in Hkeys as [Hk Hks].
    change (Py.join "." (x :: k :: ks)) with (x ++ String "." (Py.join "." (k :: ks))).
    rewrite (smart_split_loop_identifier _ _ Hx). cbn [smart_split_loop].
    change (smart_split_action "." common_delimiters [] (Py.chr ".")) with Yield.
    cbn [apply_action]. f_equal.
    + unfold Py.slice. rewrite substring_skip.
      replace (String.length pre + String.length x - String.length pre)
        with (String.length x) by lia.
      apply substring_prefix.
    + specialize (IH (pre ++ x ++ ".") k Hk Hks).
      rewrite !append_assoc in IH. cbn [append] in IH.
      rewrite !length_append in IH. cbn [String.length] in IH.
      replace (S (String.length pre + String.length x))
        with (String.length pre + (String.length x + 1)) by lia.
      exact IH.
Qed.

Lemma smart_split_dotted (x : string) (keys : list string) :
  Py.isidentifier x = true ->
  forallb Py.isidentifier keys = true ->
  smart_split (Py.join "." (x :: keys)) "." common_delimiters = x :: keys.
Proof.
  intros Hx Hkeys. unfold smart_split.
  apply (smart_split_loop_dotted keys EmptyString x).
  - now apply isidentifier_chars.
  - rewrite forallb_forall in *. intros k Hk.
    now apply isidentifier_chars, Hkeys.
Qed.

Lemma all_chars_join (keys : list string) :
  forallb Py.isidentifier keys = true ->
  Py.all_chars path_char (Py.join "." keys) = true.
Proof.
  assert (Hident : forall k, Py.isidentifier k = true -> Py.all_chars path_char k = true).
  { intros k Hk. apply (all_chars_impl Py.is_ident_char).
    - intros c Hc. unfold path_char. now rewrite Hc.
    - now apply isidentifier_chars. }
  induction keys as [| k [| k' ks] IH]; intros H.
  - reflexivity.
  - cbn in *. rewrite andb_true_r in H. now apply Hident.
  - cbn [forallb] in H. apply andb_prop in H as [Hk Hks].
    change (Py.join "." (k :: k' :: ks)) with (k ++ String "." (Py.join "." (k' :: ks))).
    rewrite all_chars_append. cbn [Py.all_chars].
    rewrite (Hident k Hk), (IH Hks). reflexivity.
Qed.

Lemma dotted_not_identifier (x rest : string) :
  Py.all_chars Py.is_ident_char (x ++ String "." rest) = false.
Proof.
  rewrite all_chars_append. cbn [Py.all_chars].
  replace (Py.is_ident_char ".") with false by reflexivity.
  now rewrite andb_false_r.
Qed.

Lemma dotted_not_word (x rest w : string) :
  Py.all_chars Py.is_ident_char w = true ->
  String.eqb (x ++ String "." rest) w = false.
Proof.
  intros Hw. apply String.eqb_neq. intros Heq.
  rewrite <- Heq, dotted_not_identifier in Hw. discriminate.
Qed.

Section DottedPath.

Variables (x : string) (keys : list string).
Hypothesis x_identifier : Py.isidentifier x = true.
Hypothesis keys_identifiers : forallb Py.isidentifier keys = true.
Hypothesis keys_nonempty : keys <> [].

Lemma dotted_text_shape :
  exists rest, (dotted_path x keys) = x ++ String "." rest.
Proof.
  unfold dotted_path. destruct keys as [| k ks]; [congruence |].
  now exists (Py.join "." (k :: ks)).
Qed.

Lemma dotted_text_first :
  exists c0, Py.first (dotted_path x keys) = Some c0 /\ Py.is_ident_start c0 = true.
Proof.
  destruct (isidentifier_chars x x_identifier) as (_ & _ & c0 & Hc0 & Hs).
  exists c0. split; [| exact Hs].
  destruct dotted_text_shape as (rest & ->).
  destruct x as [| a x']; [discriminate |]. exact Hc0.
Qed.

Lemma dotted_text_last :
  exists c1, Py.last (dotted_path x keys) = Some c1 /\ path_char c1 = true.
Proof.
  apply all_chars_last.
  - apply (all_chars_join (x :: keys)). cbn [forallb].
    now rewrite x_identifier, keys_identifiers.
  - destruct dotted_text_shape as (rest & ->).
    destruct x; discriminate.
Qed.

Lemma dotted_text_trimmed :
  remove_whitespaces_on_boundaries (dotted_path x keys) = Ok (dotted_path x keys).
Proof.
  destruct dotted_text_first as (c0 & Hfirst & Hstart).
  destruct dotted_text_last as (c1 & Hlast & Hpath).
  apply (remove_whitespaces_fixed (dotted_path x keys) c0 c1 Hfirst Hlast).
  - apply path_char_plain. unfold path_char, Py.is_ident_char. now rewrite Hstart.
  - now apply path_char_plain.
Qed.

Lemma dotted_text_reaches_property (parse : string -> result Expression) :
  parse_variants parse (dotted_path x keys)
  = or_else_try (PropertyExpression_try_parse parse (dotted_path x keys))
      (Raise (TemplateSyntaxError (CantParse (dotted_path x keys)))).
Proof.
  destruct dotted_text_first as (c0 & Hfirst & Hstart).
  assert (Hplain : path_char c0 = true)
    by (unfold path_char, Py.is_ident_char; now rewrite Hstart).
  apply path_char_plain in Hplain as (_ & _ & Hquote & Hbracket & Hbrace).
  unfold parse_variants, parse_after_dict.
  rewrite (StringExpression_try_parse_other_first c0 (dotted_path x keys) Hfirst Hquote).
  rewrite (IntExpression_try_parse_other_first c0 (dotted_path x keys) Hfirst
             (ident_start_no_digit c0 Hstart)).
  unfold ArrayExpression_try_parse, DictExpression_try_parse.
  rewrite (enclosed_in_other_first "[" "]" c0 (dotted_path x keys) Hfirst Hbracket).
  rewrite (enclosed_in_other_first "{" "}" c0 (dotted_path x keys) Hfirst Hbrace).
  destruct dotted_text_shape as (rest & Hshape).
  unfold BoolExpression.try_parse, NoneExpression.try_parse,
    VariableExpression.try_parse.
  rewrite Hshape, !dotted_not_word by reflexivity.
  replace (Py.isidentifier (x ++ String "." rest)) with false; [reflexivity |].
  symmetry. pose proof (dotted_not_identifier x rest) as Hno.
  pose proof x_identifier as Hx.
  destruct x as [| a x']; [discriminate |].
  cbn [append Py.all_chars Py.isidentifier] in *.
  apply andb_prop in Hx as [Ha _].
  replace (Py.is_ident_char a) with true in Hno
    by (unfold Py.is_ident_char; now rewrite Ha).
  cbn [andb] in Hno.
  rewrite Hno. apply andb_false_r.
Qed.

Lemma dotted_text_parse (root : Expression) :
  parse_expression x = Ok root ->
  parse_expression (dotted_path x keys)
  = Ok (if is_SettableExpression root
        then SettablePropertyExpression root keys
        else PropertyExpression root keys).
Proof.
  intros Hroot.
  destruct dotted_text_first as (c0 & Hfirst & Hstart).
  assert (Hplain : path_char c0 = true)
    by (unfold path_char, Py.is_ident_char; now rewrite Hstart).
  apply path_char_plain in Hplain as (_ & Hparen & _).
  rewrite parse_expression_unfold. unfold parse_expression_body.
  rewrite dotted_text_trimmed. cbn [bind]. rewrite Hfirst.
  apply Ascii.eqb_neq in Hparen. rewrite Hparen. cbn [andb].
  rewrite dotted_text_reaches_property.
  unfold PropertyExpression_try_parse, dotted_path.
  rewrite (smart_split_dotted x keys x_identifier keys_identifiers).
  destruct keys as [| k ks]; [congruence |].
  rewrite Hroot. cbn [bind]. rewrite keys_identifiers. cbn [negb].
  now destruct (is_SettableExpression root).
Qed.

End DottedPath.

Lemma identifier_parses_as_variable (x : string) :
  Py.isidentifier x = true ->
  BoolExpression.try_parse x = None ->
  NoneExpression.try_parse x = None ->
  parse_expression x = Ok (VariableExpression x).
Proof.
  intros Hx Hbool Hnone.
  destruct (isidentifier_chars x Hx) as (Hne & Hall & c0 & Hfirst & Hstart).
  assert (Hpath : forall c, Py.is_ident_char c = true -> path_char c = true)
    by (intros c Hc; unfold path_char; now rewrite Hc).
  destruct (all_chars_last _ _ Hall Hne) as (c1 & Hlast & Hc1).
  assert (Hc0 : path_char c0 = true)
    by (apply Hpath; unfold Py.is_ident_char; now rewrite Hstart).
  destruct (path_char_plain c0 Hc0) as (Hws0 & Hparen & Hquote & Hbracket & Hbrace).
  destruct (path_char_plain c1 (Hpath c1 Hc1)) as (Hws1 & _).
  rewrite parse_expression_unfold. unfold parse_expression_body.
  rewrite (remove_whitespaces_fixed x c0 c1 Hfirst Hlast Hws0 Hws1).
  cbn [bind]. rewrite Hfirst.
  apply Ascii.eqb_neq in Hparen. rewrite Hparen. cbn [andb].
  unfold parse_variants, parse_after_dict.
  rewrite (StringExpression_try_parse_other_first c0 x Hfirst Hquote), Hbool, Hnone.
  rewrite (IntExpression_try_parse_other_first c0 x Hfirst
             (ident_start_no_digit c0 Hstart)).
  unfold ArrayExpression_try_parse, DictExpression_try_parse.
  rewrite (enclosed_in_other_first "[" "]" c0 x Hfirst Hbracket).
  rewrite (enclosed_in_other_first "{" "}" c0 x Hfirst Hbrace).
  unfold VariableExpression.try_parse. rewrite Hx. reflexivity.
Qed.

Lemma SettablePropertyExpression_js_set (fuel : nat)
    (react_context : option ReactContext) (root_expression : Expression)
    (key_path : list string) (js_expression path notify : string)
    (hooks : list ReactHook) :
  eval_js_and_hooks fuel react_context
    (SettablePropertyExpression root_expression key_path) = Ok (path, hooks) ->
  js_notify react_context root_expression = Ok notify ->
  js_set fuel react_context
    (SettablePropertyExpression root_expression key_path) js_expression
  = Ok (path ++ " = " ++ js_expression ++ "; " ++ notify).
Proof.
  intros Hpath Hnotify. unfold js_set. rewrite Hpath. cbn [bind fst js_notify].
  rewrite Hnotify. reflexivity.
Qed.

(** ** The worked examples of the design notes *)

Example smart_split_brackets :
  smart_split "a,b,[c,d],e" "," common_delimiters = ["a"; "b"; "[c,d]"; "e"].
Proof. reflexivity. Qed.

Example smart_split_mixed_nesting :
  smart_split "(a,[b)]" "," common_delimiters = ["(a,[b)]"].
Proof. reflexivity. Qed.

Example parse_int_round_trip :
  parse_expression " ( 42 ) " = Ok (IntExpression 42)
  /\ eval_js_and_hooks 1 None (IntExpression 42) = Ok ("42", []).
Proof. split; reflexivity. Qed.

Example parse_bool_round_trip :
  parse_expression "True" = Ok (BoolExpression true)
  /\ eval_js_and_hooks 1 None (BoolExpression true) = Ok ("true", []).
Proof. split; reflexivity. Qed.

Example parse_garbage :
  parse_expression "!!!bad!!!" = Raise (TemplateSyntaxError (CantParse "!!!bad!!!")).
Proof. reflexivity. Qed.

Example parse_none_before_variable :
  parse_expression "None" = Ok NoneExpression
  /\ parse_expression "None.x" = Ok (PropertyExpression NoneExpression ["x"]).
Proof. split; reflexivity. Qed.

(** ** The pieces of [smart_split] put together *)

Lemma append_nil_r (s : string) : s ++ EmptyString = s.
Proof. induction s as [| c s IH]; cbn; [reflexivity | now rewrite IH]. Qed.

Lemma smart_split_loop_nonempty (expression seperator : string)
    (delimiters : list (string * string)) :
  forall rest loc i stack,
    smart_split_loop expression seperator delimiters rest loc i stack <> [].
Proof.
  induction rest as [| c rest IH]; intros loc i stack; cbn [smart_split_loop].
  - discriminate.
  - destruct (smart_split_action _ _ _ _); try apply IH. discriminate.
Qed.

Lemma open_action_not_yield (char : string) (delimiters : list (string * string)) :
  open_action char delimiters <> Yield.
Proof.
  destruct (open_action_cases char delimiters) as [-> | (e & _ & _ & ->)];
    discriminate.
Qed.

Lemma smart_split_action_yield (seperator : string)
    (delimiters : list (string * string)) (stack : list string) (char : string) :
  smart_split_action seperator delimiters stack char = Yield ->
  stack = [] /\ char = seperator.
Proof.
  unfold smart_split_action. destruct stack as [| top below].
  - destruct (String.eqb char seperator) eqn:Heq.
    + intros _. split; [reflexivity | now apply String.eqb_eq].
    + intros H. now apply open_action_not_yield in H.
  - destruct (String.eqb char _); [discriminate |].
    intros H. now apply open_action_not_yield in H.
Qed.

Lemma join_cons (sep piece : string) (pieces : list string) :
  pieces <> [] ->
  Py.join sep (piece :: pieces) = piece ++ sep ++ Py.join sep pieces.
Proof. destruct pieces; [congruence | reflexivity]. Qed.

Lemma smart_split_loop_join (seperator : string)
    (delimiters : list (string * string)) :
  forall rest pre cur stack expression loc i,
    expression = pre ++ cur ++ rest ->
    i = String.length pre ->
    loc = String.length pre + String.length cur ->
    Py.join seperator
      (smart_split_loop expression seperator delimiters rest loc i stack)
    = cur ++ rest.
Proof.
  induction rest as [| c rest IH]; intros pre cur stack expression loc i -> -> ->.
  - cbn [smart_split_loop Py.join String.concat].
    unfold Py.slice_from. rewrite length_append, substring_skip.
    replace (String.length pre + String.length (cur ++ EmptyString) - String.length pre)
      with (String.length (cur ++ EmptyString)) by lia.
    apply substring_whole.
  - assert (Hnext : forall stack',
               Py.join seperator
                 (smart_split_loop (pre ++ cur ++ String c rest) seperator delimiters
                    rest (S (String.length pre + String.length cur))
                    (String.length pre) stack')
               = cur ++ String c rest).
    { intros stack'.
      rewrite (IH pre (cur ++ Py.chr c) stack' _ _ _); trivial.
      - now rewrite append_assoc.
      - now rewrite append_assoc.
      - rewrite length_append. cbn [Py.chr String.length]. lia. }
    cbn [smart_split_loop].
    destruct (smart_split_action seperator delimiters stack (Py.chr c)) eqn:Ha;
      try apply Hnext.
    apply smart_split_action_yield in Ha as [-> Hsep].
    rewrite join_cons by apply smart_split_loop_nonempty.
    cbn [apply_action]. f_equal.
    + unfold Py.slice. rewrite substring_skip.
      replace (String.length pre + String.length cur - String.length pre)
        with (String.length cur) by lia.
      apply substring_prefix.
    + rewrite (IH (pre ++ cur ++ Py.chr c) EmptyString [] _ _ _); trivial.
      * now rewrite <- Hsep.
      * now rewrite !append_assoc.
      * rewrite !length_append. cbn [Py.chr String.length]. lia.
      * rewrite !length_append. cbn [Py.chr String.length]. lia.
Qed.

(** X1: joining the pieces of [smart_split] with the separator gives the
    input back, for every input, separator and delimiter list. *)
Theorem smart_split_join (expression seperator : string)
    (delimiters : list (string * string)) :
  Py.join seperator (smart_split expression seperator delimiters) = expression.
Proof.
  exact (smart_split_loop_join seperator delimiters expression
           EmptyString EmptyString [] expression 0 0 eq_refl eq_refl eq_refl).
Qed.

Lemma smart_split_loop_no_separator (expression : string) (c : ascii)
    (delimiters : list (string * string)) :
  forall rest loc i stack,
    Py.find c rest = None ->
    smart_split_loop expression (Py.chr c) delimiters rest loc i stack
    = [Py.slice_from expression i].
Proof.
  induction rest as [| a rest IH]; intros loc i stack Hfind; cbn [smart_split_loop].
  - reflexivity.
  - cbn [Py.find] in Hfind.
    destruct (Ascii.eqb a c) eqn:Hac; [discriminate |].
    destruct (Py.find c rest); [discriminate |].
    destruct (smart_split_action (Py.chr c) delimiters stack (Py.chr a)) eqn:Ha;
      try (apply IH; reflexivity).
    apply smart_split_action_yield in Ha as [_ Ha].
    injection Ha as ->. now rewrite Ascii.eqb_refl in Hac.
Qed.

Lemma smart_split_single_piece (expression : string) (c : ascii)
    (delimiters : list (string * string)) :
  Py.find c expression = None ->
  smart_split expression (Py.chr c) delimiters = [expression].
Proof.
  intros Hfind. unfold smart_split.
  rewrite smart_split_loop_no_separator by exact Hfind.
  unfold Py.slice_from. now rewrite Nat.sub_0_r, substring_whole.
Qed.

(** X2: a text in which the separator character does not occur is returned
    as the only piece, whatever its brackets. *)
Theorem smart_split_no_separator (expression : string) (c : ascii)
    (delimiters : list (string * string)) :
  Py.find c expression = None ->
  smart_split expression (Py.chr c) delimiters = [expression].
Proof.
  intros Hfind. unfold smart_split.
  rewrite smart_split_loop_no_separator by exact Hfind.
  unfold Py.slice_from. now rewrite Nat.sub_0_r, substring_whole.
Qed.

Lemma smart_split_no_separator_witness :
  Py.find "," "[a;b]" = None
  /\ smart_split "[a;b]" "," common_delimiters = ["[a;b]"].
Proof.
  split; [reflexivity |].
  apply (smart_split_no_separator "[a;b]" "," common_delimiters). reflexivity.
Defined.

(** X3: on a text without a dot, [PropertyExpression.try_parse] is "no match"
    and parses nothing. *)
Theorem PropertyExpression_try_parse_no_dot (parse : string -> result Expression)
    (expression : string) :
  Py.find "." expression = None ->
  PropertyExpression_try_parse parse expression = Ok None.
Proof.
  intros Hfind. unfold PropertyExpression_try_parse.
  change "."%string with (Py.chr ".").
  now rewrite smart_split_single_piece.
Qed.

Lemma PropertyExpression_try_parse_no_dot_witness :
  Py.find "." "a,b" = None
  /\ PropertyExpression_try_parse parse_expression "a,b" = Ok None.
Proof.
  split; [reflexivity |].
  apply (PropertyExpression_try_parse_no_dot parse_expression "a,b"). reflexivity.
Defined.

(** ** Splitting what was joined *)

Lemma smart_split_loop_scan (seperator : string)
    (delimiters : list (string * string)) :
  forall w stack stack' rest expression loc i,
    scan_stack seperator delimiters stack w = Some stack' ->
    smart_split_loop expression seperator delimiters (w ++ rest) loc i stack
    = smart_split_loop expression seperator delimiters rest
        (loc + String.length w) i stack'.
Proof.
  induction w as [| a w IH]; intros stack stack' rest expression loc i Hscan.
  - cbn in Hscan. injection Hscan as <-. cbn. now rewrite Nat.add_0_r.
  - cbn [scan_stack] in Hscan. cbn [append smart_split_loop String.length].
    replace (loc + S (String.length w)) with (S loc + String.length w) by lia.
    destruct (smart_split_action seperator delimiters stack (Py.chr a));
      [discriminate | | |]; now apply IH.
Qed.

Lemma unsplit_scan (seperator : string) (delimiters : list (string * string))
    (s : string) :
  unsplit seperator delimiters s = true ->
  scan_stack seperator delimiters [] s = Some [].
Proof.
  unfold unsplit. destruct (scan_stack _ _ _ _) as [[| top below] |];
    [reflexivity | discriminate | discriminate].
Qed.

Lemma smart_split_unsplit (seperator : string)
    (delimiters : list (string * string)) (s : string) :
  unsplit seperator delimiters s = true ->
  smart_split s seperator delimiters = [s].
Proof.
  intros Hs. apply unsplit_scan in Hs. unfold smart_split.
  rewrite <- (append_nil_r s) at 2.
  rewrite (smart_split_loop_scan _ _ _ _ _ _ _ _ _ Hs). cbn [smart_split_loop].
  unfold Py.slice_from. now rewrite Nat.sub_0_r, substring_whole.
Qed.

Lemma smart_split_loop_joined (c : ascii) (delimiters : list (string * string))
    (elements : list string) :
  forall (pre x : string),
    unsplit (Py.chr c) delimiters x = true ->
    forallb (unsplit (Py.chr c) delimiters) elements = true ->
    smart_split_loop (pre ++ Py.join (Py.chr c) (x :: elements)) (Py.chr c)
      delimiters (Py.join (Py.chr c) (x :: elements))
      (String.length pre) (String.length pre) []
    = x :: elements.
Proof.
  induction elements as [| y ys IH]; intros pre x Hx Hrest.
  - cbn [Py.join String.concat].
    rewrite <- (append_nil_r x) at 2.
    rewrite (smart_split_loop_scan _ _ _ _ _ _ _ _ _ (unsplit_scan _ _ _ Hx)).
    cbn [smart_split_loop]. unfold Py.slice_from.
    rewrite length_append, substring_skip.
    replace (String.length pre + String.length x - String.length pre)
      with (String.length x) by lia.
    now rewrite substring_whole.
  - cbn [forallb] in Hrest. apply andb_prop in Hrest as [Hy Hys].
    change (Py.join (Py.chr c) (x :: y :: ys))
      with (x ++ String c (Py.join (Py.chr c) (y :: ys))).
    rewrite (smart_split_loop_scan _ _ _ _ _ _ _ _ _ (unsplit_scan _ _ _ Hx)).
    cbn [smart_split_loop].
    replace (smart_split_action (Py.chr c) delimiters [] (Py.chr c)) with Yield
      by (unfold smart_split_action; now rewrite String.eqb_refl).
    cbn [apply_action]. f_equal.
    + unfold Py.slice. rewrite substring_skip.
      replace (String.length pre + String.length x - String.length pre)
        with (String.length x) by lia.
      apply substring_prefix.
    + specialize (IH (pre ++ x ++ Py.chr c) y Hy Hys).
      rewrite !append_assoc in IH. cbn [Py.chr append] in IH.
      rewrite !length_append in IH. cbn [String.length] in IH.
      replace (S (String.length pre + String.length x))
        with (String.length pre + (String.length x + 1)) by lia.
      exact IH.
Qed.

(** X4: when each text of a non-empty list is scanned without a split and
    with all its delimiters closed, splitting their join gives the list back. *)
Theorem smart_split_of_join (c : ascii) (delimiters : list (string * string))
    (elements : list string) :
  elements <> [] ->
  forallb (unsplit (Py.chr c) delimiters) elements = true ->
  smart_split (Py.join (Py.chr c) elements) (Py.chr c) delimiters = elements.
Proof.
  destruct elements as [| x elements]; [congruence |]. intros _ Hall.
  cbn [forallb] in Hall. apply andb_prop in Hall as [Hx Hrest].
  exact (smart_split_loop_joined c delimiters elements EmptyString x Hx Hrest).
Qed.

Lemma smart_split_of_join_witness :
  forallb (unsplit "," common_delimiters) ["a"; "[c,d]"; "f(x,{y,z})"; EmptyString] = true
  /\ smart_split "a,[c,d],f(x,{y,z})," "," common_delimiters
     = ["a"; "[c,d]"; "f(x,{y,z})"; EmptyString].
Proof.
  split; [reflexivity |].
  apply (smart_split_of_join "," common_delimiters
           ["a"; "[c,d]"; "f(x,{y,z})"; EmptyString]); [discriminate | reflexivity].
Defined.

Lemma scan_stack_inside (seperator : string) (delimiters : list (string * string))
    (c : ascii) (body : string) :
  Py.all_chars (fun a => negb (Ascii.eqb a c) && negb (is_opening delimiters a)) body
  = true ->
  forall rest,
    scan_stack seperator delimiters [Py.chr c] (body ++ rest)
    = scan_stack seperator delimiters [Py.chr c] rest.
Proof.
  induction body as [| a body IH]; intros Hbody rest; [reflexivity |].
  cbn [Py.all_chars] in Hbody. apply andb_prop in Hbody as [Ha Hbody].
  apply andb_prop in Ha as [Hac Hopen].
  cbn [append scan_stack]. unfold smart_split_action. cbn [List.last].
  replace (String.eqb (Py.chr a) (Py.chr c)) with false.
  - unfold open_action. unfold is_opening in Hopen.
    destruct (match_and_return_second (Py.chr a) delimiters); [discriminate |].
    cbn [apply_action]. now apply IH.
  - symmetry. apply String.eqb_neq. intros H. injection H as ->.
    now rewrite Ascii.eqb_refl in Hac.
Qed.

(** X5: a group that opens with a delimiter of the list, closes with its
    closing character and has no delimiter in between is one piece, also when
    the separator occurs inside. *)
Theorem smart_split_bracketed (seperator : string)
    (delimiters : list (string * string)) (o c : ascii) (body : string) :
  match_and_return_second (Py.chr o) delimiters = Some (Py.chr c) ->
  Py.chr o <> seperator ->
  Py.all_chars (fun a => negb (Ascii.eqb a c) && negb (is_opening delimiters a)) body
  = true ->
  unsplit seperator delimiters (String o (body ++ Py.chr c)) = true
  /\ smart_split (String o (body ++ Py.chr c)) seperator delimiters
     = [String o (body ++ Py.chr c)].
Proof.
  intros Hpair Hsep Hbody.
  assert (Hun : unsplit seperator delimiters (String o (body ++ Py.chr c)) = true).
  { unfold unsplit. cbn [scan_stack]. unfold smart_split_action at 1.
    apply String.eqb_neq in Hsep. rewrite Hsep.
    unfold open_action. rewrite Hpair. cbn [Py.chr apply_action app].
    change (String c EmptyString) with (Py.chr c).
    rewrite (scan_stack_inside _ _ _ _ Hbody).
    cbn [Py.chr scan_stack]. unfold smart_split_action. cbn [List.last].
    now rewrite String.eqb_refl. }
  split; [exact Hun | now apply smart_split_unsplit].
Qed.

Lemma smart_split_bracketed_witness :
  smart_split "[c,d , e]" "," common_delimiters = ["[c,d , e]"].
Proof.
  apply (smart_split_bracketed "," common_delimiters "[" "]" "c,d , e");
    [reflexivity | discriminate | reflexivity].
Defined.

(** ** What trimming returns *)

Lemma get_append_right (pre x : string) (k : nat) :
  String.get (String.length pre + k) (pre ++ x) = String.get k x.
Proof. induction pre as [| c pre IH]; cbn; [reflexivity | exact IH]. Qed.

Lemma get_append_left (t suf : string) :
  forall k, k < String.length t -> String.get k (t ++ suf) = String.get k t.
Proof.
  induction t as [| c t IH]; intros k Hk; cbn in *; [lia |].
  destruct k as [| k]; [reflexivity | apply IH; lia].
Qed.

Lemma all_chars_get (p : ascii -> bool) (s : string) :
  Py.all_chars p s = true ->
  forall k c, String.get k s = Some c -> p c = true.
Proof.
  induction s as [| a s IH]; intros Hall k c Hget; cbn in *; [discriminate |].
  apply andb_prop in Hall as [Ha Hs].
  destruct k as [| k]; [injection Hget as <-; exact Ha | now apply (IH Hs k)].
Qed.

Lemma get_in_range (s : string) :
  forall k, k < String.length s -> exists c, String.get k s = Some c.
Proof.
  induction s as [| a s IH]; intros k Hk; cbn in *; [lia |].
  destruct k as [| k]; [now exists a | apply IH; lia].
Qed.

Lemma whitespace_at (s : string) (k : nat) :
  Py.all_chars is_boundary_whitespace s = true ->
  k < String.length s ->
  not_whitespace_at s k = false.
Proof.
  intros Hall Hk. unfold not_whitespace_at.
  destruct (get_in_range s k Hk) as (c & Hc). rewrite Hc.
  now rewrite (all_chars_get _ _ Hall k c Hc).
Qed.

Lemma for_break_skip (stop : nat -> bool) (skipped : list nat) (k0 : nat)
    (later : list nat) (bound : option nat) :
  Forall (fun k => stop k = false) skipped ->
  stop k0 = true ->
  for_break (skipped ++ k0 :: later)%list stop bound = Some k0.
Proof.
  intros Hall Hk0. revert bound.
  induction Hall as [| k l Hk _ IH]; intros bound; cbn.
  - now rewrite Hk0.
  - rewrite Hk. apply IH.
Qed.

Lemma for_break_no_stop (stop : nat -> bool) (skipped : list nat) (k0 : nat)
    (bound : option nat) :
  Forall (fun k => stop k = false) skipped ->
  stop k0 = false ->
  for_break (skipped ++ [k0])%list stop bound = Some k0.
Proof.
  intros Hall Hk0. revert bound.
  induction Hall as [| k l Hk _ IH]; intros bound; cbn.
  - now rewrite Hk0.
  - rewrite Hk. apply IH.
Qed.

Lemma last_append (pre t : string) :
  t <> EmptyString -> Py.last (pre ++ t) = Py.last t.
Proof.
  intros Ht. unfold Py.last. rewrite length_append.
  destruct t as [| c t]; [congruence |]. cbn [String.length].
  replace (String.length pre + S (String.length t))
    with (S (String.length pre + String.length t)) by lia.
  apply get_append_right.
Qed.

Lemma last_get (t : string) (c : ascii) :
  Py.last t = Some c ->
  String.get (String.length t - 1) t = Some c /\ 1 <= String.length t.
Proof.
  unfold Py.last. destruct (String.length t) as [| n] eqn:Hlen; [discriminate |].
  intros H. split; [| lia]. now replace (S n - 1) with n by lia.
Qed.

Lemma substring_middle (pre t suf : string) :
  substring (String.length pre) (String.length t) (pre ++ t ++ suf) = t.
Proof. rewrite substring_skip. apply substring_prefix. Qed.

Lemma remove_whitespaces_decomposed (pre t suf : string) (c0 c1 : ascii) :
  Py.all_chars is_boundary_whitespace pre = true ->
  Py.all_chars is_boundary_whitespace suf = true ->
  Py.first t = Some c0 -> is_boundary_whitespace c0 = false ->
  Py.last t = Some c1 -> is_boundary_whitespace c1 = false ->
  remove_whitespaces_on_boundaries (pre ++ t ++ suf) = Ok t.
Proof.
  intros Hpre Hsuf Hfirst Hc0 Hlast Hc1.
  destruct (last_get t c1 Hlast) as [Hget1 Hlen].
  set (s := pre ++ t ++ suf).
  assert (Hs : String.length s
               = String.length pre + (String.length t + String.length suf))
    by (unfold s; now rewrite !length_append).
  assert (Hbefore : forall k, k < String.length pre -> not_whitespace_at s k = false).
  { intros k Hk. unfold not_whitespace_at, s.
    rewrite get_append_left by exact Hk.
    exact (whitespace_at pre k Hpre Hk). }
  assert (Hstart : not_whitespace_at s (String.length pre) = true).
  { unfold not_whitespace_at, s.
    rewrite <- (Nat.add_0_r (String.length pre)), get_append_right.
    rewrite get_append_left by lia.
    unfold Py.first in Hfirst. now rewrite Hfirst, Hc0. }
  assert (Hend : not_whitespace_at s (String.length pre + (String.length t - 1)) = true).
  { unfold not_whitespace_at, s. rewrite get_append_right.
    rewrite get_append_left by lia. now rewrite Hget1, Hc1. }
  assert (Hafter : forall k, String.length pre + String.length t <= k ->
                             k < String.length s -> not_whitespace_at s k = false).
  { intros k Hlo Hhi. unfold not_whitespace_at, s.
    replace k with (String.length pre + (String.length t + (k - String.length pre - String.length t)))
      by lia.
    rewrite get_append_right, get_append_right.
    apply (whitespace_at suf); [exact Hsuf | lia]. }
  assert (Hforward : seq 0 (String.length s)
                      = (seq 0 (String.length pre)
                         ++ String.length pre
                            :: seq (S (String.length pre))
                                 (String.length t - 1 + String.length suf))%list).
  { rewrite Hs.
    replace (String.length t + String.length suf)
      with (S (String.length t - 1 + String.length suf)) by lia.
    now rewrite seq_app. }
  assert (Hbackward : rev (seq (String.length pre) (String.length s - String.length pre))
                      = (rev (seq (String.length pre + String.length t) (String.length suf))
                         ++ (String.length pre + (String.length t - 1))
                            :: rev (seq (String.length pre) (String.length t - 1)))%list).
  { replace (String.length s - String.length pre)
      with (S (String.length t - 1) + String.length suf) by lia.
    rewrite seq_app, rev_app_distr, seq_S, rev_app_distr.
    replace (String.length pre + S (String.length t - 1))
      with (String.length pre + String.length t) by lia.
    reflexivity. }
  unfold remove_whitespaces_on_boundaries.
  rewrite Hforward, for_break_skip; [| | exact Hstart].
  2:{ apply Forall_forall. intros k Hk. apply in_seq in Hk. apply Hbefore. lia. }
  rewrite Hbackward, for_break_skip; [| | exact Hend].
  2:{ apply Forall_forall. intros k Hk. apply in_rev, in_seq in Hk.
      apply Hafter; lia. }
  unfold Py.slice.
  replace (String.length pre + (String.length t - 1) + 1 - String.length pre)
    with (String.length t) by lia.
  unfold s. now rewrite substring_middle.
Qed.

Lemma last_cons (a : ascii) (t : string) :
  t <> EmptyString -> Py.last (String a t) = Py.last t.
Proof. exact (last_append (Py.chr a) t). Qed.

Lemma ends_with_text (s : string) :
  Py.all_chars is_boundary_whitespace s = false ->
  exists t suf c1,
    s = t ++ suf
    /\ Py.all_chars is_boundary_whitespace suf = true
    /\ Py.last t = Some c1 /\ is_boundary_whitespace c1 = false.
Proof.
  induction s as [| b s IH]; intros Hs; [discriminate |].
  destruct (Py.all_chars is_boundary_whitespace s) eqn:Hrest.
  - cbn [Py.all_chars] in Hs. rewrite Hrest, andb_true_r in Hs.
    exists (Py.chr b), s, b. repeat split; assumption.
  - destruct (IH eq_refl) as (t & suf & c1 & -> & Hsuf & Hlast & Hc1).
    exists (String b t), suf, c1. split; [reflexivity |]. split; [exact Hsuf |].
    split; [| exact Hc1]. rewrite last_cons; [exact Hlast |].
    intros ->. discriminate.
Qed.

Lemma text_between_whitespace (s : string) :
  Py.all_chars is_boundary_whitespace s = false ->
  exists pre t suf c0 c1,
    s = pre ++ t ++ suf
    /\ Py.all_chars is_boundary_whitespace pre = true
    /\ Py.all_chars is_boundary_whitespace suf = true
    /\ Py.first t = Some c0 /\ is_boundary_whitespace c0 = false
    /\ Py.last t = Some c1 /\ is_boundary_whitespace c1 = false.
Proof.
  induction s as [| a s IH]; intros Hs; [discriminate |].
  destruct (is_boundary_whitespace a) eqn:Ha.
  - cbn [Py.all_chars] in Hs. rewrite Ha in Hs. cbn [andb] in Hs.
    destruct (IH Hs) as (pre & t & suf & c0 & c1 & -> & Hpre & H).
    exists (String a pre), t, suf, c0, c1. split; [reflexivity |].
    split; [| exact H]. cbn [Py.all_chars]. now rewrite Ha, Hpre.
  - destruct (ends_with_text (String a s) Hs) as (t & suf & c1 & Heq & Hsuf & Hlast & Hc1).
    exists EmptyString, t, suf, a, c1. cbn [append Py.all_chars].
    repeat split; try assumption.
    destruct t as [| b t]; [discriminate |].
    cbn [append] in Heq. injection Heq as <- _. reflexivity.
Qed.

(** X6: a text with a character other than space, tab and newline is cut
    to the part between its leading and its trailing run of these three
    characters; what is returned starts and ends with another character. *)
Theorem remove_whitespaces_strips (s : string) :
  Py.all_chars is_boundary_whitespace s = false ->
  exists pre t suf,
    s = pre ++ t ++ suf
    /\ Py.all_chars is_boundary_whitespace pre = true
    /\ Py.all_chars is_boundary_whitespace suf = true
    /\ not_whitespace_at t 0 = true
    /\ not_whitespace_at t (String.length t - 1) = true
    /\ remove_whitespaces_on_boundaries s = Ok t.
Proof.
  intros Hs.
  destruct (text_between_whitespace s Hs)
    as (pre & t & suf & c0 & c1 & -> & Hpre & Hsuf & Hfirst & Hc0 & Hlast & Hc1).
  exists pre, t, suf. split; [reflexivity |].
  split; [exact Hpre |]. split; [exact Hsuf |].
  split; [| split].
  - unfold not_whitespace_at. unfold Py.first in Hfirst. now rewrite Hfirst, Hc0.
  - unfold not_whitespace_at.
    destruct (last_get t c1 Hlast) as [-> _]. now rewrite Hc1.
  - now apply (remove_whitespaces_decomposed pre t suf c0 c1).
Qed.

Lemma remove_whitespaces_strips_witness :
  exists pre t suf,
    "  x . y  " = pre ++ t ++ suf
    /\ Py.all_chars is_boundary_whitespace pre = true
    /\ Py.all_chars is_boundary_whitespace suf = true
    /\ not_whitespace_at t 0 = true
    /\ not_whitespace_at t (String.length t - 1) = true
    /\ remove_whitespaces_on_boundaries "  x . y  " = Ok t.
Proof.
  apply (remove_whitespaces_strips "  x . y  "). reflexivity.
Defined.

Lemma substring_one (s : string) :
  forall k c, String.get k s = Some c -> substring k 1 s = Py.chr c.
Proof.
  induction s as [| a s IH]; intros k c Hget; cbn in *; [discriminate |].
  destruct k as [| k].
  - injection Hget as <-. now destruct s.
  - now apply IH.
Qed.

Lemma remove_whitespaces_all_blank (s : string) (c : ascii) :
  Py.all_chars is_boundary_whitespace s = true ->
  Py.last s = Some c ->
  remove_whitespaces_on_boundaries s = Ok (Py.chr c).
Proof.
  intros Hall Hlast.
  destruct (last_get s c Hlast) as [Hget Hlen].
  assert (Hnone : forall k, k < String.length s -> not_whitespace_at s k = false)
    by (intros k Hk; now apply whitespace_at).
  unfold remove_whitespaces_on_boundaries.
  replace (String.length s) with (S (String.length s - 1)) at 1 by lia.
  rewrite seq_S, for_break_no_stop; cbn [Nat.add].
  - replace (String.length s - (String.length s - 1)) with 1 by lia.
    cbn [seq rev app for_break]. rewrite Hnone by lia.
    unfold Py.slice.
    replace (String.length s - 1 + 1 - (String.length s - 1)) with 1 by lia.
    now rewrite (substring_one s _ c).
  - apply Forall_forall. intros k Hk. apply in_seq in Hk. apply Hnone. lia.
  - apply Hnone. lia.
Qed.

(** X7: a non-empty text of spaces, tabs and newlines only is not trimmed to
    the empty text: its last character, one of the three, is returned. *)
Theorem remove_whitespaces_blank (s : string) (c : ascii) :
  Py.all_chars is_boundary_whitespace s = true ->
  Py.last s = Some c ->
  remove_whitespaces_on_boundaries s = Ok (Py.chr c)
  /\ is_boundary_whitespace c = true.
Proof.
  intros Hall Hlast. split.
  - now apply remove_whitespaces_all_blank.
  - destruct (last_get s c Hlast) as [Hget _].
    exact (all_chars_get _ _ Hall _ _ Hget).
Qed.

Lemma remove_whitespaces_blank_witness :
  remove_whitespaces_on_boundaries "   " = Ok " "
  /\ is_boundary_whitespace " " = true.
Proof.
  apply (remove_whitespaces_blank "   " " "); reflexivity.
Defined.

(** X8: trimming is idempotent, and [parse_expression] gives for a text
    what it gives for the trimmed text. *)
Theorem parse_expression_trimmed (s t : string) :
  remove_whitespaces_on_boundaries s = Ok t ->
  remove_whitespaces_on_boundaries t = Ok t
  /\ parse_expression s = parse_expression t.
Proof.
  intros Htrim.
  assert (Hidem : remove_whitespaces_on_boundaries t = Ok t).
  { destruct (Py.all_chars is_boundary_whitespace s) eqn:Hs.
    - destruct (Py.last s) as [c |] eqn:Hlast.
      + rewrite (remove_whitespaces_all_blank s c Hs Hlast) in Htrim.
        injection Htrim as <-.
        apply (remove_whitespaces_all_blank (Py.chr c) c); [| reflexivity].
        cbn [Py.chr Py.all_chars].
        destruct (last_get s c Hlast) as [Hget _].
        now rewrite (all_chars_get _ _ Hs _ _ Hget).
      + destruct s as [| a s]; [discriminate |].
        unfold Py.last in Hlast. cbn [String.length] in Hlast.
        destruct (get_in_range (String a s) (String.length s)) as (c & Hc);
          [cbn; lia | congruence].
    - destruct (text_between_whitespace s Hs)
        as (pre & u & suf & c0 & c1 & -> & Hpre & Hsuf & Hfirst & Hc0 & Hlast & Hc1).
      rewrite (remove_whitespaces_decomposed pre u suf c0 c1) in Htrim by assumption.
      injection Htrim as <-.
      now apply (remove_whitespaces_fixed u c0 c1). }
  split; [exact Hidem |].
  rewrite (parse_expression_unfold s), (parse_expression_unfold t).
  unfold parse_expression_body. now rewrite Htrim, Hidem.
Qed.

Lemma parse_expression_trimmed_witness :
  remove_whitespaces_on_boundaries "  [1, 2] " = Ok "[1, 2]"
  /\ remove_whitespaces_on_boundaries "[1, 2]" = Ok "[1, 2]"
  /\ parse_expression "  [1, 2] " = parse_expression "[1, 2]".
Proof.
  split; [reflexivity |].
  apply (parse_expression_trimmed "  [1, 2] " "[1, 2]"). reflexivity.
Defined.

(** ** Texts in parentheses and in quotes *)

Lemma interior_enclosed (a b : ascii) (s : string) :
  Py.interior (String a (s ++ Py.chr b)) = s.
Proof.
  unfold Py.interior. cbn [String.length substring].
  rewrite length_append. cbn [Py.chr String.length].
  replace (S (String.length s + 1) - 2) with (String.length s) by lia.
  apply substring_prefix.
Qed.

Lemma last_enclosed (a b : ascii) (s : string) :
  Py.last (String a (s ++ Py.chr b)) = Some b.
Proof.
  change (String a (s ++ Py.chr b)) with ((String a s) ++ Py.chr b).
  rewrite last_append by discriminate. reflexivity.
Qed.

(** X9: a pair of parentheses around any text changes nothing: the text in
    parentheses parses to what the text parses to, or fails as it fails. *)
Theorem parse_expression_parenthesized (s : string) :
  parse_expression (String "(" (s ++ ")")) = parse_expression s.
Proof.
  rewrite parse_expression_unfold at 1. unfold parse_expression_body.
  rewrite (remove_whitespaces_fixed _ "(" ")");
    [| reflexivity | apply (last_enclosed "(" ")") | reflexivity | reflexivity].
  cbn [bind Py.first String.get].
  change ")"%string with (Py.chr ")").
  rewrite last_enclosed, interior_enclosed. reflexivity.
Qed.

(** X10: any text between two single quotes parses as the String of that
    text; its value is the text, and the code generated for it is the quoted
    text again. *)
Theorem single_quoted_round_trip (body : string) (fuel : nat)
    (react_context : option ReactContext) :
  parse_expression (String "'" (body ++ "'")) = Ok (StringExpression body)
  /\ eval_initial (1 + fuel) react_context (StringExpression body) = Ok (VStr body)
  /\ eval_js_and_hooks (1 + fuel) react_context (StringExpression body)
     = Ok (String "'" (body ++ "'"), []).
Proof.
  split; [| split; reflexivity].
  rewrite parse_expression_unfold. unfold parse_expression_body.
  rewrite (remove_whitespaces_fixed _ "'" "'");
    [| reflexivity | apply (last_enclosed "'" "'") | reflexivity | reflexivity].
  cbn [bind Py.first String.get].
  replace (Ascii.eqb "'" "(") with false by reflexivity. cbn [andb].
  unfold parse_variants.
  assert (H : StringExpression.try_parse (String "'" (body ++ "'"))
              = Some (StringExpression body)).
  { apply StringExpression_try_parse_spec.
    change "'"%string with (Py.chr "'").
    rewrite last_enclosed, interior_enclosed.
    cbn [String.length]. rewrite length_append. cbn. repeat split. lia. }
  rewrite H. reflexivity.
Qed.

(** ** Integers *)

Lemma digit_plain (c : ascii) :
  Py.is_digit c = true ->
  is_boundary_whitespace c = false
  /\ Ascii.eqb c "(" = false /\ c <> "'"%char
  /\ Ascii.eqb c "T" = false /\ Ascii.eqb c "t" = false
  /\ Ascii.eqb c "F" = false /\ Ascii.eqb c "f" = false.
Proof.
  destruct c as [[] [] [] [] [] [] [] []]; cbv; intros H;
    repeat split; try discriminate; try reflexivity.
Qed.

Lemma int_digits_nonneg (s : string) :
  forall acc, (0 <= acc)%Z -> (0 <= Py.int_digits acc s)%Z.
Proof.
  induction s as [| c s IH]; intros acc Hacc; cbn [Py.int_digits]; [exact Hacc |].
  apply IH. lia.
Qed.

Lemma isnumeric_parse (s : string) :
  Py.isnumeric s = true ->
  parse_expression s = (val <- py_int s ;; Ok (IntExpression val)).
Proof.
  intros Hnum.
  destruct s as [| c0 rest]; [discriminate |].
  assert (Hall : Py.all_chars Py.is_digit (String c0 rest) = true) by exact Hnum.
  destruct (all_chars_last _ _ Hall) as (c1 & Hlast & Hc1); [discriminate |].
  assert (Hc0 : Py.is_digit c0 = true)
    by (cbn [Py.all_chars] in Hall; now apply andb_prop in Hall).
  destruct (digit_plain c0 Hc0) as (Hws0 & Hparen & Hquote & HT & Ht & HF & Hf).
  destruct (digit_plain c1 Hc1) as (Hws1 & _).
  rewrite parse_expression_unfold. unfold parse_expression_body.
  rewrite (remove_whitespaces_fixed _ c0 c1); try assumption; [| reflexivity].
  cbn [bind Py.first String.get]. rewrite Hparen. cbn [andb].
  unfold parse_variants.
  rewrite (StringExpression_try_parse_other_first c0) by easy.
  unfold BoolExpression.try_parse. cbn [String.eqb].
  rewrite HT, Ht, HF, Hf. cbn [andb orb or_else].
  unfold IntExpression.try_parse. rewrite Hnum.
  unfold or_else_try. now destruct (py_int (String c0 rest)).
Qed.

(** X11: a non-empty text of decimal digits, leading zeros included, parses
    as the Int of its decimal value, which is not negative, when it has no
    more digits than the limit of [int]; a longer one makes [parse_expression]
    raise the ValueError of [int]. *)
Theorem digits_parse_as_int (s : string) :
  Py.isnumeric s = true ->
  parse_expression s
  = (if (String.length s <=? int_max_str_digits)%nat
     then Ok (IntExpression (Py.int s))
     else Raise ValueError)
  /\ (0 <= Py.int s)%Z.
Proof.
  intros Hnum. split; [| apply int_digits_nonneg; lia].
  rewrite (isnumeric_parse s Hnum). unfold py_int.
  now destruct (String.length s <=? int_max_str_digits)%nat.
Qed.

Lemma digits_parse_as_int_witness :
  (Py.isnumeric "007" = true
   /\ parse_expression "007" = Ok (IntExpression 7))
  /\ (Py.isnumeric (String.concat EmptyString (repeat "7" 4301)) = true
      /\ parse_expression (String.concat EmptyString (repeat "7" 4301))
         = Raise ValueError).
Proof.
  split.
  - split; [reflexivity |].
    apply (proj1 (digits_parse_as_int "007" eq_refl)).
  - assert (Hnumeric : Py.isnumeric (String.concat EmptyString (repeat "7" 4301))
                       = true) by (vm_compute; reflexivity).
    split; [exact Hnumeric |].
    rewrite (proj1 (digits_parse_as_int _ Hnumeric)).
    vm_compute. reflexivity.
Defined.

Lemma int_digits_acc (d : Decimal.uint) :
  forall acc : positive,
    Py.int_digits (Zpos acc) (NilEmpty.string_of_uint d)
    = Zpos (Pos.of_uint_acc d acc).
Proof.
  induction d; intros acc; cbn [NilEmpty.string_of_uint Py.int_digits Pos.of_uint_acc];
    try reflexivity;
    match goal with
    | |- Py.int_digits ?z _ = _ =>
        match goal with
        | |- _ = Zpos (Pos.of_uint_acc _ ?p) =>
            replace z with (Zpos p)
              by (set (k := Z.of_nat _); vm_compute in k; subst k; lia)
        end
    end; apply IHd.
Qed.

Lemma int_digits_of_uint (d : Decimal.uint) :
  Py.int (NilEmpty.string_of_uint d) = Z.of_N (Pos.of_uint d).
Proof.
  unfold Py.int.
  induction d; cbn [NilEmpty.string_of_uint Py.int_digits Pos.of_uint];
    try reflexivity; try exact IHd;
    match goal with
    | |- Py.int_digits ?z _ = Z.of_N (Npos (Pos.of_uint_acc _ ?p)) =>
        replace z with (Zpos p)
              by (set (k := Z.of_nat _); vm_compute in k; subst k; lia)
    end; cbn [Z.of_N]; apply int_digits_acc.
Qed.

Lemma string_of_uint_digits (d : Decimal.uint) :
  Py.all_chars Py.is_digit (NilEmpty.string_of_uint d) = true.
Proof.
  induction d; cbn [NilEmpty.string_of_uint Py.all_chars]; try reflexivity;
    rewrite IHd; reflexivity.
Qed.

Lemma str_of_int_numeric (n : Z) :
  (0 <= n)%Z ->
  Py.isnumeric (Py.str_of_int n) = true /\ Py.int (Py.str_of_int n) = n.
Proof.
  intros Hn. unfold Py.str_of_int.
  destruct n as [| p | p]; [split; reflexivity | | lia].
  cbn [Z.to_int NilZero.string_of_int NilZero.string_of_uint].
  pose proof (DecimalPos.Unsigned.to_uint_nonnil p) as Hnil.
  pose proof (string_of_uint_digits (Pos.to_uint p)) as Hdigits.
  pose proof (int_digits_of_uint (Pos.to_uint p)) as Hint.
  rewrite DecimalPos.Unsigned.of_to in Hint.
  destruct (Pos.to_uint p) eqn:Hd; [congruence | | | | | | | | | |];
    (split; [exact Hdigits | exact Hint]).
Qed.

(** X12: the decimal text of a non-negative integer that has no more digits
    than the limit of [int] and [str] parses as the Int of that integer, and
    the code generated for this Int is the same text. *)
Theorem int_round_trip (n : Z) (fuel : nat) (react_context : option ReactContext) :
  (0 <= n)%Z ->
  decimal_digits n <= int_max_str_digits ->
  parse_expression (Py.str_of_int n) = Ok (IntExpression n)
  /\ eval_js_and_hooks (1 + fuel) react_context (IntExpression n)
     = Ok (Py.str_of_int n, []).
Proof.
  intros Hn Hdigits.
  assert (Hlen : String.length (Py.str_of_int n) = decimal_digits n)
    by (unfold decimal_digits; now rewrite Z.abs_eq).
  apply Nat.leb_le in Hdigits. split.
  - destruct (str_of_int_numeric n Hn) as [Hnum Hint].
    rewrite (isnumeric_parse _ Hnum). unfold py_int.
    rewrite Hlen, Hdigits, Hint. reflexivity.
  - cbn [Nat.add eval_js_and_hooks]. unfold py_str. now rewrite Hdigits.
Qed.

Lemma int_round_trip_witness :
  decimal_digits 2024 <= int_max_str_digits
  /\ parse_expression "2024" = Ok (IntExpression 2024)
  /\ eval_js_and_hooks 1 None (IntExpression 2024) = Ok ("2024", []).
Proof.
  assert (Hdigits : decimal_digits 2024 <= int_max_str_digits)
    by (apply Nat.leb_le; reflexivity).
  split; [exact Hdigits |].
  apply (int_round_trip 2024 0 None); [lia | exact Hdigits].
Defined.

Example int_beyond_the_limit :
  decimal_digits (10 ^ 4300) = 4301
  /\ py_str (10 ^ 4300) = Raise ValueError
  /\ eval_js_and_hooks 2 None
       (ArrayExpression [IntExpression 1; IntExpression (10 ^ 4300)])
     = Raise ValueError.
Proof.
  assert (Hdigits : decimal_digits (10 ^ 4300) = 4301) by (vm_compute; reflexivity).
  assert (Hstr : py_str (10 ^ 4300) = Raise ValueError)
    by (unfold py_str; rewrite Hdigits; reflexivity).
  split; [exact Hdigits | split; [exact Hstr |]].
  cbn [eval_js_and_hooks map_result bind]. unfold py_str at 1.
  cbn [bind]. rewrite Hstr. reflexivity.
Qed.

(** ** Identifiers *)

(** X13: an identifier parses as a Bool for [True], [true], [False] and
    [false], as None for [None] and [null], and as the Variable of that name
    in every other case. *)
Theorem identifier_parse (x : string) :
  Py.isidentifier x = true ->
  parse_expression x
  = Ok (match BoolExpression.try_parse x, NoneExpression.try_parse x with
        | Some literal, _ => literal
        | None, Some literal => literal
        | None, None => VariableExpression x
        end).
Proof.
  intros Hx.
  destruct (isidentifier_chars x Hx) as (Hne & Hall & c0 & Hfirst & Hstart).
  assert (Hpath : forall c, Py.is_ident_char c = true -> path_char c = true)
    by (intros c Hc; unfold path_char; now rewrite Hc).
  destruct (all_chars_last _ _ Hall Hne) as (c1 & Hlast & Hc1).
  assert (Hc0 : path_char c0 = true)
    by (apply Hpath; unfold Py.is_ident_char; now rewrite Hstart).
  destruct (path_char_plain c0 Hc0) as (Hws0 & Hparen & Hquote & Hbracket & Hbrace).
  destruct (path_char_plain c1 (Hpath c1 Hc1)) as (Hws1 & _).
  rewrite parse_expression_unfold. unfold parse_expression_body.
  rewrite (remove_whitespaces_fixed x c0 c1 Hfirst Hlast Hws0 Hws1).
  cbn [bind]. rewrite Hfirst.
  apply Ascii.eqb_neq in Hparen. rewrite Hparen. cbn [andb].
  unfold parse_variants, parse_after_dict.
  rewrite (StringExpression_try_parse_other_first c0 x Hfirst Hquote).
  destruct (BoolExpression.try_parse x) as [literal |]; [reflexivity |].
  rewrite (IntExpression_try_parse_other_first c0 x Hfirst
             (ident_start_no_digit c0 Hstart)).
  destruct (NoneExpression.try_parse x) as [literal |]; [reflexivity |].
  unfold ArrayExpression_try_parse, DictExpression_try_parse.
  rewrite (enclosed_in_other_first "[" "]" c0 x Hfirst Hbracket).
  rewrite (enclosed_in_other_first "{" "}" c0 x Hfirst Hbrace).
  unfold VariableExpression.try_parse. rewrite Hx. reflexivity.
Qed.

Lemma identifier_parse_witness :
  parse_expression "Nonesuch" = Ok (VariableExpression "Nonesuch")
  /\ parse_expression "null" = Ok NoneExpression
  /\ parse_expression "true" = Ok (BoolExpression true).
Proof.
  split; [| split].
  - apply (identifier_parse "Nonesuch"). reflexivity.
  - apply (identifier_parse "null"). reflexivity.
  - apply (identifier_parse "true"). reflexivity.
Defined.

(** ** What the parser builds *)

Lemma map_result_length {A B : Type} (f : A -> result B) (xs : list A) :
  forall ys, map_result f xs = Ok ys -> List.length ys = List.length xs.
Proof.
  induction xs as [| x xs IH]; intros ys; cbn [map_result].
  - intros H. now injection H as <-.
  - destruct (f x) as [y | |]; cbn [bind]; try discriminate.
    destruct (map_result f xs) as [ys' | |]; cbn [bind]; try discriminate.
    intros H. injection H as <-. cbn. now rewrite (IH ys').
Qed.

Lemma map_result_forallb {A B : Type} (f : A -> result B) (p : B -> bool)
    (xs : list A) :
  (forall x y, In x xs -> f x = Ok y -> p y = true) ->
  forall ys, map_result f xs = Ok ys -> forallb p ys = true.
Proof.
  induction xs as [| x xs IH]; intros Hf ys; cbn [map_result].
  - intros H. now injection H as <-.
  - destruct (f x) as [y | |] eqn:Hy; cbn [bind]; try discriminate.
    destruct (map_result f xs) as [ys' | |]; cbn [bind]; try discriminate.
    intros H. injection H as <-. cbn [forallb].
    rewrite (Hf x y (or_introl eq_refl) Hy).
    apply IH; [| reflexivity]. intros x' y' Hin. apply Hf. now right.
Qed.

Lemma smart_split_nonempty (expression seperator : string)
    (delimiters : list (string * string)) :
  smart_split expression seperator delimiters <> [].
Proof. apply smart_split_loop_nonempty. Qed.

Lemma map_result_nonempty {A B : Type} (f : A -> result B) (xs : list A)
    (ys : list B) :
  xs <> [] -> map_result f xs = Ok ys -> nonempty ys = true.
Proof.
  intros Hxs H. apply map_result_length in H.
  destruct ys; [destruct xs; [congruence | discriminate] | reflexivity].
Qed.

(** [dict(pairs)] *)

Section DictOfPairs.

Context {V : Type}.
Variable p : V -> bool.

Lemma set_keys (d : list (string * V)) (key : string) (v : V) :
  map fst (PyDict.set d key v)
  = if existsb (String.eqb key) (map fst d) then map fst d
    else (map fst d ++ [key])%list.
Proof.
  induction d as [| [k w] d IH]; cbn [PyDict.set map fst existsb app]; [reflexivity |].
  rewrite (String.eqb_sym key k).
  destruct (String.eqb k key); cbn [orb map fst]; [reflexivity |].
  rewrite IH. now destruct (existsb _ _).
Qed.

Lemma distinct_snoc (keys : list string) (key : string) :
  distinct keys = true ->
  existsb (String.eqb key) keys = false ->
  distinct (keys ++ [key]) = true.
Proof.
  induction keys as [| k keys IH]; cbn [distinct existsb app]; [reflexivity |].
  intros Hd Hk. apply andb_prop in Hd as [Hk' Hd].
  apply orb_false_iff in Hk as [Hkk Hk].
  rewrite (IH Hd Hk), andb_true_r, existsb_app. cbn [existsb].
  apply negb_true_iff in Hk'. rewrite Hk', (String.eqb_sym k key), Hkk.
  reflexivity.
Qed.

Lemma set_distinct (d : list (string * V)) (key : string) (v : V) :
  distinct (map fst d) = true ->
  distinct (map fst (PyDict.set d key v)) = true.
Proof.
  intros Hd. rewrite set_keys.
  destruct (existsb (String.eqb key) (map fst d)) eqn:Hin;
    [exact Hd | now apply distinct_snoc].
Qed.

Lemma set_values (d : list (string * V)) (key : string) (v : V) :
  forallb (fun kv => p (snd kv)) d = true -> p v = true ->
  forallb (fun kv => p (snd kv)) (PyDict.set d key v) = true.
Proof.
  intros Hd Hv. induction d as [| [k w] d IH]; cbn [PyDict.set forallb snd] in *.
  - now rewrite Hv.
  - apply andb_prop in Hd as [Hw Hd].
    destruct (String.eqb k key); cbn [forallb snd].
    + now rewrite Hv, Hd.
    + now rewrite Hw, IH.
Qed.

Lemma set_nonempty (d : list (string * V)) (key : string) (v : V) :
  nonempty (PyDict.set d key v) = true.
Proof.
  destruct d as [| [k w] d]; cbn [PyDict.set]; [reflexivity |].
  now destruct (String.eqb k key).
Qed.

Lemma fold_set_invariant (pairs : list (string * V)) :
  forall d,
    distinct (map fst d) = true ->
    forallb (fun kv => p (snd kv)) d = true ->
    forallb (fun kv => p (snd kv)) pairs = true ->
    let d' := fold_left (fun d kv => PyDict.set d (fst kv) (snd kv)) pairs d in
    distinct (map fst d') = true
    /\ forallb (fun kv => p (snd kv)) d' = true
    /\ (nonempty pairs || nonempty d = true -> nonempty d' = true).
Proof.
  induction pairs as [| [k v] pairs IH]; intros d Hd Hp Hpairs; cbn [fold_left].
  - split; [exact Hd | split; [exact Hp | intros H; exact H]].
  - cbn [forallb snd fst] in *. apply andb_prop in Hpairs as [Hv Hpairs].
    destruct (IH (PyDict.set d k v)) as (H1 & H2 & H3);
      [now apply set_distinct | now apply set_values | exact Hpairs |].
    split; [exact H1 | split; [exact H2 |]].
    intros _. apply H3. rewrite set_nonempty. apply orb_true_r.
Qed.

Lemma of_pairs_invariant (pairs : list (string * V)) :
  forallb (fun kv => p (snd kv)) pairs = true ->
  distinct (map fst (PyDict.of_pairs pairs)) = true
  /\ forallb (fun kv => p (snd kv)) (PyDict.of_pairs pairs) = true
  /\ (nonempty pairs = true -> nonempty (PyDict.of_pairs pairs) = true).
Proof.
  intros Hpairs.
  destruct (fold_set_invariant pairs [] eq_refl eq_refl Hpairs) as (H1 & H2 & H3).
  split; [exact H1 | split; [exact H2 |]].
  intros Hne. apply H3. now rewrite Hne.
Qed.

End DictOfPairs.

Section ParserInvariant.

Variable parse : string -> result Expression.
Hypothesis parse_well_formed :
  forall s e, parse s = Ok e -> well_formed e = true.

Lemma StringExpression_try_parse_well_formed (expression : string) (e : Expression) :
  StringExpression.try_parse expression = Some e -> well_formed e = true.
Proof.
  intros H. apply StringExpression_try_parse_spec in H as (_ & _ & _ & ->).
  reflexivity.
Qed.

Lemma BoolExpression_try_parse_well_formed (expression : string) (e : Expression) :
  BoolExpression.try_parse expression = Some e -> well_formed e = true.
Proof.
  unfold BoolExpression.try_parse.
  destruct (_ || _); [intros H; now injection H as <- |].
  destruct (_ || _); [intros H; now injection H as <- | discriminate].
Qed.

Lemma IntExpression_try_parse_well_formed (expression : string) (e : Expression) :
  IntExpression.try_parse expression = Ok (Some e) -> well_formed e = true.
Proof.
  unfold IntExpression.try_parse, py_int.
  destruct (Py.isnumeric expression); [| discriminate].
  destruct (_ <=? _)%nat; cbn [bind]; [| discriminate].
  intros H. injection H as <-. cbn [well_formed].
  apply Z.leb_le, int_digits_nonneg. lia.
Qed.

Lemma NoneExpression_try_parse_well_formed (expression : string) (e : Expression) :
  NoneExpression.try_parse expression = Some e -> well_formed e = true.
Proof.
  unfold NoneExpression.try_parse.
  destruct (_ || _); [intros H; now injection H as <- | discriminate].
Qed.

Lemma VariableExpression_try_parse_well_formed (expression : string) (e : Expression) :
  VariableExpression.try_parse expression = Some e -> well_formed e = true.
Proof.
  unfold VariableExpression.try_parse.
  destruct (Py.isidentifier expression) eqn:Hid; [| discriminate].
  intros H. now injection H as <-.
Qed.

Lemma ArrayExpression_try_parse_well_formed (expression : string) (e : Expression) :
  ArrayExpression_try_parse parse expression = Ok (Some e) ->
  well_formed e = true.
Proof.
  unfold ArrayExpression_try_parse.
  destruct (negb _); [discriminate |].
  destruct (map_result parse _) as [elements | |] eqn:Hmap; cbn [bind];
    try discriminate.
  intros H. injection H as <-. cbn [well_formed].
  rewrite (map_result_nonempty _ _ _ (smart_split_nonempty _ _ _) Hmap).
  eapply map_result_forallb; [| exact Hmap].
  intros part y _. apply parse_well_formed.
Qed.

Lemma split_part_well_formed (part key : string) (val : Expression) :
  split_part parse part = Ok (key, val) -> well_formed val = true.
Proof.
  unfold split_part. destruct (Py.find ":" part) as [seperator |]; [| discriminate].
  destruct (parse _) as [v | |] eqn:Hv; cbn [bind]; try discriminate.
  intros H. injection H as _ <-. exact (parse_well_formed _ _ Hv).
Qed.

Lemma DictExpression_try_parse_well_formed (expression : string) (e : Expression) :
  DictExpression_try_parse parse expression = Ok (Some e) ->
  well_formed e = true.
Proof.
  unfold DictExpression_try_parse, dict_items.
  destruct (negb _); [discriminate |].
  destruct (map_result (split_part parse) _) as [pairs | |] eqn:Hmap; cbn [bind];
    try discriminate.
  intros H. injection H as <-. cbn [well_formed].
  assert (Hvalues : forallb (fun kv => well_formed (snd kv)) pairs = true).
  { eapply map_result_forallb; [| exact Hmap].
    intros part [key val] _ Hpart. exact (split_part_well_formed _ _ _ Hpart). }
  destruct (of_pairs_invariant well_formed pairs Hvalues) as (Hkeys & Hvals & Hne).
  rewrite Hkeys, Hvals, Hne; [reflexivity |].
  exact (map_result_nonempty _ _ _ (smart_split_nonempty _ _ _) Hmap).
Qed.

Lemma PropertyExpression_try_parse_well_formed (expression : string)
    (e : Expression) :
  PropertyExpression_try_parse parse expression = Ok (Some e) ->
  well_formed e = true.
Proof.
  unfold PropertyExpression_try_parse.
  destruct (smart_split expression "." common_delimiters) as [| part0 [| key keys]];
    try discriminate.
  destruct (parse part0) as [root | |] eqn:Hroot; cbn [bind]; try discriminate.
  destruct (forallb Py.isidentifier (key :: keys)) eqn:Hkeys; cbn [negb];
    [| discriminate].
  pose proof (parse_well_formed _ _ Hroot) as Hwf.
  destruct (is_SettableExpression root) eqn:Hset; intros H; injection H as <-;
    cbn [well_formed nonempty]; rewrite Hkeys, Hset, Hwf; reflexivity.
Qed.

Lemma parse_variants_well_formed (expression : string) (e : Expression) :
  parse_variants parse expression = Ok e -> well_formed e = true.
Proof.
  unfold parse_variants, parse_after_dict, or_else_try.
  destruct (StringExpression.try_parse expression) eqn:H1; cbn [or_else].
  { intros H; injection H as <-. eapply StringExpression_try_parse_well_formed; eauto. }
  destruct (BoolExpression.try_parse expression) eqn:H2; cbn [or_else].
  { intros H; injection H as <-. eapply BoolExpression_try_parse_well_formed; eauto. }
  destruct (IntExpression.try_parse expression) as [[n |] | |] eqn:H3;
    cbn [bind or_else]; try discriminate.
  { intros H; injection H as <-. eapply IntExpression_try_parse_well_formed; eauto. }
  destruct (NoneExpression.try_parse expression) eqn:H4; cbn [or_else].
  { intros H; injection H as <-. eapply NoneExpression_try_parse_well_formed; eauto. }
  destruct (ArrayExpression_try_parse parse expression) as [[a |] | |] eqn:H5;
    cbn [bind or_else]; try discriminate.
  { intros H; injection H as <-. eapply ArrayExpression_try_parse_well_formed; eauto. }
  destruct (DictExpression_try_parse parse expression) as [[d |] | |] eqn:H6;
    cbn [bind or_else]; try discriminate.
  { intros H; injection H as <-. eapply DictExpression_try_parse_well_formed; eauto. }
  destruct (VariableExpression.try_parse expression) eqn:H7; cbn [or_else].
  { intros H; injection H as <-. eapply VariableExpression_try_parse_well_formed; eauto. }
  destruct (PropertyExpression_try_parse parse expression) as [[q |] | |] eqn:H8;
    cbn [bind or_else]; try discriminate.
  intros H; injection H as <-. eapply PropertyExpression_try_parse_well_formed; eauto.
Qed.

Lemma parse_expression_body_well_formed (expression : string) (e : Expression) :
  parse_expression_body parse expression = Ok e -> well_formed e = true.
Proof.
  unfold parse_expression_body.
  destruct (remove_whitespaces_on_boundaries expression) as [t | |]; cbn [bind];
    try discriminate.
  destruct (Py.first t) as [c0 |]; [| discriminate].
  destruct (_ && _); [apply parse_well_formed | apply parse_variants_well_formed].
Qed.

End ParserInvariant.

Lemma parse_expression_fuel_well_formed :
  forall fuel expression e,
    parse_expression_fuel fuel expression = Ok e -> well_formed e = true.
Proof.
  induction fuel as [| fuel IH]; intros expression e; cbn [parse_expression_fuel].
  - discriminate.
  - apply parse_expression_body_well_formed. exact IH.
Qed.

(** X14: every node [parse_expression] returns is well formed: the asserts
    of the constructors hold throughout the tree (Variable names are
    identifiers, key paths are non-empty), key paths are made of identifiers,
    SettableProperty is used exactly for settable roots, Ints are not
    negative, Arrays and Dicts are not empty and Dict keys are distinct. *)
Theorem parse_expression_well_formed (expression : string) (e : Expression) :
  parse_expression expression = Ok e -> well_formed e = true.
Proof.
  unfold parse_expression. apply parse_expression_fuel_well_formed.
Qed.

Lemma parse_expression_well_formed_witness :
  parse_expression "{k:[x.y,'z'],k:(None).n}"
  = Ok (DictExpression
          [("k", PropertyExpression NoneExpression ["n"])])
  /\ well_formed (DictExpression
                    [("k", PropertyExpression NoneExpression ["n"])]) = true.
Proof.
  split; [reflexivity |].
  apply (parse_expression_well_formed "{k:[x.y,'z'],k:(None).n}").
  reflexivity.
Defined.

(** ** Code generation and hooks *)

Lemma flat_map_nested {A B C : Type} (f : A -> list B) (g : B -> list C)
    (l : list A) :
  flat_map g (flat_map f l) = flat_map (fun x => flat_map g (f x)) l.
Proof.
  induction l as [| x l IH]; cbn [flat_map]; [reflexivity |].
  now rewrite flat_map_app, IH.
Qed.

Lemma resolved_app (ctx : ReactContext) (names names' : list string) :
  resolved ctx (names ++ names') = (resolved ctx names ++ resolved ctx names')%list.
Proof. apply flat_map_app. Qed.

Lemma depth_element (x : Expression) (elements : list Expression) :
  In x elements ->
  depth x <= fold_right (fun x m => Nat.max (depth x) m) 0 elements.
Proof.
  induction elements as [| y elements IH]; intros Hin; [contradiction |].
  cbn [fold_right]. destruct Hin as [-> | Hin]; [lia |].
  specialize (IH Hin). lia.
Qed.

Lemma depth_item (kv : string * Expression) (items : list (string * Expression)) :
  In kv items ->
  depth (snd kv) <= fold_right (fun kv m => Nat.max (depth (snd kv)) m) 0 items.
Proof.
  induction items as [| y items IH]; intros Hin; [contradiction |].
  cbn [fold_right]. destruct Hin as [-> | Hin]; [lia |].
  specialize (IH Hin). lia.
Qed.

(** Every item is evaluated with success and contributes the hooks [g]. *)
Lemma map_result_hooks {A : Type} (f : A -> result (string * list ReactHook))
    (g : A -> list ReactHook) (xs : list A) :
  (forall x, In x xs -> exists js, f x = Ok (js, g x)) ->
  exists rs, map_result f xs = Ok rs /\ concat (map snd rs) = flat_map g xs.
Proof.
  induction xs as [| x xs IH]; intros Hf.
  - exists []. split; reflexivity.
  - destruct (Hf x (or_introl eq_refl)) as (js & Hx).
    destruct IH as (rs & Hrs & Hhooks); [intros y Hy; apply Hf; now right |].
    exists ((js, g x) :: rs). cbn [map_result]. rewrite Hx, Hrs. cbn.
    now rewrite Hhooks.
Qed.

Lemma eval_js_and_hooks_with_context (ctx : ReactContext) :
  forall fuel e,
    depth e < fuel ->
    printable e = true ->
    exists js,
      eval_js_and_hooks fuel (Some ctx) e = Ok (js, resolved ctx (variables e)).
Proof.
  induction fuel as [| fuel IH]; intros e Hdepth Hprint; [lia |].
  destruct e as [val | val | val | | elements | items | var_name | root keys | root keys];
    cbn [eval_js_and_hooks variables depth printable] in *.
  - eexists; reflexivity.
  - unfold py_str. rewrite Hprint. eexists; reflexivity.
  - eexists; reflexivity.
  - eexists; reflexivity.
  - rewrite forallb_forall in Hprint.
    destruct (map_result_hooks (eval_js_and_hooks fuel (Some ctx))
                (fun x => resolved ctx (variables x)) elements) as (rs & Hrs & Hhooks).
    { intros x Hx. apply IH; [| now apply Hprint].
      pose proof (depth_element x elements Hx). lia. }
    rewrite Hrs. cbn [bind]. eexists. f_equal. f_equal.
    rewrite Hhooks. unfold resolved. now rewrite flat_map_nested.
  - rewrite forallb_forall in Hprint.
    destruct (map_result_hooks
                (fun kv : string * Expression =>
                   r <- eval_js_and_hooks fuel (Some ctx) (snd kv) ;;
                   Ok (fst kv ++ ":" ++ fst r, snd r))
                (fun kv => resolved ctx (variables (snd kv))) items)
      as (rs & Hrs & Hhooks).
    { intros kv Hkv.
      destruct (IH (snd kv)) as (js & Hjs);
        [pose proof (depth_item kv items Hkv); lia | now apply Hprint |].
      rewrite Hjs. cbn [bind fst snd]. eexists; reflexivity. }
    rewrite Hrs. cbn [bind]. eexists. f_equal. f_equal.
    rewrite Hhooks. unfold resolved. now rewrite flat_map_nested.
  - unfold resolved. cbn [VariableExpression.var bind flat_map].
    destruct (search_var ctx var_name) as [var |].
    + eexists; reflexivity.
    + destruct fuel as [| fuel]; [lia |]. eexists; reflexivity.
  - destruct (IH root) as (js & Hjs); [lia | exact Hprint |].
    rewrite Hjs. cbn [bind fst snd]. eexists; reflexivity.
  - destruct (IH root) as (js & Hjs); [lia | exact Hprint |].
    rewrite Hjs. cbn [bind fst snd]. eexists; reflexivity.
Qed.






Lemma map_result_no_context {A : Type} (f : A -> result (string * list ReactHook))
    (names : A -> list string) (err : exn) (xs : list A) :
  (forall x, In x xs ->
     match names x with
     | [] => exists js, f x = Ok (js, [])
     | _ :: _ => f x = Raise err
     end) ->
  match flat_map names xs with
  | [] => exists rs, map_result f xs = Ok rs /\ concat (map snd rs) = []
  | _ :: _ => map_result f xs = Raise err
  end.
Proof.
  induction xs as [| x xs IH]; intros Hf.
  - exists []. split; reflexivity.
  - pose proof (Hf x (or_introl eq_refl)) as Hx.
    specialize (IH (fun y Hy => Hf y (or_intror Hy))).
    cbn [flat_map map_result].
    destruct (names x) as [| name rest].
    + destruct Hx as (js & ->). cbn [app bind].
      destruct (flat_map names xs) as [| name rest].
      * destruct IH as (rs & -> & Hhooks). cbn [bind].
        exists ((js, []) :: rs). split; [reflexivity | exact Hhooks].
      * now rewrite IH.
    + cbn [app]. now rewrite Hx.
Qed.

Lemma eval_js_and_hooks_without_context :
  forall fuel e,
    depth e < fuel ->
    printable e = true ->
    match variables e with
    | [] => exists js, eval_js_and_hooks fuel None e = Ok (js, [])
    | _ :: _ =>
        eval_js_and_hooks fuel None e = Raise (PyException no_context_message)
    end.
Proof.
  induction fuel as [| fuel IH]; intros e Hdepth Hprint; [lia |].
  destruct e as [val | val | val | | elements | items | var_name | root keys | root keys];
    cbn [eval_js_and_hooks variables depth printable] in *.
  - eexists; reflexivity.
  - unfold py_str. rewrite Hprint. eexists; reflexivity.
  - eexists; reflexivity.
  - eexists; reflexivity.
  - rewrite forallb_forall in Hprint.
    assert (Helements : forall x, In x elements ->
              match variables x with
              | [] => exists js, eval_js_and_hooks fuel None x = Ok (js, [])
              | _ :: _ =>
                  eval_js_and_hooks fuel None x
                  = Raise (PyException no_context_message)
              end).
    { intros x Hx. apply IH; [| now apply Hprint].
      pose proof (depth_element x elements Hx). lia. }
    pose proof (map_result_no_context (eval_js_and_hooks fuel None) variables
                  (PyException no_context_message) elements Helements) as Hmap.
    destruct (flat_map variables elements) as [| name rest].
    + destruct Hmap as (rs & -> & Hhooks).
      cbn [bind]. rewrite Hhooks. eexists; reflexivity.
    + now rewrite Hmap.
  - rewrite forallb_forall in Hprint.
    assert (Hitems : forall kv, In kv items ->
              match variables (snd kv) with
              | [] => exists js,
                  (r <- eval_js_and_hooks fuel None (snd kv) ;;
                   Ok (fst kv ++ ":" ++ fst r, snd r)) = Ok (js, [])
              | _ :: _ =>
                  (r <- eval_js_and_hooks fuel None (snd kv) ;;
                   Ok (fst kv ++ ":" ++ fst r, snd r))
                  = Raise (PyException no_context_message)
              end).
    { intros kv Hkv.
      assert (Hd : depth (snd kv) < fuel)
        by (pose proof (depth_item kv items Hkv); lia).
      specialize (IH (snd kv) Hd (Hprint kv Hkv)).
      destruct (variables (snd kv)) as [| name rest].
      - destruct IH as (js & ->). cbn [bind fst snd]. eexists; reflexivity.
      - now rewrite IH. }
    pose proof (map_result_no_context
                  (fun kv : string * Expression =>
                     r <- eval_js_and_hooks fuel None (snd kv) ;;
                     Ok (fst kv ++ ":" ++ fst r, snd r))
                  (fun kv => variables (snd kv))
                  (PyException no_context_message) items Hitems) as Hmap.
    destruct (flat_map (fun kv => variables (snd kv)) items) as [| name rest].
    + destruct Hmap as (rs & -> & Hhooks).
      cbn [bind]. rewrite Hhooks. eexists; reflexivity.
    + now rewrite Hmap.
  - reflexivity.
  - assert (Hd : depth root < fuel) by lia.
    specialize (IH root Hd Hprint).
    destruct (variables root) as [| name rest].
    + destruct IH as (js & ->). cbn [bind fst snd]. eexists; reflexivity.
    + now rewrite IH.
  - assert (Hd : depth root < fuel) by lia.
    specialize (IH root Hd Hprint).
    destruct (variables root) as [| name rest].
    + destruct IH as (js & ->). cbn [bind fst snd]. eexists; reflexivity.
    + now rewrite IH.
Qed.

(** X16: without a reactive context, and on a tree whose Ints are within the
    digit limit of [str], code generation returns, with no hook, exactly when
    the tree has no Variable node; on a tree with one it raises the exception
    of [VariableExpression.var]. *)
Theorem eval_js_and_hooks_needs_context (e : Expression) (fuel : nat) :
  depth e < fuel ->
  printable e = true ->
  (variables e = [] -> exists js, eval_js_and_hooks fuel None e = Ok (js, []))
  /\ (variables e <> [] ->
      eval_js_and_hooks fuel None e = Raise (PyException no_context_message)).
Proof.
  intros Hdepth Hprint.
  pose proof (eval_js_and_hooks_without_context fuel e Hdepth Hprint) as H.
  destruct (variables e) as [| name rest].
  - split; [intros _; exact H | congruence].
  - split; [discriminate | intros _; exact H].
Qed.

Lemma eval_js_and_hooks_needs_context_witness :
  (exists js,
     eval_js_and_hooks 3 None (ArrayExpression [IntExpression 1; StringExpression "a"])
     = Ok (js, []))
  /\ eval_js_and_hooks 4 None
       (ArrayExpression [IntExpression 1; PropertyExpression (VariableExpression "x") ["k"]])
     = Raise (PyException no_context_message).
Proof.
  split.
  - apply (proj1 (eval_js_and_hooks_needs_context
                    (ArrayExpression [IntExpression 1; StringExpression "a"]) 3
                    ltac:(cbn [depth fold_right Nat.max]; lia) eq_refl)).
    reflexivity.
  - apply (proj2 (eval_js_and_hooks_needs_context
                    (ArrayExpression
                       [IntExpression 1;
                        PropertyExpression (VariableExpression "x") ["k"]]) 4
                    ltac:(cbn [depth fold_right Nat.max]; lia) eq_refl)).
    discriminate.
Defined.

(** ** Trees without variables *)

Lemma flat_map_nil {A B : Type} (f : A -> list B) (l : list A) :
  flat_map f l = [] -> forall x, In x l -> f x = [].
Proof.
  induction l as [| y l IH]; cbn [flat_map]; intros H x Hin; [contradiction |].
  apply app_eq_nil in H as [Hy Hl].
  destruct Hin as [<- | Hin]; [exact Hy | now apply IH].
Qed.

(** X17: a tree without a Variable node has the same initial value and the
    same generated code and hooks under any two reactive contexts, present or
    absent. *)
Theorem literal_tree_ignores_context (c c' : option ReactContext) :
  forall fuel e,
    variables e = [] ->
    eval_initial fuel c e = eval_initial fuel c' e
    /\ eval_js_and_hooks fuel c e = eval_js_and_hooks fuel c' e.
Proof.
  induction fuel as [| fuel IH]; intros e Hvars; [split; reflexivity |].
  destruct e as [val | val | val | | elements | items | var_name | root keys | root keys];
    cbn [variables] in Hvars; cbn [eval_initial eval_js_and_hooks];
    try (split; reflexivity); try discriminate.
  - pose proof (flat_map_nil _ _ Hvars) as Helems.
    rewrite (map_result_ext (eval_initial fuel c) (eval_initial fuel c'))
      by (intros x Hx; now apply IH, Helems).
    rewrite (map_result_ext (eval_js_and_hooks fuel c) (eval_js_and_hooks fuel c'))
      by (intros x Hx; now apply IH, Helems).
    split; reflexivity.
  - pose proof (flat_map_nil _ _ Hvars) as Hitems.
    split.
    + match goal with
      | |- bind (map_result ?f items) _ = bind (map_result ?g items) _ =>
          rewrite (map_result_ext f g); [reflexivity |]
      end.
      intros kv Hkv. cbn beta.
      now rewrite (proj1 (IH (snd kv) (Hitems kv Hkv))).
    + match goal with
      | |- bind (map_result ?f items) _ = bind (map_result ?g items) _ =>
          rewrite (map_result_ext f g); [reflexivity |]
      end.
      intros kv Hkv. cbn beta.
      now rewrite (proj2 (IH (snd kv) (Hitems kv Hkv))).
  - destruct (IH root Hvars) as [-> ->]. split; reflexivity.
  - destruct (IH root Hvars) as [-> ->]. split; reflexivity.
Qed.

Lemma literal_tree_ignores_context_witness :
  let x := mkReactVar (IntExpression 7) "x.get()" (fun code => code) "x.notify()" in
  let ctx := mkReactContext (fun name => Some x) in
  let e := DictExpression [("a", ArrayExpression [IntExpression 1; NoneExpression])] in
  eval_initial 3 (Some ctx) e = eval_initial 3 None e
  /\ eval_js_and_hooks 3 (Some ctx) e = eval_js_and_hooks 3 None e.
Proof.
  intros x ctx e.
  apply (literal_tree_ignores_context (Some ctx) None 3 e). reflexivity.
Defined.

(** ** Walking a property path *)

(** X18: the first key of a property path is looked up in the value of the
    root as follows.  In a dict, a missing key raises the TemplateSyntaxError
    that names the expression, a present key leads on to the rest of the
    path.  In a list or a str the key is searched as an item or a substring:
    found, indexing by it raises TypeError; not found, the same
    TemplateSyntaxError.  On an int, a bool or None the test itself raises
    TypeError. *)
Theorem property_first_key (fuel : nat) (react_context : option ReactContext)
    (root : Expression) (key : string) (rest : list string) (v : ReactValType) :
  eval_initial fuel react_context root = Ok v ->
  let self := PropertyExpression root (key :: rest) in
  let no_key := Raise (TemplateSyntaxError (NoSuchKey (Expression_str self))) in
  eval_initial (S fuel) react_context self
  = match v with
    | VDict items =>
        match PyDict.get items key with
        | Some next =>
            _ <- PropertyExpression.walk (Expression_str self) next rest ;; Ok VNone
        | None => no_key
        end
    | VList items => if existsb (val_is_str key) items then Raise TypeError else no_key
    | VStr s => if Py.contains key s then Raise TypeError else no_key
    | VInt _ | VBool _ | VNone => Raise TypeError
    end.
Proof.
  intros Hroot self no_key. subst self no_key.
  cbn [eval_initial]. rewrite Hroot. cbn [bind PropertyExpression.walk].
  destruct v as [s | n | b | | items | items]; cbn [py_in bind py_getitem];
    try reflexivity.
  - now destruct (Py.contains key s).
  - now destruct (existsb (val_is_str key) items).
  - unfold PyDict.mem. now destruct (PyDict.get items key).
Qed.

Lemma property_first_key_witness :
  let x := mkReactVar (DictExpression [("a", IntExpression 1)]) "x.get()"
             (fun code => code) "x.notify()" in
  let ctx := mkReactContext (fun name => if String.eqb name "x" then Some x else None) in
  eval_initial 4 (Some ctx) (PropertyExpression (VariableExpression "x") ["b"; "c"])
  = Raise (TemplateSyntaxError (NoSuchKey "(x).b.c"))
  /\ eval_initial 3 None
       (PropertyExpression (ArrayExpression [StringExpression "b"]) ["b"])
     = Raise TypeError.
Proof.
  intros x ctx. split.
  - apply (property_first_key 3 (Some ctx) (VariableExpression "x")
             "b" ["c"] (VDict [("a", VInt 1)])).
    reflexivity.
  - apply (property_first_key 2 None (ArrayExpression [StringExpression "b"])
             "b" [] (VList [VStr "b"])).
    reflexivity.
Defined.

(** ** Notification of a settable path *)

Lemma js_notify_base (react_context : option ReactContext) :
  forall e name,
    settable_base e = Some name ->
    js_notify react_context e = js_notify react_context (VariableExpression name).
Proof.
  fix IH 1.
  intros [val | val | val | | elements | items | var_name | root keys | root keys] name;
    cbn [settable_base js_notify]; try discriminate.
  - intros H. now injection H as ->.
  - apply IH.
Qed.

Lemma well_formed_settable_base :
  forall e,
    well_formed e = true -> is_SettableExpression e = true ->
    exists name, settable_base e = Some name /\ Py.isidentifier name = true.
Proof.
  fix IH 1.
  intros [val | val | val | | elements | items | var_name | root keys | root keys];
    cbn [well_formed is_SettableExpression settable_base]; try discriminate.
  - intros H _. now exists var_name.
  - intros H _. apply andb_prop in H as [H Hroot].
    apply andb_prop in H as [_ Hset]. now apply IH.
Qed.

Lemma settable_base_printable :
  forall e name, settable_base e = Some name -> printable e = true.
Proof.
  fix IH 1.
  intros [val | val | val | | elements | items | var_name | root keys | root keys] name;
    cbn [settable_base printable]; try discriminate.
  - reflexivity.
  - apply IH.
Qed.

(** X19: every settable node the parser returns is a chain of
    SettableProperty nodes over one Variable, and its notification is that of
    this Variable: the [js_notify] code of the reactive variable when the name
    resolves, the TemplateSyntaxError naming it otherwise. *)
Theorem parsed_settable_notifies_base (expression : string) (e : Expression) :
  parse_expression expression = Ok e ->
  is_SettableExpression e = true ->
  exists name,
    settable_base e = Some name
    /\ Py.isidentifier name = true
    /\ forall ctx,
         js_notify (Some ctx) e
         = match search_var ctx name with
           | Some var => Ok (var_js_notify var)
           | None => Raise (TemplateSyntaxError (NoReactiveVariable name))
           end.
Proof.
  intros Hparse Hset.
  pose proof (parse_expression_fuel_well_formed _ _ _ Hparse) as Hwf.
  destruct (well_formed_settable_base e Hwf Hset) as (name & Hbase & Hid).
  exists name. split; [exact Hbase | split; [exact Hid |]].
  intros ctx. rewrite (js_notify_base (Some ctx) e name Hbase).
  cbn [js_notify VariableExpression.var bind].
  now destruct (search_var ctx name).
Qed.

Lemma parsed_settable_notifies_base_witness :
  exists name,
    settable_base (SettablePropertyExpression
                     (SettablePropertyExpression (VariableExpression "x") ["y"]) ["z"])
    = Some name
    /\ Py.isidentifier name = true
    /\ forall ctx,
         js_notify (Some ctx)
           (SettablePropertyExpression
              (SettablePropertyExpression (VariableExpression "x") ["y"]) ["z"])
         = match search_var ctx name with
           | Some var => Ok (var_js_notify var)
           | None => Raise (TemplateSyntaxError (NoReactiveVariable name))
           end.
Proof.
  apply (parsed_settable_notifies_base "(x.y).z"); reflexivity.
Defined.

(** X20: on a settable path whose Variable does not resolve, [js_set] and
    [js_notify] raise the TemplateSyntaxError that names the variable,
    although the code of the path itself is generated (over the empty string
    literal, with no hook). *)
Theorem js_set_unresolved (ctx : ReactContext) (e : Expression) (name : string)
    (fuel : nat) (js_expression : string) :
  settable_base e = Some name ->
  search_var ctx name = None ->
  depth e < fuel ->
  js_set fuel (Some ctx) e js_expression
  = Raise (TemplateSyntaxError (NoReactiveVariable name))
  /\ js_notify (Some ctx) e = Raise (TemplateSyntaxError (NoReactiveVariable name))
  /\ exists js, eval_js_and_hooks fuel (Some ctx) e = Ok (js, []).
Proof.
  intros Hbase Hnone Hdepth.
  assert (Hnotify : js_notify (Some ctx) e
                    = Raise (TemplateSyntaxError (NoReactiveVariable name))).
  { rewrite (js_notify_base (Some ctx) e name Hbase).
    cbn [js_notify VariableExpression.var bind]. now rewrite Hnone. }
  destruct (eval_js_and_hooks_with_context ctx fuel e Hdepth
              (settable_base_printable e name Hbase)) as (js & Hjs).
  assert (Hvars : variables e = [name]).
  { clear - Hbase. revert e Hbase. fix IH 1.
    intros [val | val | val | | elements | items | var_name | root keys | root keys];
      cbn [settable_base variables]; try discriminate.
    - intros H. now injection H as ->.
    - apply IH. }
  rewrite Hvars in Hjs. unfold resolved in Hjs. cbn [flat_map app] in Hjs.
  rewrite Hnone in Hjs.
  split; [| split; [exact Hnotify | now exists js]].
  destruct e as [val | val | val | | elements | items | var_name | root keys | root keys];
    try discriminate.
  - cbn [settable_base] in Hbase. injection Hbase as ->.
    cbn [js_set VariableExpression.var bind]. now rewrite Hnone.
  - unfold js_set. rewrite Hjs. cbn [bind fst]. now rewrite Hnotify.
Qed.

Lemma js_set_unresolved_witness :
  let ctx := mkReactContext (fun name => None) in
  let e := SettablePropertyExpression (VariableExpression "x") ["y"] in
  js_set 3 (Some ctx) e "1" = Raise (TemplateSyntaxError (NoReactiveVariable "x"))
  /\ js_notify (Some ctx) e = Raise (TemplateSyntaxError (NoReactiveVariable "x"))
  /\ exists js, eval_js_and_hooks 3 (Some ctx) e = Ok (js, []).
Proof.
  intros ctx e.
  apply (js_set_unresolved ctx e "x" 3 "1"); [reflexivity | reflexivity |].
  subst e. cbn. lia.
Defined.

(** ** The length function on its arguments *)

Lemma property_value_None (fuel : nat) (react_context : option ReactContext)
    (root : Expression) (keys : list string) (v : ReactValType) :
  eval_initial fuel react_context (PropertyExpression root keys) = Ok v
  \/ eval_initial fuel react_context (SettablePropertyExpression root keys) = Ok v ->
  v = VNone.
Proof.
  destruct fuel as [| fuel]; [intros [H | H]; discriminate |].
  cbn [eval_initial].
  intros [H | H];
    destruct (eval_initial fuel react_context root) as [root_val | |];
    cbn [bind] in H; try discriminate;
    destruct (PropertyExpression.walk _ root_val keys); cbn [bind] in H;
    try discriminate; now injection H.
Qed.

(** X21: the length function rejects every argument list whose length is
    not one, in [eval_initial] and in [eval_js], before anything is evaluated;
    on one argument whose value is a list it returns the number of items; on a
    Property argument it raises TypeError whenever the argument evaluates,
    since that value is None. *)
Theorem LengthFunction_arguments (fuel : nat)
    (reactive_context : option ReactContext) (delimiter : string) :
  (forall args,
     List.length args <> 1 ->
     LengthFunction.eval_initial fuel reactive_context args
     = Raise (TemplateSyntaxError (LengthArity (List.length args)))
     /\ LengthFunction.eval_js fuel reactive_context delimiter args
        = Raise (TemplateSyntaxError (LengthArity (List.length args))))
  /\ (forall array items,
        eval_initial fuel reactive_context array = Ok (VList items) ->
        LengthFunction.eval_initial fuel reactive_context [array]
        = Ok (VInt (Z.of_nat (List.length items))))
  /\ (forall root keys v,
        eval_initial fuel reactive_context (PropertyExpression root keys) = Ok v ->
        LengthFunction.eval_initial fuel reactive_context [PropertyExpression root keys]
        = Raise TypeError).
Proof.
  split; [| split].
  - intros args Hlen.
    unfold LengthFunction.eval_initial, LengthFunction.eval_js,
      LengthFunction.validate_args.
    apply Nat.eqb_neq in Hlen. rewrite Hlen. split; reflexivity.
  - intros array items Hv. unfold LengthFunction.eval_initial.
    cbn [LengthFunction.validate_args List.length Nat.eqb bind LengthFunction.arg0].
    rewrite Hv. reflexivity.
  - intros root keys v Hv. unfold LengthFunction.eval_initial.
    cbn [LengthFunction.validate_args List.length Nat.eqb bind LengthFunction.arg0].
    rewrite Hv. cbn [bind].
    now rewrite (property_value_None _ _ _ _ _ (or_introl Hv)).
Qed.

Lemma LengthFunction_arguments_witness :
  LengthFunction.eval_initial 2 None [] = Raise (TemplateSyntaxError (LengthArity 0))
  /\ LengthFunction.eval_initial 2 None [ArrayExpression [NoneExpression; NoneExpression]]
     = Ok (VInt 2)
  /\ LengthFunction.eval_initial 4 None
       [PropertyExpression (DictExpression [("a", ArrayExpression [NoneExpression])]) ["a"]]
     = Raise TypeError.
Proof.
  split; [| split].
  - apply (proj1 (LengthFunction_arguments 2 None ",")). discriminate.
  - apply (proj1 (proj2 (LengthFunction_arguments 2 None ",")) _ [VNone; VNone]).
    reflexivity.
  - apply (proj2 (proj2 (LengthFunction_arguments 4 None ",")) _ _ VNone).
    reflexivity.
Defined.

(** ** Reduction *)

Lemma Expression_nested_ind (P : Expression -> Prop) :
  (forall val, P (StringExpression val)) ->
  (forall val, P (IntExpression val)) ->
  (forall val, P (BoolExpression val)) ->
  P NoneExpression ->
  (forall elements, Forall P elements -> P (ArrayExpression elements)) ->
  (forall items, Forall (fun kv => P (snd kv)) items -> P (DictExpression items)) ->
  (forall var_name, P (VariableExpression var_name)) ->
  (forall root keys, P root -> P (PropertyExpression root keys)) ->
  (forall root keys, P root -> P (SettablePropertyExpression root keys)) ->
  forall e, P e.
Proof.
  intros HS HI HB HN HA HD HV HP HSP. fix IH 1.
  intros [val | val | val | | elements | items | var_name | root keys | root keys].
  - apply HS.
  - apply HI.
  - apply HB.
  - apply HN.
  - apply HA. induction elements as [| x elements IHl]; constructor;
      [apply IH | exact IHl].
  - apply HD. induction items as [| kv items IHl]; constructor;
      [apply IH | exact IHl].
  - apply HV.
  - apply HP, IH.
  - apply HSP, IH.
Qed.

Lemma ReactValType_nested_ind (P : ReactValType -> Prop) :
  (forall s, P (VStr s)) ->
  (forall n, P (VInt n)) ->
  (forall b, P (VBool b)) ->
  P VNone ->
  (forall items, Forall P items -> P (VList items)) ->
  (forall items, Forall (fun kv => P (snd kv)) items -> P (VDict items)) ->
  forall v, P v.
Proof.
  intros HS HI HB HN HL HD. fix IH 1.
  intros [s | n | b | | items | items].
  - apply HS.
  - apply HI.
  - apply HB.
  - apply HN.
  - apply HL. induction items as [| x items IHl]; constructor;
      [apply IH | exact IHl].
  - apply HD. induction items as [| kv items IHl]; constructor;
      [apply IH | exact IHl].
Qed.

Section DictIdentity.

Context {V : Type}.

Lemma set_fresh (d : list (string * V)) (key : string) (v : V) :
  existsb (String.eqb key) (map fst d) = false ->
  PyDict.set d key v = (d ++ [(key, v)])%list.
Proof.
  induction d as [| [k w] d IH]; cbn [PyDict.set map fst existsb app]; [reflexivity |].
  intros H. apply orb_false_iff in H as [Hk Hd].
  rewrite String.eqb_sym, Hk. now rewrite IH.
Qed.

Lemma distinct_middle (keys : list string) (key : string) (rest : list string) :
  distinct (keys ++ key :: rest) = true ->
  existsb (String.eqb key) keys = false.
Proof.
  induction keys as [| k keys IH]; cbn [app distinct existsb]; [reflexivity |].
  intros H. apply andb_prop in H as [Hk Hd].
  apply negb_true_iff in Hk. rewrite existsb_app in Hk.
  apply orb_false_iff in Hk as [_ Hk]. cbn [existsb] in Hk.
  apply orb_false_iff in Hk as [Hk _].
  rewrite String.eqb_sym, Hk. cbn [orb]. now apply IH.
Qed.

Lemma fold_set_distinct (d : list (string * V)) :
  forall acc,
    distinct (map fst (acc ++ d)) = true ->
    fold_left (fun d kv => PyDict.set d (fst kv) (snd kv)) d acc = (acc ++ d)%list.
Proof.
  induction d as [| [k v] d IH]; intros acc Hd; cbn [fold_left fst snd].
  - now rewrite app_nil_r.
  - rewrite map_app in Hd. cbn [map fst] in Hd.
    rewrite set_fresh by exact (distinct_middle _ _ _ Hd).
    rewrite IH; rewrite <- app_assoc; [reflexivity |].
    now rewrite map_app.
Qed.

Lemma of_pairs_distinct (d : list (string * V)) :
  distinct (map fst d) = true -> PyDict.of_pairs d = d.
Proof. intros Hd. exact (fold_set_distinct d [] Hd). Qed.

End DictIdentity.

Lemma map_fixed {A : Type} (f : A -> A) (l : list A) :
  Forall (fun x => f x = x) l -> map f l = l.
Proof.
  induction 1 as [| x l Hx _ IH]; cbn [map]; [reflexivity | now rewrite Hx, IH].
Qed.

Lemma map_keys {A B : Type} (f : A -> B) (d : list (string * A)) :
  map fst (map (fun kv => (fst kv, f (snd kv))) d) = map fst d.
Proof. rewrite map_map. reflexivity. Qed.

Lemma reduce_unbound (template_context : template_Context) :
  forall e,
    proper e = true ->
    (forall name, In name (variables e) -> template_context name = None) ->
    reduce template_context e = e.
Proof.
  induction e as [val | val | val | | elements IH | items IH | var_name
                 | root keys IH | root keys IH] using Expression_nested_ind;
    intros Hproper Hfree; cbn [reduce proper variables] in *; try reflexivity.
  - f_equal. apply map_fixed. rewrite Forall_forall in *.
    intros x Hx. apply (IH x Hx).
    + rewrite forallb_forall in Hproper. now apply Hproper.
    + intros name Hname. apply Hfree, in_flat_map. now exists x.
  - apply andb_prop in Hproper as [Hkeys Hvals]. f_equal.
    rewrite of_pairs_distinct by now rewrite map_keys.
    apply map_fixed. rewrite Forall_forall in *.
    intros [k x] Hx. cbn [fst snd]. f_equal. apply (IH (k, x) Hx).
    + rewrite forallb_forall in Hvals. exact (Hvals (k, x) Hx).
    + intros name Hname. apply Hfree, in_flat_map. now exists (k, x).
  - now rewrite (Hfree var_name (or_introl eq_refl)).
  - f_equal. now apply IH.
  - f_equal. now apply IH.
Qed.

Lemma value_to_expression_literal :
  forall v,
    variables (value_to_expression v) = []
    /\ (proper_value v = true -> proper (value_to_expression v) = true).
Proof.
  induction v as [s | n | b | | items IH | items IH] using ReactValType_nested_ind;
    cbn [value_to_expression variables proper proper_value]; try (split; reflexivity).
  - split.
    + induction IH as [| x items [Hx _] _ IHl]; cbn [map flat_map]; [reflexivity |].
      now rewrite Hx, IHl.
    + intros Hproper. rewrite forallb_forall in *.
      intros e He. apply in_map_iff in He as (x & <- & Hx).
      rewrite Forall_forall in IH. apply (IH x Hx), Hproper, Hx.
  - split.
    + induction IH as [| x items [Hx _] _ IHl]; cbn [map flat_map snd]; [reflexivity |].
      now rewrite Hx, IHl.
    + intros Hproper. apply andb_prop in Hproper as [Hkeys Hvals].
      rewrite map_keys, Hkeys. cbn [andb]. rewrite forallb_forall in *.
      intros kv Hkv. apply in_map_iff in Hkv as (x & <- & Hx). cbn [snd].
      rewrite Forall_forall in IH. apply (IH x Hx), Hvals, Hx.
Qed.

Lemma reduce_result (template_context : template_Context) :
  (forall name v, template_context name = Some v -> proper_value v = true) ->
  forall e,
    proper e = true ->
    proper (reduce template_context e) = true
    /\ forall name, In name (variables (reduce template_context e)) ->
                    template_context name = None.
Proof.
  intros Hvalues.
  induction e as [val | val | val | | elements IH | items IH | var_name
                 | root keys IH | root keys IH] using Expression_nested_ind;
    intros Hproper; cbn [reduce proper variables] in *;
    try (split; [reflexivity | intros name []]).
  - rewrite forallb_forall in Hproper. rewrite Forall_forall in IH. split.
    + apply forallb_forall. intros e He. apply in_map_iff in He as (x & <- & Hx).
      now apply IH, Hproper.
    + intros name Hname. apply in_flat_map in Hname as (e & He & Hname).
      apply in_map_iff in He as (x & <- & Hx).
      exact (proj2 (IH x Hx (Hproper x Hx)) name Hname).
  - apply andb_prop in Hproper as [Hkeys Hvals].
    rewrite forallb_forall in Hvals. rewrite Forall_forall in IH.
    rewrite of_pairs_distinct by now rewrite map_keys. split.
    + rewrite map_keys, Hkeys. cbn [andb].
      apply forallb_forall. intros kv Hkv.
      apply in_map_iff in Hkv as (x & <- & Hx). cbn [snd].
      now apply IH, Hvals.
    + intros name Hname. apply in_flat_map in Hname as (kv & Hkv & Hname).
      apply in_map_iff in Hkv as (x & <- & Hx). cbn [snd] in Hname.
      exact (proj2 (IH x Hx (Hvals x Hx)) name Hname).
  - destruct (template_context var_name) as [v |] eqn:Hv.
    + destruct (value_to_expression_literal v) as [Hvars Hprop]. split.
      * apply Hprop. exact (Hvalues _ _ Hv).
      * rewrite Hvars. intros name [].
    + split; [reflexivity |]. cbn [variables].
      intros name [<- | []]. exact Hv.
  - now apply IH.
  - now apply IH.
Qed.

Lemma well_formed_proper :
  forall e, well_formed e = true -> proper e = true.
Proof.
  induction e as [val | val | val | | elements IH | items IH | var_name
                 | root keys IH | root keys IH] using Expression_nested_ind;
    cbn [well_formed proper]; trivial.
  - intros H. apply andb_prop in H as [_ H].
    rewrite forallb_forall in *. rewrite Forall_forall in IH.
    intros x Hx. now apply IH, H.
  - intros H. apply andb_prop in H as [H Hvals]. apply andb_prop in H as [_ Hkeys].
    rewrite Hkeys. cbn [andb].
    rewrite forallb_forall in *. rewrite Forall_forall in IH.
    intros x Hx. now apply IH, Hvals.
  - intros H. apply andb_prop in H as [_ H]. now apply IH.
  - intros H. apply andb_prop in H as [_ H]. now apply IH.
Qed.

(** X22: reducing a tree the parser returned against a template context
    that has none of the names of its Variable nodes gives the tree back. *)
Theorem reduce_parsed_unbound (template_context : template_Context)
    (expression : string) (e : Expression) :
  parse_expression expression = Ok e ->
  (forall name, In name (variables e) -> template_context name = None) ->
  reduce template_context e = e.
Proof.
  intros Hparse Hfree. apply reduce_unbound; [| exact Hfree].
  apply well_formed_proper.
  exact (parse_expression_fuel_well_formed _ _ _ Hparse).
Qed.

Lemma reduce_parsed_unbound_witness :
  let template_context : template_Context :=
    fun name => if String.eqb name "z" then Some (VInt 1) else None in
  let e := ArrayExpression
             [VariableExpression "x";
              DictExpression
                [("a", SettablePropertyExpression (VariableExpression "y") ["k"])]] in
  parse_expression "[x,{a:(y.k)}]" = Ok e
  /\ reduce template_context e = e.
Proof.
  intros template_context e.
  assert (Hparse : parse_expression "[x,{a:(y.k)}]" = Ok e) by reflexivity.
  split; [exact Hparse |].
  apply (reduce_parsed_unbound template_context "[x,{a:(y.k)}]" e Hparse).
  intros name [<- | [<- | []]]; reflexivity.
Defined.

(** X23: after a reduction no Variable node is left whose name the template
    context has, and reducing once more changes nothing.  The values of the
    context, like the tree, are taken to have distinct keys in each dict. *)
Theorem reduce_idempotent (template_context : template_Context) (e : Expression) :
  (forall name v, template_context name = Some v -> proper_value v = true) ->
  proper e = true ->
  (forall name, In name (variables (reduce template_context e)) ->
                template_context name = None)
  /\ reduce template_context (reduce template_context e)
     = reduce template_context e.
Proof.
  intros Hvalues Hproper.
  destruct (reduce_result template_context Hvalues e Hproper) as [Hp Hfree].
  split; [exact Hfree | now apply reduce_unbound].
Qed.

Lemma reduce_idempotent_witness :
  let template_context : template_Context :=
    fun name => if String.eqb name "x" then Some (VList [VInt 1; VStr "a"]) else None in
  let e := PropertyExpression
             (ArrayExpression [VariableExpression "x"; VariableExpression "y"]) ["k"] in
  reduce template_context e
  = PropertyExpression
      (ArrayExpression
         [ArrayExpression [IntExpression 1; StringExpression "a"];
          VariableExpression "y"]) ["k"]
  /\ reduce template_context (reduce template_context e) = reduce template_context e.
Proof.
  intros template_context e. split; [reflexivity |].
  apply (reduce_idempotent template_context e); [| reflexivity].
  intros name v. unfold template_context.
  destruct (String.eqb name "x"); [| discriminate].
  intros H. injection H as <-. reflexivity.
Defined.

Lemma value_to_expression_not_settable (react_context : option ReactContext)
    (v : ReactValType) :
  is_SettableExpression (value_to_expression v) = false
  /\ js_notify react_context (value_to_expression v) = Raise AttributeError.
Proof. destruct v; split; reflexivity. Qed.

(** X24: reduction keeps the class of a SettableProperty node also when it
    replaces the Variable under it by a literal: the reduced node still counts
    as settable, but its [js_notify] reaches a node without that method
    (AttributeError). *)
Theorem reduce_breaks_settable (template_context : template_Context)
    (react_context : option ReactContext) (name : string) (v : ReactValType) :
  template_context name = Some v ->
  forall root keys,
    settable_base root = Some name ->
    let reduced := reduce template_context (SettablePropertyExpression root keys) in
    is_SettableExpression reduced = true
    /\ js_notify react_context reduced = Raise AttributeError.
Proof.
  intros Hbound root keys Hbase reduced. subst reduced.
  split; [reflexivity |]. cbn [reduce js_notify].
  revert root Hbase. fix IH 1.
  intros [val | val | val | | elements | items | var_name | root keys' | root keys'];
    cbn [settable_base reduce js_notify]; try discriminate.
  - intros H. injection H as ->. rewrite Hbound.
    apply value_to_expression_not_settable.
  - apply IH.
Qed.

Lemma reduce_breaks_settable_witness :
  let template_context : template_Context :=
    fun name => if String.eqb name "x" then Some (VDict [("y", VInt 1)]) else None in
  let e := SettablePropertyExpression (VariableExpression "x") ["y"] in
  parse_expression "x.y" = Ok e
  /\ reduce template_context e
     = SettablePropertyExpression (DictExpression [("y", IntExpression 1)]) ["y"]
  /\ is_SettableExpression (reduce template_context e) = true
  /\ js_notify None (reduce template_context e) = Raise AttributeError.
Proof.
  intros template_context e.
  split; [reflexivity |]. split; [reflexivity |].
  apply (reduce_breaks_settable template_context None "x" (VDict [("y", VInt 1)]));
    reflexivity.
Defined.

(** ** The depth of the parser's recursion *)

(** X25: [parse_expression] comes back on every text, with a node or an
    exception: each of its recursive calls is on a shorter text, so a
    recursion depth above the length of the text is never exhausted and
    changes nothing in the result. *)
Theorem parse_expression_bounded (expression : string) (fuel : nat) :
  String.length expression < fuel ->
  parse_expression_fuel fuel expression = parse_expression expression
  /\ terminates (parse_expression_fuel fuel expression).
Proof.
  intros Hfuel. split.
  - unfold parse_expression. apply parse_expression_fuel_stable; lia.
  - apply parse_expression_fuel_terminates. exact Hfuel.
Qed.

Lemma parse_expression_bounded_witness :
  String.length "[(a.b), {k: [1, 2]}]" < 21
  /\ parse_expression_fuel 21 "[(a.b), {k: [1, 2]}]"
     = parse_expression "[(a.b), {k: [1, 2]}]"
  /\ terminates (parse_expression_fuel 21 "[(a.b), {k: [1, 2]}]").
Proof.
  assert (Hlen : String.length "[(a.b), {k: [1, 2]}]" < 21) by (cbn; lia).
  split; [exact Hlen |].
  exact (parse_expression_bounded "[(a.b), {k: [1, 2]}]" 21 Hlen).
Defined.

(** ** Dict keys *)

Lemma find_bound (c : ascii) (s : string) :
  forall n, Py.find c s = Some n -> n < String.length s.
Proof.
  induction s as [| a s IH]; intros n; cbn [Py.find String.length]; [discriminate |].
  destruct (Ascii.eqb a c); [intros H; injection H as <-; lia |].
  destruct (Py.find c s) as [m |]; [| discriminate].
  intros H. injection H as <-. specialize (IH m eq_refl). lia.
Qed.

Lemma find_prefix (c : ascii) (s : string) :
  forall n, Py.find c s = Some n -> Py.find c (substring 0 n s) = None.
Proof.
  induction s as [| a s IH]; intros n; cbn [Py.find]; [discriminate |].
  destruct (Ascii.eqb a c) eqn:Hac.
  - intros H. injection H as <-. now destruct s.
  - destruct (Py.find c s) as [m |]; [| discriminate].
    intros H. injection H as <-. cbn [substring Py.find]. rewrite Hac.
    now rewrite (IH m eq_refl).
Qed.

Lemma find_substring (c : ascii) (s : string) :
  Py.find c s = None -> forall a b, Py.find c (substring a b s) = None.
Proof.
  induction s as [| x s IH]; intros Hs a b.
  - now destruct a, b.
  - cbn [Py.find] in Hs. destruct (Ascii.eqb x c) eqn:Hxc; [discriminate |].
    destruct (Py.find c s) eqn:Hfs; [discriminate |].
    destruct a as [| a], b as [| b]; cbn [substring Py.find]; try reflexivity.
    + rewrite Hxc. now rewrite (IH eq_refl 0 b).
    + now apply IH.
    + now apply IH.
Qed.

Lemma split_part_key (parse : string -> result Expression) (part key : string)
    (val : Expression) :
  split_part parse part = Ok (key, val) -> Py.find ":" key = None.
Proof.
  unfold split_part. destruct (Py.find ":" part) as [n |] eqn:Hfind; [| discriminate].
  destruct (parse _) as [v | |]; cbn [bind]; try discriminate.
  intros H. injection H as <- _.
  assert (Hraw : Py.find ":" (Py.slice part 0 n) = None).
  { unfold Py.slice. rewrite Nat.sub_0_r. now apply find_prefix. }
  destruct (StringExpression.try_parse (Py.slice part 0 n)) as [e |] eqn:He;
    [| exact Hraw].
  apply StringExpression_try_parse_spec in He as (_ & _ & _ & ->).
  unfold Py.interior. now apply find_substring.
Qed.

Lemma fold_set_keys {V : Type} (pairs : list (string * V)) :
  forall acc key,
    In key (map fst (fold_left (fun d kv => PyDict.set d (fst kv) (snd kv)) pairs acc)) ->
    In key (map fst acc) \/ In key (map fst pairs).
Proof.
  induction pairs as [| [k v] pairs IH]; intros acc key; cbn [fold_left fst snd map].
  - now left.
  - intros H. apply IH in H as [H | H]; [| right; now right].
    rewrite set_keys in H.
    destruct (existsb (String.eqb k) (map fst acc)); [now left |].
    apply in_app_or in H as [H | [<- | []]]; [now left | right; now left].
Qed.

(** X26: a key of a parsed Dict never holds a colon, quoted or not: an entry
    is cut at its first colon wherever that is. *)
Theorem DictExpression_keys_without_colon (parse : string -> result Expression)
    (expression : string) (e : Expression) :
  DictExpression_try_parse parse expression = Ok (Some e) ->
  exists items,
    e = DictExpression items
    /\ forall key, In key (map fst items) -> Py.find ":" key = None.
Proof.
  unfold DictExpression_try_parse, dict_items.
  destruct (negb _); [discriminate |].
  destruct (map_result (split_part parse) _) as [pairs | |] eqn:Hmap; cbn [bind];
    try discriminate.
  intros H. injection H as <-. eexists. split; [reflexivity |].
  intros key Hkey. apply fold_set_keys in Hkey as [[] | Hkey].
  assert (Hall : forallb (fun kv => match Py.find ":" (fst kv) with
                                    | None => true
                                    | Some _ => false
                                    end) pairs = true).
  { eapply map_result_forallb; [| exact Hmap].
    intros part [k v] _ Hpart. cbn [fst].
    now rewrite (split_part_key parse part k v Hpart). }
  rewrite forallb_forall in Hall.
  apply in_map_iff in Hkey as (kv & <- & Hkv).
  specialize (Hall kv Hkv). now destruct (Py.find ":" (fst kv)).
Qed.

Lemma DictExpression_keys_without_colon_witness :
  exists items,
    DictExpression [("a", IntExpression 1); ("b", IntExpression 2)]
    = DictExpression items
    /\ forall key, In key (map fst items) -> Py.find ":" key = None.
Proof.
  apply (DictExpression_keys_without_colon parse_expression "{'a':1,b:2}").
  reflexivity.
Defined.

(** ** Segments of a dotted text *)

Lemma join_last_key (sep : string) :
  forall (l : list string) (x : string),
    l <> [] ->
    exists pre, Py.join sep (x :: l) = pre ++ sep ++ List.last l EmptyString.
Proof.
  induction l as [| y l IH]; intros x Hne; [congruence |].
  rewrite join_cons by discriminate. destruct l as [| z l].
  - exists x. reflexivity.
  - destruct (IH y ltac:(discriminate)) as (pre & ->).
    exists (x ++ sep ++ pre). cbn [List.last]. now rewrite !append_assoc.
Qed.

Lemma last_in (l : list string) :
  l <> [] -> In (List.last l EmptyString) l.
Proof.
  intros Hne. rewrite (app_removelast_last EmptyString Hne) at 2.
  apply in_or_app. right. now left.
Qed.

Lemma smart_split_joined (expression seperator : string)
    (delimiters : list (string * string)) (parts : list string) :
  smart_split expression seperator delimiters = parts ->
  expression = Py.join seperator parts.
Proof.
  intros <-. symmetry.
  exact (smart_split_loop_join seperator delimiters expression
           EmptyString EmptyString [] expression 0 0 eq_refl eq_refl eq_refl).
Qed.

Lemma dotted_last_key (e p0 : string) (keys : list string) :
  smart_split e "." common_delimiters = p0 :: keys ->
  keys <> [] ->
  forallb Py.isidentifier keys = true ->
  exists c1, Py.last e = Some c1 /\ Py.is_ident_char c1 = true.
Proof.
  intros Hsplit Hne Hkeys.
  destruct (join_last_key "." keys p0 Hne) as (pre & Hjoin).
  rewrite <- (smart_split_joined _ _ _ _ Hsplit) in Hjoin.
  rewrite forallb_forall in Hkeys.
  destruct (isidentifier_chars _ (Hkeys _ (last_in keys Hne))) as (Hz & Hall & _).
  destruct (all_chars_last _ _ Hall Hz) as (c1 & Hlast & Hc1).
  exists c1. split; [| exact Hc1].
  rewrite Hjoin, <- append_assoc. now rewrite last_append.
Qed.

Lemma ident_char_closes_nothing (c : ascii) :
  Py.is_ident_char c = true ->
  is_boundary_whitespace c = false
  /\ c <> ")"%char /\ c <> "'"%char /\ c <> "]"%char /\ c <> "}"%char.
Proof.
  destruct c as [[] [] [] [] [] [] [] []]; cbv; intros H;
    try discriminate; repeat (split; [try reflexivity; discriminate |]);
    try reflexivity; discriminate.
Qed.

Lemma enclosed_in_other_last (opening closing c : ascii) (expression : string) :
  Py.last expression = Some c -> c <> closing ->
  enclosed_in opening closing expression = false.
Proof.
  intros Hlast Hne. unfold enclosed_in. rewrite Hlast. cbn [Py.char_is].
  apply Ascii.eqb_neq in Hne. rewrite Hne.
  now rewrite andb_false_r.
Qed.

Lemma StringExpression_try_parse_other_last (c : ascii) (expression : string) :
  Py.last expression = Some c -> c <> "'"%char ->
  StringExpression.try_parse expression = None.
Proof.
  intros Hlast Hne.
  destruct (StringExpression.try_parse expression) as [e |] eqn:H; [| reflexivity].
  apply StringExpression_try_parse_spec in H as (_ & _ & H & _). congruence.
Qed.

Lemma dotted_not_numeric (x rest : string) :
  Py.isnumeric (x ++ String "." rest) = false.
Proof.
  destruct x as [| a x]; [reflexivity |].
  cbn [append]. unfold Py.isnumeric. cbn [Py.all_chars].
  rewrite all_chars_append. cbn [Py.all_chars].
  replace (Py.is_digit ".") with false by reflexivity.
  cbn [andb]. now rewrite !andb_false_r.
Qed.

Lemma dotted_no_identifier (x rest : string) :
  Py.isidentifier (x ++ String "." rest) = false.
Proof.
  destruct x as [| a x]; [reflexivity |].
  cbn [append Py.isidentifier].
  rewrite all_chars_append. cbn [Py.all_chars].
  replace (Py.is_ident_char ".") with false by reflexivity.
  cbn [andb]. now rewrite !andb_false_r.
Qed.

(** ** Texts in braces that are no dict *)

(** C5: a text in braces whose interior fails to parse as dict items, whatever
    the exception, is "no match" for [DictExpression.try_parse], and
    [parse_expression] goes on with the two variants that follow.  The
    Variable attempt fails on a text that starts with a brace.  The Property
    attempt splits the text at its dots: with one segment it is no match
    either; with more it parses the first segment, whose exception escapes,
    and then fails on the last key, which ends with the brace.  So the call
    raises: the exception of the first segment, or the "can't parse" error of
    the whole text. *)
Theorem DictExpression_failure_is_no_match (expression : string) (err : exn) :
  enclosed_in "{" "}" expression = true ->
  dict_items parse_expression (Py.interior expression) = Raise err ->
  DictExpression_try_parse parse_expression expression = Ok None
  /\ VariableExpression.try_parse expression = None
  /\ parse_expression expression
     = match smart_split expression "." common_delimiters with
       | part0 :: _ :: _ =>
           root_expression <- parse_expression part0 ;;
           Raise (TemplateSyntaxError (CantParse expression))
       | _ => Raise (TemplateSyntaxError (CantParse expression))
       end.
Proof.
  intros Henc Hitems.
  destruct (enclosed_in_ends _ _ _ Henc) as [Hfirst Hlast].
  assert (Hdict : DictExpression_try_parse parse_expression expression = Ok None).
  { unfold DictExpression_try_parse. rewrite Henc, Hitems. reflexivity. }
  assert (Hvar : VariableExpression.try_parse expression = None)
    by now apply (VariableExpression_try_parse_other_first "{").
  split; [exact Hdict | split; [exact Hvar |]].
  rewrite parse_expression_unfold at 1. unfold parse_expression_body.
  rewrite (remove_whitespaces_fixed expression "{" "}"); try easy.
  cbn [bind]. rewrite Hfirst.
  replace (Ascii.eqb "{" "(") with false by reflexivity. cbn [andb].
  rewrite brace_text_reaches_dict by exact Hfirst.
  rewrite Hdict. unfold parse_after_dict. rewrite Hvar.
  cbn [or_else_try or_else bind]. unfold PropertyExpression_try_parse.
  destruct (smart_split expression "." common_delimiters)
    as [| part0 [| key key_path]] eqn:Hsplit; try reflexivity.
  destruct (parse_expression part0) as [root_expression | e |]; cbn [bind];
    try reflexivity.
  destruct (forallb Py.isidentifier (key :: key_path)) eqn:Hkeys;
    [| reflexivity].
  destruct (dotted_last_key _ _ _ Hsplit ltac:(discriminate) Hkeys)
    as (c1 & Hc1 & Hident).
  rewrite Hlast in Hc1. injection Hc1 as <-. discriminate.
Qed.

Lemma DictExpression_failure_is_no_match_witness :
  (enclosed_in "{" "}" "{a}" = true
   /\ dict_items parse_expression (Py.interior "{a}")
      = Raise (TemplateSyntaxError NoKeyValueSeperator)
   /\ DictExpression_try_parse parse_expression "{a}" = Ok None
   /\ VariableExpression.try_parse "{a}" = None
   /\ parse_expression "{a}" = Raise (TemplateSyntaxError (CantParse "{a}")))
  /\ (enclosed_in "{" "}" "{a}.{b}" = true
      /\ dict_items parse_expression (Py.interior "{a}.{b}")
         = Raise (TemplateSyntaxError NoKeyValueSeperator)
      /\ DictExpression_try_parse parse_expression "{a}.{b}" = Ok None
      /\ VariableExpression.try_parse "{a}.{b}" = None
      /\ parse_expression "{a}.{b}" = Raise (TemplateSyntaxError (CantParse "{a}")))
  /\ (enclosed_in "{" "}" "{a:1}.{b}" = true
      /\ dict_items parse_expression (Py.interior "{a:1}.{b}")
         = Raise (TemplateSyntaxError (CantParse "1}"))
      /\ parse_expression "{a:1}.{b}"
         = Raise (TemplateSyntaxError (CantParse "{a:1}.{b}"))).
Proof.
  split; [| split].
  - split; [reflexivity | split; [reflexivity |]].
    exact (DictExpression_failure_is_no_match "{a}"
             (TemplateSyntaxError NoKeyValueSeperator) eq_refl eq_refl).
  - split; [reflexivity | split; [reflexivity |]].
    exact (DictExpression_failure_is_no_match "{a}.{b}"
             (TemplateSyntaxError NoKeyValueSeperator) eq_refl eq_refl).
  - split; [reflexivity | split; [reflexivity |]].
    exact (proj2 (proj2 (DictExpression_failure_is_no_match "{a:1}.{b}"
             (TemplateSyntaxError (CantParse "1}")) eq_refl eq_refl))).
Defined.

(** ** Paths over a settable first segment *)

Lemma last_repeat (x : string) (n : nat) :
  List.last (x :: repeat x n) EmptyString = x.
Proof.
  induction n as [| n IH]; [reflexivity |].
  cbn [repeat]. cbn [List.last] in *. exact IH.
Qed.

Lemma removelast_repeat (x : string) (n : nat) :
  removelast (x :: repeat x n) = repeat x n.
Proof.
  induction n as [| n IH]; [reflexivity |].
  cbn [repeat]. cbn [removelast] in *. now rewrite IH.
Qed.

Lemma round_action (c : ascii) (open : nat) :
  smart_split_action "." common_delimiters (repeat ")" open) (Py.chr c)
  = if Ascii.eqb c "(" then Push ")"
    else if Ascii.eqb c ")" then match open with 0 => Skip | S _ => Pop end
    else if Ascii.eqb c "[" then Push "]"
    else if Ascii.eqb c "{" then Push "}"
    else if Ascii.eqb c "." then match open with 0 => Yield | S _ => Skip end
    else Skip.
Proof.
  destruct open as [| open].
  - destruct c as [[] [] [] [] [] [] [] []]; reflexivity.
  - cbn [repeat]. unfold smart_split_action. rewrite last_repeat.
    destruct c as [[] [] [] [] [] [] [] []]; reflexivity.
Qed.

Lemma round_nested_scan :
  forall s open,
    round_nested open s = true ->
    scan_stack "." common_delimiters (repeat ")" open) s = Some [].
Proof.
  induction s as [| c s IH]; intros open H; cbn [round_nested scan_stack] in *.
  - apply Nat.eqb_eq in H. now subst.
  - rewrite round_action.
    destruct (Ascii.eqb c "(").
    { cbn [apply_action]. rewrite <- repeat_cons. exact (IH (S open) H). }
    destruct (Ascii.eqb c ")").
    { destruct open as [| open]; cbn [apply_action Nat.pred] in *.
      - exact (IH 0 H).
      - cbn [repeat]. rewrite removelast_repeat. exact (IH open H). }
    destruct (Ascii.eqb c "["); [discriminate |].
    destruct (Ascii.eqb c "{"); [discriminate |]. cbn [orb] in H.
    destruct (Ascii.eqb c ".").
    { destruct open as [| open]; [discriminate |].
      cbn [Nat.eqb negb andb apply_action] in *. exact (IH (S open) H). }
    cbn [apply_action]. exact (IH open H).
Qed.

Lemma round_nested_unsplit (s : string) :
  round_nested 0 s = true -> unsplit "." common_delimiters s = true.
Proof.
  intros H. apply round_nested_scan in H. cbn [repeat] in H.
  unfold unsplit. now rewrite H.
Qed.

Lemma ident_char_round (c : ascii) :
  Py.is_ident_char c = true ->
  Ascii.eqb c "(" = false /\ Ascii.eqb c ")" = false
  /\ Ascii.eqb c "[" = false /\ Ascii.eqb c "{" = false
  /\ Ascii.eqb c "." = false.
Proof.
  destruct c as [[] [] [] [] [] [] [] []]; cbv; intros H;
    try discriminate; repeat (split; [reflexivity |]); reflexivity.
Qed.

Lemma identifier_round_nested (k : string) :
  Py.all_chars Py.is_ident_char k = true -> round_nested 0 k = true.
Proof.
  induction k as [| c k IH]; intros H; [reflexivity |].
  cbn [Py.all_chars] in H. apply andb_prop in H as [Hc Hk].
  destruct (ident_char_round c Hc) as (H1 & H2 & H3 & H4 & H5).
  cbn [round_nested]. rewrite H1, H2, H3, H4, H5. cbn [orb]. now apply IH.
Qed.

Lemma round_nested_segments (p0 : string) (keys : list string) :
  round_nested 0 p0 = true ->
  forallb Py.isidentifier keys = true ->
  smart_split (Py.join "." (p0 :: keys)) "." common_delimiters = p0 :: keys.
Proof.
  intros Hp0 Hkeys.
  apply (smart_split_loop_joined "." common_delimiters keys EmptyString p0).
  - now apply round_nested_unsplit.
  - rewrite forallb_forall in *. intros k Hk.
    apply round_nested_unsplit, identifier_round_nested.
    now apply isidentifier_chars, Hkeys.
Qed.

Lemma segments_parse (s e p0 : string) (keys : list string) (root : Expression) :
  remove_whitespaces_on_boundaries s = Ok e ->
  smart_split e "." common_delimiters = p0 :: keys ->
  keys <> [] ->
  forallb Py.isidentifier keys = true ->
  parse_expression p0 = Ok root ->
  parse_expression s
  = Ok (if is_SettableExpression root
        then SettablePropertyExpression root keys
        else PropertyExpression root keys).
Proof.
  intros Htrim Hsplit Hne Hkeys Hroot.
  destruct (dotted_last_key e p0 keys Hsplit Hne Hkeys) as (c1 & Hlast & Hc1).
  destruct (ident_char_closes_nothing c1 Hc1)
    as (_ & Hparen & Hquote & Hbracket & Hbrace).
  assert (Hshape : exists rest, e = p0 ++ String "." rest).
  { rewrite (smart_split_joined _ _ _ _ Hsplit).
    destruct keys as [| k ks]; [congruence |].
    now exists (Py.join "." (k :: ks)). }
  destruct Hshape as (rest & Hshape).
  rewrite parse_expression_unfold. unfold parse_expression_body.
  rewrite Htrim. cbn [bind].
  destruct (Py.first e) as [c0 |] eqn:Hfirst.
  2: { destruct e; [discriminate Hlast | discriminate Hfirst]. }
  rewrite Hlast. cbn [Py.char_is].
  apply Ascii.eqb_neq in Hparen. rewrite Hparen, andb_false_r.
  unfold parse_variants, parse_after_dict.
  rewrite (StringExpression_try_parse_other_last c1 e Hlast Hquote).
  unfold IntExpression.try_parse, ArrayExpression_try_parse,
    DictExpression_try_parse.
  rewrite (enclosed_in_other_last "[" "]" c1 e Hlast Hbracket).
  rewrite (enclosed_in_other_last "{" "}" c1 e Hlast Hbrace).
  unfold BoolExpression.try_parse, NoneExpression.try_parse,
    VariableExpression.try_parse, PropertyExpression_try_parse.
  assert (Hword : forall w, Py.all_chars Py.is_ident_char w = true ->
                            String.eqb e w = false)
    by (intros w Hw; rewrite Hshape; now apply dotted_not_word).
  assert (Hnumeric : Py.isnumeric e = false)
    by (rewrite Hshape; apply dotted_not_numeric).
  assert (Hident : Py.isidentifier e = false)
    by (rewrite Hshape; apply dotted_no_identifier).
  rewrite Hsplit, !Hword, Hnumeric, Hident by reflexivity.
  cbn [or_else or_else_try bind].
  destruct keys as [| k ks]; [congruence |].
  rewrite Hroot. cbn [bind]. rewrite Hkeys. cbn [negb].
  now destruct (is_SettableExpression root).
Qed.

Lemma settable_base_variables :
  forall e name, settable_base e = Some name -> variables e = [name].
Proof.
  fix IH 1.
  intros [val | val | val | | elements | items | var_name | root keys | root keys] name;
    cbn [settable_base variables]; try discriminate.
  - intros H. now injection H as ->.
  - apply IH.
Qed.

(** C9: take a text that trims to [e], with [p0] and [keys] the segments
    [smart_split] cuts [e] into at its dots (in particular, when [e] is their
    join and every dot of [p0] lies inside round brackets), [keys] non-empty
    identifiers, and [p0] parsing as a Settable expression [root].  Then the
    text parses as the SettableProperty over [root] with key path [keys];
    [js_set] on this node is the generated code of the property path, [ = ],
    the value code, [; ], and the notification code of [root]; and in every
    context that resolves the Variable [root] is based on, [js_set] returns:
    the path code is the code of [root] in round brackets followed by the
    keys, and the notification is that of the reactive variable. *)
Theorem settable_path_js_set (s e p0 : string) (keys : list string)
    (root : Expression) :
  remove_whitespaces_on_boundaries s = Ok e ->
  smart_split e "." common_delimiters = p0 :: keys
  \/ (e = Py.join "." (p0 :: keys) /\ round_nested 0 p0 = true) ->
  keys <> [] ->
  forallb Py.isidentifier keys = true ->
  parse_expression p0 = Ok root ->
  is_SettableExpression root = true ->
  parse_expression s = Ok (SettablePropertyExpression root keys)
  /\ (forall fuel react_context js_expression path hooks notify,
        eval_js_and_hooks fuel react_context (SettablePropertyExpression root keys)
        = Ok (path, hooks) ->
        js_notify react_context root = Ok notify ->
        js_set fuel react_context (SettablePropertyExpression root keys) js_expression
        = Ok (path ++ " = " ++ js_expression ++ "; " ++ notify))
  /\ exists name,
       settable_base root = Some name
       /\ forall ctx var fuel js_expression,
            search_var ctx name = Some var ->
            depth root < fuel ->
            exists root_js,
              eval_js_and_hooks fuel (Some ctx) root = Ok (root_js, [var])
              /\ js_set (S fuel) (Some ctx) (SettablePropertyExpression root keys)
                   js_expression
                 = Ok (("(" ++ root_js ++ ")." ++ Py.join "." keys)
                       ++ " = " ++ js_expression ++ "; " ++ var_js_notify var).
Proof.
  intros Htrim Hsegments Hne Hkeys Hroot Hset.
  assert (Hsplit : smart_split e "." common_delimiters = p0 :: keys).
  { destruct Hsegments as [H | [-> Hp0]]; [exact H |].
    now apply round_nested_segments. }
  split; [| split].
  - rewrite (segments_parse s e p0 keys root Htrim Hsplit Hne Hkeys Hroot), Hset.
    reflexivity.
  - intros. now apply SettablePropertyExpression_js_set with (hooks := hooks).
  - pose proof (parse_expression_fuel_well_formed _ _ _ Hroot) as Hwf.
    destruct (well_formed_settable_base root Hwf Hset) as (name & Hbase & _).
    exists name. split; [exact Hbase |].
    intros ctx var fuel js_expression Hvar Hdepth.
    destruct (eval_js_and_hooks_with_context ctx fuel root Hdepth
                (settable_base_printable root name Hbase)) as (root_js & Hjs).
    rewrite (settable_base_variables root name Hbase) in Hjs.
    unfold resolved in Hjs. cbn [flat_map app] in Hjs. rewrite Hvar in Hjs.
    exists root_js. split; [exact Hjs |].
    unfold js_set. remember (S fuel) as n eqn:Hn.
    rewrite Hn at 1. cbn [eval_js_and_hooks]. rewrite Hjs.
    cbn [bind fst snd js_notify].
    rewrite (js_notify_base (Some ctx) root name Hbase).
    cbn [js_notify VariableExpression.var bind]. now rewrite Hvar.
Qed.

Lemma settable_path_js_set_witness :
  let x := mkReactVar (IntExpression 7) "x.get()" (fun code => "x.set(" ++ code ++ ")")
             "x.notify()" in
  let ctx := mkReactContext (fun name => if String.eqb name "x" then Some x else None) in
  let inner := SettablePropertyExpression (VariableExpression "x") ["y"] in
  (smart_split "(x.y).z" "." common_delimiters = ["(x.y)"; "z"]
   /\ parse_expression "(x.y)" = Ok inner
   /\ parse_expression " (x.y).z " = Ok (SettablePropertyExpression inner ["z"])
   /\ js_set 4 (Some ctx) (SettablePropertyExpression inner ["z"]) "v"
      = Ok "((x.get()).y).z = v; x.notify()")
  /\ (smart_split "x .y" "." common_delimiters = ["x "; "y"]
      /\ parse_expression " x .y" = Ok inner
      /\ js_set 2 (Some ctx) inner "v" = Ok "(x.get()).y = v; x.notify()")
  /\ (parse_expression "x.y.z"
      = Ok (SettablePropertyExpression (VariableExpression "x") ["y"; "z"])
      /\ js_set 2 (Some ctx)
           (SettablePropertyExpression (VariableExpression "x") ["y"; "z"]) "v"
         = Ok "(x.get()).y.z = v; x.notify()").
Proof.
  intros x ctx inner. split; [| split].
  - destruct (settable_path_js_set " (x.y).z " "(x.y).z" "(x.y)" ["z"] inner
                eq_refl (or_intror (conj eq_refl eq_refl))
                ltac:(discriminate) eq_refl eq_refl eq_refl)
      as (Hparse & _ & name & Hbase & Hset).
    split; [reflexivity | split; [reflexivity | split; [exact Hparse |]]].
    injection Hbase as <-.
    destruct (Hset ctx x 3 "v" eq_refl ltac:(subst inner; cbn [depth]; lia))
      as (root_js & Hjs & Hv).
    injection Hjs as <-. exact Hv.
  - destruct (settable_path_js_set " x .y" "x .y" "x " ["y"] (VariableExpression "x")
                eq_refl (or_introl eq_refl)
                ltac:(discriminate) eq_refl eq_refl eq_refl)
      as (Hparse & Hset & _).
    split; [reflexivity | split; [exact Hparse |]].
    exact (Hset 2 (Some ctx) "v" "(x.get()).y" [x] "x.notify()" eq_refl eq_refl).
  - destruct (settable_path_js_set "x.y.z" "x.y.z" "x" ["y"; "z"] (VariableExpression "x")
                eq_refl (or_introl eq_refl)
                ltac:(discriminate) eq_refl eq_refl eq_refl)
      as (Hparse & Hset & _).
    split; [exact Hparse |].
    exact (Hset 2 (Some ctx) "v" "(x.get()).y.z" [x] "x.notify()" eq_refl eq_refl).
Defined.
